(** * Farmbridge Technologies: scroll-driven 3D scene, HTTP retry helper
      and local-storage cache

    A shallow embedding of the two scripts of the site:

    - the [FarmbridgeVisualization] class (scene life cycle, camera rig,
      particle field, decorative objects, fallback panel) in module [Viz];
    - [API.request] of [script.js] (retry loop around [fetch]) in module
      [Api];
    - [Storage.set] / [Storage.get] / [Storage.remove] of [script.js] in
      module [Store];
    - the page components of [script.js]: [EventManager], the scroll effect
      of [Navigation], [Modal], [Analytics], [Tabs], [Accordion] with the
      [Animation] helpers it uses, and [FormValidator], each in a module of
      its name, over the class lists of module [DOM].

    Module [Viz] reads the numbers of the scene as real numbers: its
    arithmetic is the exact one.  The platform computes in binary64 and
    keeps the particle buffers in [Float32Array]s; module [Binary] gives
    the particle loop and the zoom of the camera in that arithmetic, for
    the statements that depend on the rounding.  Counters, frame request
    ids and timestamps are integers. *)

From Stdlib Require Import Reals Lra Lia List ZArith Bool String Ascii DecimalString.
From Stdlib Require DecimalPos.
From Stdlib Require Floats.
From Equations Require Import Equations.
From stdpp Require Import gmap strings.
Import ListNotations.

(** ** The 3D visualisation *)

Module Viz.

Local Open Scope R_scope.

(** *** Particle field: [updateParticles] *)

(** The constant subtracted from the vertical velocity on every frame
    ([velocity[i + 1] -= 0.0001]). *)
Definition GRAVITY : R := 0.0001.

(** [Math.abs(p) > 100] *)
Definition beyond (p : R) : bool :=
  if Rlt_dec 100 (Rabs p) then true else false.

(** [if (Math.abs(p) > 100) v *= -1] : the value of [v] afterwards. *)
Definition bounce (p v : R) : R :=
  if beyond p then v * -1 else v.

(** The body of the [for (i = 0; i < positions.length; i += 3)] loop, run
    over the two flat buffers.  Both buffers are created with
    [3 * particleCount] entries, so the loop always sees whole triples; a
    trailing partial triple (which the constructor never produces) is left
    as it is. *)
Fixpoint updateParticlesLoop (positions velocity : list R) : list R * list R :=
  match positions, velocity with
  | px :: py :: pz :: ps, vx :: vy :: vz :: vs =>
      (* Apply velocity *)
      let px := px + vx in
      let py := py + vy in
      let pz := pz + vz in
      (* Bounce at boundaries *)
      let vx := bounce px vx in
      let vy := bounce py vy in
      let vz := bounce pz vz in
      (* Add slight gravity *)
      let vy := vy - GRAVITY in
      let (ps', vs') := updateParticlesLoop ps vs in
      (px :: py :: pz :: ps', vx :: vy :: vz :: vs')
  | _, _ => (positions, velocity)
  end.

(** *** Scene objects *)

Record Vector3 := vec3 { x_ : R; y_ : R; z_ : R }.

(** A [THREE.Mesh]: its transform, and whether its geometry and material
    have been disposed. *)
Record Mesh := mkMesh {
  position : Vector3;
  rotation : Vector3;
  meshDisposed : bool
}.

(** [THREE.PerspectiveCamera] *)
Record Camera := mkCamera {
  camPosition : Vector3;
  camRotation : Vector3;
  aspect : R
}.

(** [THREE.Points] with the [position] attribute of its geometry. *)
Record Points := mkPoints {
  ptsRotation : Vector3;
  positionArray : list R;
  needsUpdate : bool;
  ptsDisposed : bool
}.

(** [THREE.WebGLRenderer] *)
Record Renderer := mkRenderer {
  size : R * R;
  rendered : nat;          (* number of [render] calls so far *)
  disposed : bool
}.

(** The fields of a [FarmbridgeVisualization] instance. *)
Record Visualization := mkViz {
  scene : bool;                       (* [this.scene] is not [null] *)
  camera : option Camera;
  renderer : option Renderer;
  particleSystem : option Points;
  particleVelocities : list R;
  torus : option Mesh;
  octahedron : option Mesh;
  cube : option Mesh;
  isMobile : bool;
  scrollProgress : R;
  initialized : bool;
  animationId : option nat
}.

(** [this.config] *)
Definition particleCount (v : Visualization) : nat :=
  if isMobile v then 500%nat else 1000%nat.
Definition parallaxIntensity : R := 0.5.
Definition cameraDistance : R := 100.

(** *** The page around the instance *)

(** The methods of the class; the page keeps the list of the calls made,
    most recent first. *)
Inductive method :=
| m_init | m_setupScene | m_setupCamera | m_setupRenderer | m_setupLighting
| m_createParticles | m_createGeometries | m_setupEventListeners
| m_setupScrollListener | m_updateCameraOnScroll | m_updateParallax
| m_onWindowResize | m_onVisibilityChange | m_animate | m_updateParticles
| m_handleWebGLFallback | m_pause | m_resume | m_destroy
| m_detectMobile | m_isWebGLSupported.

(** The signals the script subscribes to with [addEventListener]. *)
Inductive signal := Resize | VisibilityChange | Scroll | BeforeUnload.

Definition signal_eqb (a b : signal) : bool :=
  match a, b with
  | Resize, Resize | VisibilityChange, VisibilityChange
  | Scroll, Scroll | BeforeUnload, BeforeUnload => true
  | _, _ => false
  end.

(** What the script appends to the page. *)
Inductive node := CanvasNode | FallbackPanel.

Record Browser := mkBrowser {
  listeners : list signal;        (* subscriptions, in registration order *)
  frameRequests : list nat;       (* pending [requestAnimationFrame] ids *)
  nextRequestId : nat;
  hasContainer : bool;            (* [#three-container] exists *)
  containerChildren : list node;
  bodyChildren : list node;
  innerWidth : R;
  innerHeight : R;
  scrollY : R;
  docScrollHeight : R;            (* [document.documentElement.scrollHeight] *)
  hidden : bool;                  (* [document.hidden] *)
  calls : list method
}.

Record World := mkWorld { viz : Visualization; browser : Browser }.

(** What the platform decides: the user agent, WebGL, whether the THREE
    library can be used at all, and the draws of [Math.random()]. *)
Record Env := mkEnv {
  envMobile : bool;
  envWebGL : bool;
  envThree : bool;
  random : nat -> R
}.

(** *** Field updates *)

Definition set_scene (b : bool) (v : Visualization) : Visualization :=
  mkViz b (camera v) (renderer v) (particleSystem v) (particleVelocities v)
    (torus v) (octahedron v) (cube v) (isMobile v) (scrollProgress v)
    (initialized v) (animationId v).
Definition set_camera (c : option Camera) (v : Visualization) : Visualization :=
  mkViz (scene v) c (renderer v) (particleSystem v) (particleVelocities v)
    (torus v) (octahedron v) (cube v) (isMobile v) (scrollProgress v)
    (initialized v) (animationId v).
Definition set_renderer (r : option Renderer) (v : Visualization) : Visualization :=
  mkViz (scene v) (camera v) r (particleSystem v) (particleVelocities v)
    (torus v) (octahedron v) (cube v) (isMobile v) (scrollProgress v)
    (initialized v) (animationId v).
Definition set_particles (p : option Points) (vel : list R) (v : Visualization)
  : Visualization :=
  mkViz (scene v) (camera v) (renderer v) p vel
    (torus v) (octahedron v) (cube v) (isMobile v) (scrollProgress v)
    (initialized v) (animationId v).
Definition set_torus (m : option Mesh) (v : Visualization) : Visualization :=
  mkViz (scene v) (camera v) (renderer v) (particleSystem v) (particleVelocities v)
    m (octahedron v) (cube v) (isMobile v) (scrollProgress v)
    (initialized v) (animationId v).
Definition set_octahedron (m : option Mesh) (v : Visualization) : Visualization :=
  mkViz (scene v) (camera v) (renderer v) (particleSystem v) (particleVelocities v)
    (torus v) m (cube v) (isMobile v) (scrollProgress v)
    (initialized v) (animationId v).
Definition set_cube (m : option Mesh) (v : Visualization) : Visualization :=
  mkViz (scene v) (camera v) (renderer v) (particleSystem v) (particleVelocities v)
    (torus v) (octahedron v) m (isMobile v) (scrollProgress v)
    (initialized v) (animationId v).
Definition set_scrollProgress (p : R) (v : Visualization) : Visualization :=
  mkViz (scene v) (camera v) (renderer v) (particleSystem v) (particleVelocities v)
    (torus v) (octahedron v) (cube v) (isMobile v) p
    (initialized v) (animationId v).
Definition set_initialized (b : bool) (v : Visualization) : Visualization :=
  mkViz (scene v) (camera v) (renderer v) (particleSystem v) (particleVelocities v)
    (torus v) (octahedron v) (cube v) (isMobile v) (scrollProgress v)
    b (animationId v).
Definition set_animationId (i : option nat) (v : Visualization) : Visualization :=
  mkViz (scene v) (camera v) (renderer v) (particleSystem v) (particleVelocities v)
    (torus v) (octahedron v) (cube v) (isMobile v) (scrollProgress v)
    (initialized v) i.

Definition set_listeners (l : list signal) (b : Browser) : Browser :=
  mkBrowser l (frameRequests b) (nextRequestId b) (hasContainer b)
    (containerChildren b) (bodyChildren b) (innerWidth b) (innerHeight b)
    (scrollY b) (docScrollHeight b) (hidden b) (calls b).
Definition set_frames (l : list nat) (next : nat) (b : Browser) : Browser :=
  mkBrowser (listeners b) l next (hasContainer b)
    (containerChildren b) (bodyChildren b) (innerWidth b) (innerHeight b)
    (scrollY b) (docScrollHeight b) (hidden b) (calls b).
Definition set_children (c d : list node) (b : Browser) : Browser :=
  mkBrowser (listeners b) (frameRequests b) (nextRequestId b) (hasContainer b)
    c d (innerWidth b) (innerHeight b)
    (scrollY b) (docScrollHeight b) (hidden b) (calls b).
Definition set_window (w h : R) (b : Browser) : Browser :=
  mkBrowser (listeners b) (frameRequests b) (nextRequestId b) (hasContainer b)
    (containerChildren b) (bodyChildren b) w h
    (scrollY b) (docScrollHeight b) (hidden b) (calls b).
Definition set_scroll (sy sh : R) (b : Browser) : Browser :=
  mkBrowser (listeners b) (frameRequests b) (nextRequestId b) (hasContainer b)
    (containerChildren b) (bodyChildren b) (innerWidth b) (innerHeight b)
    sy sh (hidden b) (calls b).
Definition set_hidden (h : bool) (b : Browser) : Browser :=
  mkBrowser (listeners b) (frameRequests b) (nextRequestId b) (hasContainer b)
    (containerChildren b) (bodyChildren b) (innerWidth b) (innerHeight b)
    (scrollY b) (docScrollHeight b) h (calls b).
Definition set_calls (l : list method) (b : Browser) : Browser :=
  mkBrowser (listeners b) (frameRequests b) (nextRequestId b) (hasContainer b)
    (containerChildren b) (bodyChildren b) (innerWidth b) (innerHeight b)
    (scrollY b) (docScrollHeight b) (hidden b) l.

Definition on_viz (f : Visualization -> Visualization) (w : World) : World :=
  mkWorld (f (viz w)) (browser w).
Definition on_browser (f : Browser -> Browser) (w : World) : World :=
  mkWorld (viz w) (f (browser w)).

(** Entering a method. *)
Definition enter (m : method) (w : World) : World :=
  on_browser (fun b => set_calls (m :: calls b) b) w.

(** *** Platform primitives *)

(** [requestAnimationFrame]: a fresh id joins the pending requests. *)
Definition requestAnimationFrame (w : World) : nat * World :=
  let b := browser w in
  let id := nextRequestId b in
  (id, on_browser (set_frames (frameRequests b ++ [id]) (S id)) w).

(** [cancelAnimationFrame(id)] *)
Definition cancelAnimationFrame (id : nat) (w : World) : World :=
  on_browser (fun b =>
    set_frames (List.filter (fun j => negb (Nat.eqb j id)) (frameRequests b))
               (nextRequestId b) b) w.

(** [addEventListener] on [window] or [document]. *)
Definition addEventListener (s : signal) (w : World) : World :=
  on_browser (fun b => set_listeners (listeners b ++ [s]) b) w.

(** [(document.getElementById('three-container') || document.body)
     .appendChild(n)] *)
Definition appendToMount (n : node) (w : World) : World :=
  on_browser (fun b =>
    if hasContainer b
    then set_children (containerChildren b ++ [n]) (bodyChildren b) b
    else set_children (containerChildren b) (bodyChildren b ++ [n]) b) w.

Definition node_eqb (a b : node) : bool :=
  match a, b with
  | CanvasNode, CanvasNode | FallbackPanel, FallbackPanel => true
  | _, _ => false
  end.

(** [canvas.remove()] *)
Definition removeCanvas (w : World) : World :=
  on_browser (fun b =>
    set_children (List.filter (fun n => negb (node_eqb n CanvasNode)) (containerChildren b))
                 (List.filter (fun n => negb (node_eqb n CanvasNode)) (bodyChildren b)) b) w.

(** *** The methods of [FarmbridgeVisualization] *)

Definition zero3 : Vector3 := vec3 0 0 0.

(** [setupScene] *)
Definition setupScene (w : World) : World :=
  let w := enter m_setupScene w in
  on_viz (set_scene true) w.

(** [setupCamera]: a fresh camera at the origin, moved back to
    [config.cameraDistance]. *)
Definition setupCamera (w : World) : World :=
  let w := enter m_setupCamera w in
  let width := innerWidth (browser w) in
  let height := innerHeight (browser w) in
  let aspect := width / height in
  on_viz (set_camera (Some (mkCamera (vec3 0 0 cameraDistance) zero3 aspect))) w.

(** [setupRenderer]: the canvas goes into the mount point. *)
Definition setupRenderer (w : World) : World :=
  let w := enter m_setupRenderer w in
  let width := innerWidth (browser w) in
  let height := innerHeight (browser w) in
  let w := on_viz (set_renderer (Some (mkRenderer (width, height) 0 false))) w in
  appendToMount CanvasNode w.

(** [setupLighting]: three lights join the scene; they have no state the
    animation reads. *)
Definition setupLighting (w : World) : World := enter m_setupLighting w.

(** The draws of [createParticles]: five per particle in the first loop
    (three coordinates, the hue, the size), then one per velocity
    component. *)
Definition randomPositions (rnd : nat -> R) (n : nat) : list R :=
  flat_map (fun i => [ (rnd (5 * i)%nat - 0.5) * 200;
                       (rnd (5 * i + 1)%nat - 0.5) * 200;
                       (rnd (5 * i + 2)%nat - 0.5) * 200 ]) (seq 0 n).

Definition randomVelocities (rnd : nat -> R) (n : nat) : list R :=
  map (fun j => (rnd (5 * n + j)%nat - 0.5) * 0.05) (seq 0 (3 * n)).

(** [createParticles] *)
Definition createParticles (env : Env) (w : World) : World :=
  let w := enter m_createParticles w in
  let n := particleCount (viz w) in
  let positions := randomPositions (random env) n in
  on_viz (set_particles (Some (mkPoints zero3 positions false false))
                        (randomVelocities (random env) n)) w.

(** [createGeometries] *)
Definition createGeometries (w : World) : World :=
  let w := enter m_createGeometries w in
  let torus := mkMesh (vec3 0 0 (-50)) zero3 false in
  let octahedron := mkMesh (vec3 (-60) 40 (-100)) zero3 false in
  let cube := mkMesh (vec3 60 (-20) (-80)) zero3 false in
  on_viz (fun v => set_cube (Some cube)
                     (set_octahedron (Some octahedron)
                        (set_torus (Some torus) v))) w.

(** [setupEventListeners] *)
Definition setupEventListeners (w : World) : World :=
  let w := enter m_setupEventListeners w in
  let w := addEventListener Resize w in
  addEventListener VisibilityChange w.

(** [setupScrollListener]: the subscription; its callback is
    [onScroll] below. *)
Definition setupScrollListener (w : World) : World :=
  let w := enter m_setupScrollListener w in
  addEventListener Scroll w.

(** The camera as [updateCameraOnScroll] leaves it for a given progress. *)
Definition cameraOnScroll (progress : R) (c : Camera) : Camera :=
  let maxRotation := PI * 2 in
  let maxZoom := 150 in
  let minZoom := 50 in
  mkCamera
    (vec3 (sin (progress * PI * 2) * 20)
          (cos (progress * PI * 2) * 20)
          (minZoom + (maxZoom - minZoom) * (1 - progress)))
    (vec3 (progress * maxRotation * 0.3)
          (progress * maxRotation * 0.5)
          (z_ (camRotation c)))
    (aspect c).

(** [updateCameraOnScroll].  The method is only reached through the scroll
    subscription, which [init] creates after [setupCamera]; without a
    camera the model leaves the state alone. *)
Definition updateCameraOnScroll (w : World) : World :=
  let w := enter m_updateCameraOnScroll w in
  on_viz (fun v =>
    match camera v with
    | Some c => set_camera (Some (cameraOnScroll (scrollProgress v) c)) v
    | None => v
    end) w.

(** [updateParallax] *)
Definition parallaxTorus (progress : R) (m : Mesh) : Mesh :=
  mkMesh (vec3 (cos (progress * PI * 3) * 20 * parallaxIntensity)
               (sin (progress * PI * 4) * 30 * parallaxIntensity)
               (z_ (position m)))
         (rotation m) (meshDisposed m).

Definition parallaxOctahedron (progress : R) (m : Mesh) : Mesh :=
  let p := position m in
  let r := rotation m in
  mkMesh (vec3 (x_ p) (y_ p + (progress * 100 - y_ p) * 0.1) (z_ p))
         (vec3 (x_ r + 0.003) (y_ r + 0.005) (z_ r))
         (meshDisposed m).

Definition parallaxCube (progress : R) (m : Mesh) : Mesh :=
  let p := position m in
  let r := rotation m in
  mkMesh (vec3 (x_ p) (-50 + progress * 100) (z_ p))
         (vec3 (x_ r + 0.002) (y_ r) (z_ r + 0.004))
         (meshDisposed m).

Definition updateParallax (w : World) : World :=
  let w := enter m_updateParallax w in
  on_viz (fun v =>
    let p := scrollProgress v in
    let v := set_torus (option_map (parallaxTorus p) (torus v)) v in
    let v := set_octahedron (option_map (parallaxOctahedron p) (octahedron v)) v in
    set_cube (option_map (parallaxCube p) (cube v)) v) w.

(** [onWindowResize] *)
Definition onWindowResize (w : World) : World :=
  let w := enter m_onWindowResize w in
  let width := innerWidth (browser w) in
  let height := innerHeight (browser w) in
  on_viz (fun v =>
    let v := set_camera
               (option_map (fun c => mkCamera (camPosition c) (camRotation c)
                                              (width / height)) (camera v)) v in
    set_renderer
      (option_map (fun r => mkRenderer (width, height) (rendered r) (disposed r))
                  (renderer v)) v) w.

(** [updateParticles] *)
Definition updateParticles (w : World) : World :=
  let w := enter m_updateParticles w in
  on_viz (fun v =>
    match particleSystem v with
    | None => v
    | Some ps =>
        let (positions, velocity) :=
          updateParticlesLoop (positionArray ps) (particleVelocities v) in
        set_particles (Some (mkPoints (ptsRotation ps) positions true (ptsDisposed ps)))
                      velocity v
    end) w.

(** The idle rotation of [animate]. *)
Definition spinTorus (m : Mesh) : Mesh :=
  let r := rotation m in
  mkMesh (position m) (vec3 (x_ r + 0.001) (y_ r + 0.002) (z_ r)) (meshDisposed m).

Definition spinPoints (ps : Points) : Points :=
  let r := ptsRotation ps in
  mkPoints (vec3 (x_ r + 0.0001) (y_ r + 0.0002) (z_ r))
           (positionArray ps) (needsUpdate ps) (ptsDisposed ps).

(** [this.renderer.render(this.scene, this.camera)] *)
Definition render (w : World) : World :=
  on_viz (fun v =>
    set_renderer
      (option_map (fun r => mkRenderer (size r) (S (rendered r)) (disposed r))
                  (renderer v)) v) w.

(** [animate]: one tick of the loop.  The next frame is requested first,
    then the tick does its updates and draws. *)
Definition animate (w : World) : World :=
  let w := enter m_animate w in
  let (id, w) := requestAnimationFrame w in
  let w := on_viz (set_animationId (Some id)) w in
  (* Update particles *)
  let w := updateParticles w in
  (* Rotate geometries *)
  let w := on_viz (fun v => set_torus (option_map spinTorus (torus v)) v) w in
  let w := on_viz (fun v =>
             set_particles (option_map spinPoints (particleSystem v))
                           (particleVelocities v) v) w in
  (* Render scene *)
  render w.

(** [handleWebGLFallback] *)
Definition handleWebGLFallback (w : World) : World :=
  let w := enter m_handleWebGLFallback w in
  appendToMount FallbackPanel w.

(** [pause]: [if (this.animationId)] is false for [null] and for [0]. *)
Definition pause (w : World) : World :=
  let w := enter m_pause w in
  match animationId (viz w) with
  | Some (S id) => cancelAnimationFrame (S id) w
  | _ => w
  end.

(** [resume] *)
Definition resume (w : World) : World :=
  let w := enter m_resume w in
  if initialized (viz w) then animate w else w.

(** [onVisibilityChange] *)
Definition onVisibilityChange (w : World) : World :=
  let w := enter m_onVisibilityChange w in
  if hidden (browser w) then pause w else resume w.

Definition disposeMesh (m : Mesh) : Mesh := mkMesh (position m) (rotation m) true.
Definition disposePoints (ps : Points) : Points :=
  mkPoints (ptsRotation ps) (positionArray ps) (needsUpdate ps) true.

(** [destroy] *)
Definition destroy (w : World) : World :=
  let w := enter m_destroy w in
  let w := pause w in
  let w :=
    match renderer (viz w) with
    | Some r =>
        let w := on_viz (set_renderer (Some (mkRenderer (size r) (rendered r) true))) w in
        removeCanvas w
    | None => w
    end in
  if scene (viz w)
  then on_viz (fun v =>
         let v := set_particles (option_map disposePoints (particleSystem v))
                                (particleVelocities v) v in
         let v := set_torus (option_map disposeMesh (torus v)) v in
         let v := set_octahedron (option_map disposeMesh (octahedron v)) v in
         set_cube (option_map disposeMesh (cube v)) v) w
  else w.

(** [isWebGLSupported] *)
Definition isWebGLSupported (env : Env) (w : World) : bool * World :=
  (envWebGL env, enter m_isWebGLSupported w).

(** [init].  When the THREE library cannot be used, the first call into
    it, in [setupScene], throws and the [catch] block takes over. *)
Definition init (env : Env) (w : World) : World :=
  let w := enter m_init w in
  let (supported, w) := isWebGLSupported env w in
  if negb supported then handleWebGLFallback w
  else if negb (envThree env) then
    let w := enter m_setupScene w in
    handleWebGLFallback w
  else
    let w := setupScene w in
    let w := setupCamera w in
    let w := setupRenderer w in
    let w := setupLighting w in
    let w := createParticles env w in
    let w := createGeometries w in
    let w := setupEventListeners w in
    let w := setupScrollListener w in
    let w := on_viz (set_initialized true) w in
    animate w.

(** [new FarmbridgeVisualization()] *)
Definition construct (env : Env) (b : Browser) : World :=
  let b := set_calls (m_detectMobile :: calls b) b in
  init env (mkWorld (mkViz false None None None [] None None None
                           (envMobile env) 0 false None) b).

(** *** Signals *)

(** The scroll callback computes
    [scrollHeight > 0 ? window.scrollY / scrollHeight : 0]. *)
Definition scrollProgressOf (scrollY scrollHeight : R) : R :=
  if Rlt_dec 0 scrollHeight then scrollY / scrollHeight else 0.



(** The callback registered by [setupScrollListener]. *)
Definition onScroll (w : World) : World :=
  let scrollHeight := docScrollHeight (browser w) - innerHeight (browser w) in
  let w := on_viz (set_scrollProgress
                     (scrollProgressOf (scrollY (browser w)) scrollHeight)) w in
  let w := updateCameraOnScroll w in
  updateParallax w.

(** The callbacks behind each subscription; the [beforeunload] one is
    registered by the script itself and calls [destroy]. *)
Definition callback (s : signal) : World -> World :=
  match s with
  | Resize => onWindowResize
  | VisibilityChange => onVisibilityChange
  | Scroll => onScroll
  | BeforeUnload => destroy
  end.

(** Every subscription to [s] has its callback run, in registration
    order. *)
Definition dispatch (s : signal) (w : World) : World :=
  fold_left (fun w l => if signal_eqb l s then callback s w else w)
            (listeners (browser w)) w.

(** What the page can make happen. *)
Inductive event :=
| EvScroll (scrollY docScrollHeight : R)
| EvResize (width height : R)
| EvVisibility (hidden : bool)
| EvBeforeUnload
| EvFrame (id : nat).

Definition deliver (e : event) (w : World) : World :=
  match e with
  | EvScroll sy sh => dispatch Scroll (on_browser (set_scroll sy sh) w)
  | EvResize wd ht => dispatch Resize (on_browser (set_window wd ht) w)
  | EvVisibility h => dispatch VisibilityChange (on_browser (set_hidden h) w)
  | EvBeforeUnload => dispatch BeforeUnload w
  | EvFrame id =>
      if existsb (Nat.eqb id) (frameRequests (browser w))
      then animate (cancelAnimationFrame id w)
      else w
  end.

Definition run (es : list event) (w : World) : World :=
  fold_left (fun w e => deliver e w) es w.

(** The page when the script has loaded: its [beforeunload] subscription is
    in place, frame request ids start at 1. *)
Definition pageLoad (container : bool) (width height docHeight : R) : Browser :=
  mkBrowser [BeforeUnload] [] 1 container [] [] width height 0 docHeight false [].

(** What the animation shows: the particle buffers, the three decorative
    objects, the camera. *)
Definition particlesOf (w : World) : option (list R) * list R :=
  (option_map positionArray (particleSystem (viz w)), particleVelocities (viz w)).

Definition objectsOf (w : World) : option Mesh * option Mesh * option Mesh :=
  (torus (viz w), octahedron (viz w), cube (viz w)).

Definition cameraOf (w : World) : option Camera := camera (viz w).

(** Component [k] (0, 1, 2 for x, y, z) of particle [i] in a flat
    buffer. *)
Definition component (buffer : list R) (i k : nat) : R :=
  nth (3 * i + k) buffer 0.

(** The buffers after one pass of the loop. *)
Definition tick (w : World) : option (list R) * list R :=
  match particleSystem (viz w) with
  | Some ps =>
      let r := updateParticlesLoop (positionArray ps) (particleVelocities (viz w)) in
      (Some (fst r), snd r)
  | None => (None, particleVelocities (viz w))
  end.


(** Page geometry. *)
Definition geometry (w : World) : R * R * R * R * bool :=
  (innerWidth (browser w), innerHeight (browser w), scrollY (browser w),
   docScrollHeight (browser w), hidden (browser w)).

(** The meshes [createGeometries] builds. *)
Definition torus0 : Mesh := mkMesh (vec3 0 0 (-50)) zero3 false.
Definition octahedron0 : Mesh := mkMesh (vec3 (-60) 40 (-100)) zero3 false.
Definition cube0 : Mesh := mkMesh (vec3 60 (-20) (-80)) zero3 false.

(** The buffers after the first tick, which [init] runs itself. *)
Definition firstTick (env : Env) : list R * list R :=
  updateParticlesLoop
    (randomPositions (random env) (if envMobile env then 500 else 1000))
    (randomVelocities (random env) (if envMobile env then 500 else 1000)).


(** Position and velocity of particle [i] on axis [k], as the scene holds
    them. *)
Definition positionAt (w : World) (i k : nat) : R :=
  component (match fst (particlesOf w) with Some ps => ps | None => [] end) i k.

Definition velocityAt (w : World) (i k : nat) : R :=
  component (snd (particlesOf w)) i k.

(** What gravity takes from the velocity on axis [k] in one frame. *)
Definition gravityOn (k : nat) : R := if Nat.eqb k 1 then GRAVITY else 0.

(** The rotations of the three decorative objects. *)
Definition rotationsOf (w : World) : option Vector3 * option Vector3 * option Vector3 :=
  (option_map rotation (torus (viz w)),
   option_map rotation (octahedron (viz w)),
   option_map rotation (cube (viz w))).

(** The next pending frame fires; [frames n] lets that happen [n] times. *)
Definition nextFrame (w : World) : World :=
  match frameRequests (browser w) with
  | id :: _ => deliver (EvFrame id) w
  | [] => w
  end.

Fixpoint frames (n : nat) (w : World) : World :=
  match n with
  | O => w
  | S n => nextFrame (frames n w)
  end.


(** "Pause then resume changes nothing": positions and rotations are what
    they were. *)
Definition pause_resume_idle (w : World) : Prop :=
  fst (particlesOf (resume (pause w))) = fst (particlesOf w)
  /\ rotationsOf (resume (pause w)) = rotationsOf w.



(** The calls that build the camera rig, the particle field and the
    decorative objects. *)
Definition constructs (m : method) : bool :=
  match m with
  | m_setupCamera | m_createParticles | m_createGeometries => true
  | _ => false
  end.

(** A page on which the scene was never built: the fallback panel is the
    only thing mounted, in the container when there is one, and the script's
    own [beforeunload] subscription is the only one. *)
Definition inert (container : bool) (w : World) : Prop :=
  viz w = mkViz false None None None [] None None None (isMobile (viz w)) 0 false None
  /\ listeners (browser w) = [BeforeUnload]
  /\ frameRequests (browser w) = []
  /\ hasContainer (browser w) = container
  /\ (containerChildren (browser w), bodyChildren (browser w))
     = (if container then ([FallbackPanel], []) else ([], [FallbackPanel]))
  /\ Forall (fun m => constructs m = false) (calls (browser w)).

End Viz.

(** ** JSON values *)

(** The values [JSON.parse] produces and [JSON.stringify] accepts.
    Numbers are restricted to integers (counters and millisecond
    timestamps); an object keeps its members in insertion order, with
    distinct keys. *)
#[warnings="-register-all"] Inductive json :=
| JNull
| JBool (b : bool)
| JNum (n : Z)
| JStr (s : string)
| JArr (items : list json)
| JObj (members : list (string * json)).

(** A JavaScript value as far as the helpers see one: [undefined] or a
    JSON value. *)
Inductive value :=
| Undefined
| Val (j : json).

Definition null : value := Val JNull.

(** Truthiness: [undefined], [null], [false], [0] and the empty string are
    falsy, every array and object is truthy. *)
Definition truthy (v : value) : bool :=
  match v with
  | Undefined => false
  | Val JNull => false
  | Val (JBool b) => b
  | Val (JNum n) => negb (Z.eqb n 0)
  | Val (JStr s) => negb (String.eqb s EmptyString)
  | Val (JArr _) => true
  | Val (JObj _) => true
  end.

(** Own property of an object literal. *)
Fixpoint assoc (k : string) (members : list (string * json)) : option json :=
  match members with
  | [] => None
  | (k', v) :: rest => if String.eqb k k' then Some v else assoc k rest
  end.

(** ** [API.request] *)

Module Api.

Local Open Scope Z_scope.

(** [CONFIG.maxRetries], [CONFIG.retryDelay] *)
Definition maxRetries : Z := 3.
Definition retryDelay : Z := 1000.

(** What can be thrown inside the [try] block: the rejection of [fetch],
    the [Error] built for a response that is not [ok], the rejection of
    [response.json()]. *)
Inductive error :=
| NetworkError (message : string)
| HttpError (status : Z) (statusText : string)
| BodyError.

(** What the network does with one [fetch] call: the promise rejects, or a
    response arrives whose body may or may not be JSON. *)
Inductive response :=
| Rejected (message : string)
| Responded (ok : bool) (status : Z) (statusText : string) (body : option json).

(** The platform: the configured endpoint, [JSON.stringify], and the answer
    of the network to the k-th [fetch] call. *)
Record Platform := mkPlatform {
  apiEndpoint : string;
  stringify : json -> string;
  network : nat -> response
}.

(** What a call does that can be seen from outside, in order. *)
Inductive io :=
| Fetch (url method : string) (body : option string)
| Warn (attempt : Z) (e : error)      (* [Logger.warn] *)
| Sleep (ms : Z)                      (* the awaited [setTimeout] *)
| LogError (e : error).               (* [Logger.error] *)

Definition isFetch (e : io) : bool :=
  match e with Fetch _ _ _ => true | _ => false end.

Definition fetchCount (t : list io) : nat := List.length (List.filter isFetch t).

(** The [try] block after [fetch] has answered: [inl] is a throw. *)
Definition settle (r : response) : error + json :=
  match r with
  | Rejected m => inl (NetworkError m)
  | Responded false status text _ => inl (HttpError status text)
  | Responded true _ _ None => inl BodyError
  | Responded true _ _ (Some j) => inr j
  end.

(** [API.request(method, endpoint, data, retries)], threading the trace of
    what has happened so far.  The result is the value the promise
    resolves to, or the error it rejects with. *)
Equations? request (P : Platform) (method endpoint : string) (data : json)
    (retries : Z) (t : list io) : (error + json) * list io
    by wf (Z.to_nat (maxRetries - retries)) lt :=
  request P method endpoint data retries t
    with settle (network P (fetchCount t)) => {
    | inr j =>
        (inr j, t ++ [Fetch (apiEndpoint P ++ endpoint) method
                        (if truthy (Val data) then Some (stringify P data) else None)])
    | inl e with Z_lt_dec retries maxRetries => {
      | left _ =>
          request P method endpoint data (retries + 1)
            (t ++ [Fetch (apiEndpoint P ++ endpoint) method
                     (if truthy (Val data) then Some (stringify P data) else None);
                   Warn (retries + 1) e;
                   Sleep retryDelay])
      | right _ =>
          (inl e, t ++ [Fetch (apiEndpoint P ++ endpoint) method
                          (if truthy (Val data) then Some (stringify P data) else None);
                        LogError e]) } }.
Proof. lia. Qed.

(** [API.get], [API.post], [API.put], [API.delete]: [retries] takes its
    default, 0, and [data] its default, [null]. *)
Definition get (P : Platform) (endpoint : string) :=
  request P "GET" endpoint JNull 0.
Definition post (P : Platform) (endpoint : string) (data : json) :=
  request P "POST" endpoint data 0.
Definition put (P : Platform) (endpoint : string) (data : json) :=
  request P "PUT" endpoint data 0.
Definition delete (P : Platform) (endpoint : string) :=
  request P "DELETE" endpoint JNull 0.

End Api.

(** ** [Storage] *)

Module Store.

Local Open Scope Z_scope.

(** What the [try] block of [Storage.get] can catch: the [SyntaxError] of
    [JSON.parse], the [TypeError] of a property read on [null]. *)
Inductive exn := SyntaxError | TypeError.

(** The platform: [JSON.parse] ([None] when it throws), [JSON.stringify],
    and the number a truthy value that is not a number is compared as
    ([None] for [NaN]). *)
Record Platform := mkPlatform {
  parse : string -> option json;
  stringify : json -> string;
  toNumber : json -> option Z
}.

(** [localStorage] and the lines [Logger.error] has written.  What
    [Logger.log] prints when [CONFIG.debugMode] is on is not recorded. *)
Record State := mkState {
  localStorage : gmap string string;
  console : list exn
}.

(** Computations over the state that return or throw. *)
Definition M (A : Type) : Type := State -> (exn + A) * State.

Definition ret {A} (a : A) : M A := fun st => (inr a, st).
Definition throw {A} (e : exn) : M A := fun st => (inl e, st).
Definition bind {A B} (m : M A) (k : A -> M B) : M B :=
  fun st => match m st with
            | (inr a, st') => k a st'
            | (inl e, st') => (inl e, st')
            end.
Definition tryCatch {A} (body : M A) (handler : exn -> M A) : M A :=
  fun st => match body st with
            | (inr a, st') => (inr a, st')
            | (inl e, st') => handler e st'
            end.

Notation "'let*' x := m 'in' k" := (bind m (fun x => k))
  (at level 10, x name, m at level 100, k at level 200).

(** [localStorage.getItem], [setItem], [removeItem], on a storage the
    page can reach: none of them throws here. *)
Definition getItem (key : string) : M (option string) :=
  fun st => (inr (localStorage st !! key), st).
Definition setItem (key item : string) : M unit :=
  fun st => (inr tt, mkState (<[key := item]> (localStorage st)) (console st)).
Definition removeItem (key : string) : M unit :=
  fun st => (inr tt, mkState (base.delete key (localStorage st)) (console st)).

(** [Logger.error] *)
Definition logError (e : exn) : M unit :=
  fun st => (inr tt, mkState (localStorage st) (console st ++ [e])).

(** [JSON.parse(item)] *)
Definition JSON_parse (P : Platform) (item : string) : M json :=
  match parse P item with
  | Some data => ret data
  | None => throw SyntaxError
  end.

(** [data.expiry], [data.value]: reading a property of [null] throws, an
    object gives its member or [undefined], any other parsed value has
    neither property. *)
Definition member (data : json) (k : string) : M value :=
  match data with
  | JNull => throw TypeError
  | JObj members =>
      ret (match assoc k members with Some v => Val v | None => Undefined end)
  | _ => ret Undefined
  end.

(** [Date.now() > expiry] for a truthy [expiry]. *)
Definition laterThan (P : Platform) (now : Z) (expiry : value) : bool :=
  match expiry with
  | Val (JNum e) => Z.gtb now e
  | Val (JBool true) => Z.gtb now 1
  | Val j => match toNumber P j with Some e => Z.gtb now e | None => false end
  | Undefined => false
  end.

(** [Storage.remove] *)
Definition remove (key : string) : M unit := removeItem key.

(** [Storage.set(key, value, expiryMinutes)] at time [now];
    [expiryMinutes] is [None] when left out or [null]. *)
Definition set (P : Platform) (now : Z) (key : string) (value : json)
    (expiryMinutes : option Z) : M unit :=
  let data := [("value"%string, value)] in
  let data :=
    match expiryMinutes with
    | Some m =>
        if truthy (Val (JNum m))
        then data ++ [("expiry"%string, JNum (now + m * 60 * 1000))]
        else data
    | None => data
    end in
  setItem key (stringify P (JObj data)).

(** The object [Storage.set] serialises. *)
Definition entry (now : Z) (value : json) (expiryMinutes : option Z) : json :=
  JObj (match expiryMinutes with
        | Some m =>
            if truthy (Val (JNum m))
            then [("value"%string, value); ("expiry"%string, JNum (now + m * 60 * 1000))]
            else [("value"%string, value)]
        | None => [("value"%string, value)]
        end).

(** [Storage.get(key)] at time [now]. *)
Definition get (P : Platform) (now : Z) (key : string) : M value :=
  let* item := getItem key in
  match item with
  | None => ret null
  | Some EmptyString => ret null
  | Some item =>
      tryCatch
        (let* data := JSON_parse P item in
         let* expiry := member data "expiry" in
         if truthy expiry && laterThan P now expiry
         then let* _ := remove key in ret null
         else member data "value")
        (fun error => let* _ := logError error in ret null)
  end.

End Store.

(** ** A reference JSON codec

    A printer and a parser for compact JSON (no white space, strings
    without escapes, integers only), to run the helpers above on a concrete
    platform.  It is a sample platform and not [JSON.parse]: it takes a
    number written with leading zeros, and prints a string as it is between
    quotes. *)

Module RefJson.

Local Open Scope string_scope.

Definition dquote : ascii := ascii_of_nat 34.
Definition quoted (s : string) : string :=
  String dquote (s ++ String dquote EmptyString).

Definition concatWith (sep : string) (l : list string) : string :=
  match l with
  | [] => ""
  | x :: rest => fold_left (fun acc y => acc ++ sep ++ y) rest x
  end.

Fixpoint print (j : json) : string :=
  match j with
  | JNull => "null"
  | JBool true => "true"
  | JBool false => "false"
  | JNum n => NilZero.string_of_int (Z.to_int n)
  | JStr s => quoted s
  | JArr items => "[" ++ concatWith "," (map print items) ++ "]"
  | JObj members =>
      "{" ++ concatWith ","
               (map (fun kv => quoted (fst kv) ++ ":" ++ print (snd kv)) members)
          ++ "}"
  end.

Definition digit (c : ascii) : option Z :=
  let n := nat_of_ascii c in
  if (48 <=? n)%nat && (n <=? 57)%nat then Some (Z.of_nat (n - 48)) else None.

Fixpoint readDigits (acc : Z) (s : string) : Z * string :=
  match s with
  | String c rest =>
      match digit c with
      | Some d => readDigits (acc * 10 + d)%Z rest
      | None => (acc, s)
      end
  | EmptyString => (acc, s)
  end.

Fixpoint readString (s : string) : option (string * string) :=
  match s with
  | EmptyString => None
  | String c rest =>
      if Ascii.eqb c dquote then Some (EmptyString, rest)
      else match readString rest with
           | Some (body, r) => Some (String c body, r)
           | None => None
           end
  end.

Definition expect (word : string) (s : string) : option string :=
  if String.prefix word s
  then Some (substring (String.length word) (String.length s - String.length word) s)
  else None.

Section Sequences.
Variable parseValue : string -> option (json * string).

(** Items of an array, after the opening bracket of a non-empty one. *)
Fixpoint parseItems (fuel : nat) (s : string) : option (list json * string) :=
  match fuel with
  | O => None
  | S fuel =>
      match parseValue s with
      | Some (j, String "," r) =>
          match parseItems fuel r with
          | Some (js, r') => Some (j :: js, r')
          | None => None
          end
      | Some (j, String "]" r) => Some ([j], r)
      | _ => None
      end
  end.

(** Members of an object, after the opening brace of a non-empty one. *)
Fixpoint parseMembers (fuel : nat) (s : string)
  : option (list (string * json) * string) :=
  match fuel with
  | O => None
  | S fuel =>
      match s with
      | String c r =>
          if Ascii.eqb c dquote then
            match readString r with
            | Some (k, String ":" r) =>
                match parseValue r with
                | Some (j, String "," r) =>
                    match parseMembers fuel r with
                    | Some (ms, r') => Some ((k, j) :: ms, r')
                    | None => None
                    end
                | Some (j, String "}" r) => Some ([(k, j)], r)
                | _ => None
                end
            | _ => None
            end
          else None
      | EmptyString => None
      end
  end.
End Sequences.

Fixpoint parseValue (fuel : nat) (s : string) : option (json * string) :=
  match fuel with
  | O => None
  | S fuel =>
      match s with
      | EmptyString => None
      | String c rest =>
          if Ascii.eqb c "n" then option_map (pair JNull) (expect "ull" rest)
          else if Ascii.eqb c "t" then option_map (pair (JBool true)) (expect "rue" rest)
          else if Ascii.eqb c "f" then option_map (pair (JBool false)) (expect "alse" rest)
          else if Ascii.eqb c dquote then
            match readString rest with
            | Some (body, r) => Some (JStr body, r)
            | None => None
            end
          else if Ascii.eqb c "[" then
            match rest with
            | String "]" r => Some (JArr [], r)
            | _ => match parseItems (parseValue fuel) fuel rest with
                   | Some (js, r) => Some (JArr js, r)
                   | None => None
                   end
            end
          else if Ascii.eqb c "{" then
            match rest with
            | String "}" r => Some (JObj [], r)
            | _ => match parseMembers (parseValue fuel) fuel rest with
                   | Some (ms, r) => Some (JObj ms, r)
                   | None => None
                   end
            end
          else if Ascii.eqb c "-" then
            match rest with
            | String d _ =>
                match digit d with
                | Some _ => let (n, r) := readDigits 0 rest in Some (JNum (- n), r)
                | None => None
                end
            | EmptyString => None
            end
          else
            match digit c with
            | Some _ => let (n, r) := readDigits 0 s in Some (JNum n, r)
            | None => None
            end
      end
  end.

Definition parse (s : string) : option json :=
  match parseValue (S (String.length s)) s with
  | Some (j, EmptyString) => Some j
  | _ => None
  end.

(** The number a string is compared as, when it is a decimal integer. *)
Definition numberOf (j : json) : option Z :=
  match j with
  | JStr s =>
      match parse s with
      | Some (JNum n) => Some n
      | _ => None
      end
  | _ => None
  end.

Definition storePlatform : Store.Platform := Store.mkPlatform parse print numberOf.

End RefJson.

(** ** A sample page

    A concrete platform and page, and the scene a successful [init] builds
    on them. *)

Module Sample.
Import Viz.
Local Open Scope R_scope.

(** A page and a platform to run the scene on: a phone, WebGL and the
    library available.  Every draw of [Math.random()] is 0.5, but those for
    the first particle: it starts near the right face of the box, moving
    right, and just above the floor, moving down. *)
Definition rnd0 (k : nat) : R :=
  if Nat.eqb k 0 then 0.99985
  else if Nat.eqb k 1 then 0.00000005
  else if Nat.eqb k 2500 then 0.9
  else if Nat.eqb k 2501 then 0.1
  else 0.5.

Definition env0 : Env := mkEnv true true true rnd0.
Definition page0 : Browser := pageLoad true 390 844 3000.
Definition world0 : World := construct env0 page0.

(** The scene of [world0] after the page has been scrolled by 1000 of its
    3000 - 844 scrollable pixels. *)
Definition scrolled : World := mkWorld (viz world0) (set_scroll 1000 3000 page0).

End Sample.

(** Two networks for [API.request]: one that drops the first call, answers
    503 to the second and 200 with a JSON body to the third; one that
    answers 500 to every call. *)
Module SampleNet.
Local Open Scope string_scope.
Local Open Scope Z_scope.

Definition flaky : Api.Platform :=
  Api.mkPlatform "https://api.farmbridgetechnologies.com/v1" RefJson.print
    (fun k => match k with
              | O => Api.Rejected "Failed to fetch"
              | S O => Api.Responded false 503 "Service Unavailable" None
              | _ => Api.Responded true 200 "OK" (Some (JObj [("id", JNum 7)]))
              end).

Definition down : Api.Platform :=
  Api.mkPlatform "https://api.farmbridgetechnologies.com/v1" RefJson.print
    (fun _ => Api.Responded false 500 "Internal Server Error" None).

Definition flakyErrors (k : nat) : Api.error :=
  match k with
  | O => Api.NetworkError "Failed to fetch"
  | _ => Api.HttpError 503 "Service Unavailable"
  end.

Definition downErrors (k : nat) : Api.error :=
  Api.HttpError 500 "Internal Server Error".

End SampleNet.

(** A stored analytics event, for [Storage]. *)
Module SampleStore.
Local Open Scope string_scope.
Local Open Scope Z_scope.

Definition event : json := JObj [("name", JStr "page_view"); ("count", JNum 3)].

Definition empty : Store.State := Store.mkState ∅ [].

(** [Storage.set("analytics_1", event, 1440)] at time 1767000000000. *)
Definition stored : Store.State :=
  snd (Store.set RefJson.storePlatform 1767000000000 "analytics_1" event (Some 1440) empty).

(** The storage after someone else has written text that is not JSON. *)
Definition garbled : Store.State :=
  Store.mkState (<["analytics_1" := "{not json"]> ∅) [].

End SampleStore.

(** ** The running loop *)

Module Loop.
Import Viz.
Local Open Scope R_scope.

(** The loop runs: exactly one frame is requested, it is the one the
    instance remembers, and it is the last id handed out. *)
Definition running (id : nat) (w : World) : Prop :=
  frameRequests (browser w) = [id]
  /\ animationId (viz w) = Some id
  /\ nextRequestId (browser w) = S id.

(** A particle on a horizontal axis moves at constant speed [V], inside
    the box or one step out of it and on its way back. *)
Definition bouncing (V p v : R) : Prop :=
  Rabs v = V
  /\ Rabs p <= 100 + V
  /\ (Rabs p <= 100 \/ Rabs (p + v) <= 100).

End Loop.

(** ** Repeated reads of the storage *)

Module Reads.
Import Store.

(** [n] calls of [Storage.get(key)] in a row, at time [now]; the state
    they leave. *)
Fixpoint gets (P : Platform) (now : Z) (key : string) (n : nat) (st : State) : State :=
  match n with
  | O => st
  | S n => snd (get P now key (gets P now key n st))
  end.
End Reads.

Module SampleForeign.
Local Open Scope string_scope.
(** Storages where someone else has written JSON that is no entry of
    [Storage.set]: the text [null], an array, an empty object. *)
Definition nullText : Store.State := Store.mkState (<["theme" := "null"]> ∅) [].
Definition arrayText : Store.State := Store.mkState (<["theme" := "[1,2]"]> ∅) [].
Definition emptyObject : Store.State := Store.mkState (<["theme" := "{}"]> ∅) [].
End SampleForeign.

(** ** [DOM] *)

(** Elements are references, standing here as numbers; the document is
    seen through the class lists of its elements.  An element that was
    looked up and not found is [None] ([null], or [undefined] for an index
    out of range). *)
Module DOM.

Definition classList (d : gmap nat (gset string)) (el : nat) : gset string := default ∅ (d !! el).

(** [DOM.addClass], [DOM.removeClass], [DOM.toggleClass], [DOM.hasClass];
    each does nothing on [null]. *)
Definition addClass (element : option nat) (className : string) (d : gmap nat (gset string)) : gmap nat (gset string) :=
  match element with
  | Some el => <[el := classList d el ∪ {[className]}]> d
  | None => d
  end.

Definition removeClass (element : option nat) (className : string) (d : gmap nat (gset string)) : gmap nat (gset string) :=
  match element with
  | Some el => <[el := classList d el ∖ {[className]}]> d
  | None => d
  end.

Definition hasClass (element : option nat) (className : string) (d : gmap nat (gset string)) : bool :=
  match element with
  | Some el => bool_decide (className ∈ classList d el)
  | None => false
  end.

Definition toggleClass (element : option nat) (className : string) (d : gmap nat (gset string)) : gmap nat (gset string) :=
  if hasClass element className d
  then removeClass element className d
  else addClass element className d.

End DOM.

(** ** [EventManager] *)

(** Event targets (elements, [document], [window]) are references, event
    handlers are function objects: both are compared by identity, and
    stand here as numbers. *)
Module EventManager.

Local Open Scope string_scope.

(** The [options] object given to [addEventListener]. *)
Record Options := mkOptions { capture : bool; once : bool; passive : bool }.

(** The default of [EventManager.on], the empty object. *)
Definition noOptions : Options := mkOptions false false false.

(** A listener in the list the platform keeps for a target. *)
Record Attached := mkAttached {
  type : string;
  callback : nat;
  attachedOptions : Options
}.

(** A value of the map [EventManager.listeners]. *)
Record Registration := mkRegistration {
  element : nat;
  event : string;
  handler : nat;
  options : Options
}.

(** The listener lists of the targets, and [EventManager.listeners]. *)
Record State := mkState {
  targets : gmap nat (list Attached);
  listeners : gmap string Registration
}.

Definition attachedTo (st : State) (el : nat) : list Attached :=
  default [] (targets st !! el).

(** Two listeners of one target are the same when type, callback and
    capture flag agree. *)
Definition same (a b : Attached) : bool :=
  String.eqb (type a) (type b)
  && Nat.eqb (callback a) (callback b)
  && Bool.eqb (capture (attachedOptions a)) (capture (attachedOptions b)).

(** [target.addEventListener]: nothing is added when the same listener is
    in the list. *)
Definition addEventListener (el : nat) (a : Attached)
    (d : gmap nat (list Attached)) : gmap nat (list Attached) :=
  let l := default [] (d !! el) in
  if existsb (same a) l then d else <[el := (l ++ [a])%list]> d.

Fixpoint removeFirst (a : Attached) (l : list Attached) : list Attached :=
  match l with
  | [] => []
  | b :: rest => if same a b then rest else b :: removeFirst a rest
  end.

(** [target.removeEventListener] *)
Definition removeEventListener (el : nat) (a : Attached)
    (d : gmap nat (list Attached)) : gmap nat (list Attached) :=
  match d !! el with
  | Some l => <[el := removeFirst a l]> d
  | None => d
  end.

Section Ids.
(** [element.id]: the empty string for an element without one;
    [document] and [window] have none ([undefined], which is falsy as
    well). *)
Variable idOf : nat -> string.

(** [`${element.id || 'unnamed'}-${event}`] *)
Definition key (el : nat) (event : string) : string :=
  (if String.eqb (idOf el) "" then "unnamed" else idOf el) ++ "-" ++ event.

(** [EventManager.on(element, event, handler, options)]; [element] is
    [None] for [null]. *)
Definition on (element : option nat) (event : string) (handler : nat)
    (options : Options) (st : State) : State :=
  match element with
  | None => st
  | Some el =>
      mkState (addEventListener el (mkAttached event handler options) (targets st))
              (<[key el event := mkRegistration el event handler options]> (listeners st))
  end.

(** [EventManager.off(element, event)] *)
Definition off (element : option nat) (event : string) (st : State) : State :=
  match element with
  | None => st
  | Some el =>
      match listeners st !! key el event with
      | Some listener =>
          mkState (removeEventListener (EventManager.element listener)
                     (mkAttached event (handler listener) (options listener))
                     (targets st))
                  (base.delete (key el event) (listeners st))
      | None => st
      end
  end.
End Ids.

End EventManager.

(** Two menu links without an [id], and a button with one. *)
Module SampleEvents.
Import EventManager.
Local Open Scope string_scope.

Definition idOf (el : nat) : string :=
  match el with
  | 3%nat => "send"
  | _ => ""
  end.

Definition empty : State := mkState ∅ ∅.

End SampleEvents.

(** ** [Navigation]: the scroll effect *)

Module Navigation.
Import DOM.
Local Open Scope R_scope.

(** [CONFIG.scrollThreshold] *)
Definition scrollThreshold : R := 100.

(** The navigation bar found by the constructor, [window.scrollY], the
    variable [ticking] of [setupScrollEffect], and the number of its
    callbacks that wait for the next frame. *)
Record State := mkState {
  document : gmap nat (gset string);
  navbar : option nat;
  scrollY : R;
  ticking : bool;
  frameRequests : nat
}.

(** [updateScrollState] *)
Definition updateScrollState (s : State) : State :=
  let scrolled := if Rgt_dec (scrollY s) scrollThreshold then true else false in
  if scrolled
  then mkState (addClass (navbar s) "navbar-scrolled" (document s))
               (navbar s) (scrollY s) (ticking s) (frameRequests s)
  else mkState (removeClass (navbar s) "navbar-scrolled" (document s))
               (navbar s) (scrollY s) (ticking s) (frameRequests s).

(** The callback given to [requestAnimationFrame]. *)
Definition frameCallback (s : State) : State :=
  let s := updateScrollState s in
  mkState (document s) (navbar s) (scrollY s) false (frameRequests s).

(** The scroll listener of [setupScrollEffect]. *)
Definition onScroll (s : State) : State :=
  if negb (ticking s)
  then mkState (document s) (navbar s) (scrollY s) true (S (frameRequests s))
  else s.

(** What happens to the page: it is scrolled to an offset, which fires the
    scroll listener; a frame is drawn, which runs the callbacks requested
    before it. *)
Inductive event :=
| Scroll (y : R)
| Frame.

Definition deliver (s : State) (e : event) : State :=
  match e with
  | Scroll y =>
      onScroll (mkState (document s) (navbar s) y (ticking s) (frameRequests s))
  | Frame =>
      Nat.iter (frameRequests s) frameCallback
        (mkState (document s) (navbar s) (scrollY s) (ticking s) 0)
  end.

Definition run (es : list event) (s : State) : State := fold_left deliver es s.

(** The state the constructor leaves: nothing requested yet. *)
Definition constructed (d : gmap nat (gset string)) (nav : option nat) (y : R) : State :=
  mkState d nav y false 0.

(** What [updateScrollState] establishes. *)
Definition settled (s : State) : Prop :=
  forall el, navbar s = Some el ->
    ("navbar-scrolled" ∈ classList (document s) el <-> scrollY s > scrollThreshold).

(** The invariant of the listener: a callback waits exactly while
    [ticking] is set, and once the page has been scrolled and nothing
    waits, the class is up to date. *)
Definition throttled (scrolled : Prop) (s : State) : Prop :=
  frameRequests s = (if ticking s then 1%nat else 0%nat)
  /\ (ticking s = false -> scrolled -> settled s).

End Navigation.

(** ** [Modal] *)

Module Modal.
Import DOM.
Local Open Scope string_scope.

(** An instance: the element found for its id, the two options, and
    [isOpen]. *)
Record Instance := mkInstance {
  element : option nat;
  closeOnEscape : bool;
  closeOnBackdrop : bool;
  isOpen : bool
}.

(** The page: class lists, [document.body.style.overflow], and the
    instances made so far, in the order they were made. *)
Record Page := mkPage {
  document : gmap nat (gset string);
  overflow : string;
  modals : list Instance
}.

Definition set_isOpen (b : bool) (m : Instance) : Instance :=
  mkInstance (element m) (closeOnEscape m) (closeOnBackdrop m) b.

(** [new Modal(id, options)], the element for [id] given; the listeners
    [init] registers are [onEscape] and [onClick] below. *)
Definition construct (el : option nat) (escape backdrop : bool) (p : Page) : Page :=
  mkPage (document p) (overflow p) (modals p ++ [mkInstance el escape backdrop false]).

(** [open()] of the [i]-th instance *)
Definition open (i : nat) (p : Page) : Page :=
  match modals p !! i with
  | Some m =>
      match element m with
      | None => p
      | Some el =>
          mkPage (addClass (Some el) "modal-open" (document p)) "hidden"
                 (<[i := set_isOpen true m]> (modals p))
      end
  | None => p
  end.

(** [close()] *)
Definition close (i : nat) (p : Page) : Page :=
  match modals p !! i with
  | Some m =>
      match element m with
      | None => p
      | Some el =>
          mkPage (removeClass (Some el) "modal-open" (document p)) ""
                 (<[i := set_isOpen false m]> (modals p))
      end
  | None => p
  end.

(** [toggle()] *)
Definition toggle (i : nat) (p : Page) : Page :=
  match modals p !! i with
  | Some m => if isOpen m then close i p else open i p
  | None => p
  end.

(** The [keydown] listener of the [i]-th instance, for the key Escape;
    [init] registers it when the element exists and [closeOnEscape] is
    set. *)
Definition onEscape (p : Page) (i : nat) : Page :=
  match modals p !! i with
  | Some m =>
      match element m with
      | Some _ => if closeOnEscape m && isOpen m then close i p else p
      | None => p
      end
  | None => p
  end.

(** Escape is pressed: the listeners run in the order they were
    registered. *)
Definition escape (p : Page) : Page :=
  fold_left onEscape (seq 0 (List.length (modals p))) p.

(** The [click] listener of the [i]-th instance on its element, for a
    click on the element [target]; [init] registers it when
    [closeOnBackdrop] is set. *)
Definition onClick (target : nat) (p : Page) (i : nat) : Page :=
  match modals p !! i with
  | Some m =>
      match element m with
      | Some el => if closeOnBackdrop m && Nat.eqb target el then close i p else p
      | None => p
      end
  | None => p
  end.

(** The backdrop of an element is clicked. *)
Definition backdropClick (target : nat) (p : Page) : Page :=
  fold_left (onClick target) (seq 0 (List.length (modals p))) p.

(** What is done to the page. *)
Inductive action :=
| Open (i : nat)
| Close (i : nat)
| Toggle (i : nat)
| Escape
| BackdropClick (target : nat).

Definition perform (p : Page) (a : action) : Page :=
  match a with
  | Open i => open i p
  | Close i => close i p
  | Toggle i => toggle i p
  | Escape => escape p
  | BackdropClick target => backdropClick target p
  end.

Definition run (l : list action) (p : Page) : Page := fold_left perform l p.

(** Every instance that has an element is open exactly when the element
    carries the class [modal-open]. *)
Definition mirrored (p : Page) : Prop :=
  forall i m el,
    modals p !! i = Some m ->
    element m = Some el ->
    (isOpen m = true <-> "modal-open" ∈ classList (document p) el).

(** No two instances share an element. *)
Definition distinct (p : Page) : Prop :=
  forall i j m m' el,
    modals p !! i = Some m ->
    modals p !! j = Some m' ->
    element m = Some el ->
    element m' = Some el ->
    i = j.

(** The invariant of the dialogs. *)
Definition kept (p : Page) : Prop := distinct p /\ mirrored p.

End Modal.

(** A page with two dialogs, both closed. *)
Module SampleModals.
Import Modal.
Local Open Scope string_scope.

Definition page : Page :=
  construct (Some 11%nat) true true (construct (Some 10%nat) true true (mkPage ∅ "" [])).

End SampleModals.

(** ** [Analytics] *)

Module Analytics.

Local Open Scope string_scope.
Local Open Scope Z_scope.

(** What one call of [trackEvent] reads from the platform: the clock, three
    times ([new Date().toISOString()], [Date.now()] for the key,
    [Date.now()] inside [Storage.set]), the address, the user agent, and
    whether [window.gtag] is there. *)
Record Env := mkEnv {
  isoTime : string;
  keyTime : Z;
  setTime : Z;
  href : string;
  userAgent : string;
  gtag : bool
}.

(** A call of [window.gtag('event', action, {...})]. *)
Record GtagCall := mkGtagCall {
  gtagAction : string;
  event_category : string;
  event_label : string;
  gtagValue : Z
}.

Record State := mkState {
  gtagCalls : list GtagCall;
  storage : Store.State
}.

(** A number in a template literal. *)
Definition decimal (n : Z) : string := NilZero.string_of_int (Z.to_int n).

(** The object [trackEvent] builds. *)
Definition eventOf (env : Env) (category action label : string) (value : Z) : json :=
  JObj [("timestamp", JStr (isoTime env));
        ("category", JStr category);
        ("action", JStr action);
        ("label", JStr label);
        ("value", JNum value);
        ("url", JStr (href env));
        ("userAgent", JStr (userAgent env))].

(** [`analytics_${Date.now()}`] *)
Definition keyOf (env : Env) : string := "analytics_" ++ decimal (keyTime env).

(** [Analytics.trackEvent(category, action, label, value)] *)
Definition trackEvent (P : Store.Platform) (env : Env) (category action label : string)
    (value : Z) (s : State) : State :=
  let event := eventOf env category action label value in
  let calls :=
    if gtag env
    then (gtagCalls s ++ [mkGtagCall action category label value])%list
    else gtagCalls s in
  mkState calls
          (snd (Store.set P (setTime env) (keyOf env) event (Some 1440) (storage s))).

(** [Analytics.trackFormInteraction(formName, action)]; [label] is the
    form name, [value] its default. *)
Definition trackFormInteraction (P : Store.Platform) (env : Env) (formName action : string)
    (s : State) : State :=
  trackEvent P env "form" action formName 0 s.

End Analytics.

(** ** [Tabs] *)

Module Tabs.
Import DOM.
Local Open Scope string_scope.

(** An instance: the elements found for [data-tab] and [data-tab-panel],
    in document order. *)
Record Instance := mkInstance {
  tabs : list nat;
  panels : list nat
}.

(** The page: class lists, the element that has the focus, and what
    [Analytics] has recorded. *)
Record Page := mkPage {
  document : gmap nat (gset string);
  focused : option nat;
  analytics : Analytics.State
}.

(** [activate(index)] *)
Definition activate (P : Store.Platform) (env : Analytics.Env) (t : Instance)
    (index : nat) (p : Page) : Page :=
  let d := fold_left (fun d tab => removeClass (Some tab) "tab-active" d)
                     (tabs t) (document p) in
  let d := fold_left (fun d panel => removeClass (Some panel) "tab-panel-active" d)
                     (panels t) d in
  let d := addClass (tabs t !! index) "tab-active" d in
  let d := addClass (panels t !! index) "tab-panel-active" d in
  mkPage d (focused p)
         (Analytics.trackEvent P env "ui" "tab_activated"
            ("tab_" ++ Analytics.decimal (Z.of_nat index)) 0 (analytics p)).



(** [init()] after the listeners are registered: the first tab is
    activated. *)
Definition init (P : Store.Platform) (env : Analytics.Env) (t : Instance) (p : Page) : Page :=
  activate P env t 0 p.

End Tabs.

(** ** [Animation] and [Accordion] *)

Module Accordion.
Import DOM.
Local Open Scope string_scope.
Local Open Scope Z_scope.

(** The inline style of an element, as far as [Animation] sets it. *)
Record Style := mkStyle {
  maxHeight : string;
  overflow : string;
  transition : string
}.

(** An instance: the items, and for an item its first
    [data-accordion-content] descendant. *)
Record Instance := mkInstance {
  items : list nat;
  contentOf : nat -> option nat
}.

(** The page: class lists, inline styles, the clock in milliseconds, and
    the callbacks of [slideDown] that wait for their timeout, each with
    its element and the time it is due, in the order they were set. *)
Record Page := mkPage {
  document : gmap nat (gset string);
  styles : gmap nat Style;
  clock : Z;
  timers : list (Z * nat)
}.

Definition styleOf (p : Page) (el : nat) : Style :=
  default (mkStyle "" "" "") (styles p !! el).

(** [CONFIG.animationDuration] *)
Definition animationDuration : Z := 300.

(** [Animation.slideDown(element)] with the default duration *)
Definition slideDown (element : option nat) (p : Page) : Page :=
  match element with
  | None => p
  | Some el =>
      mkPage (document p)
             (<[el := mkStyle "0" "hidden"
                        ("max-height " ++ Analytics.decimal animationDuration ++ "ms ease-out")]>
                (styles p))
             (clock p)
             (timers p ++ [(clock p + 10, el)])
  end.

(** [Animation.slideUp(element)] with the default duration *)
Definition slideUp (element : option nat) (p : Page) : Page :=
  match element with
  | None => p
  | Some el =>
      mkPage (document p)
             (<[el := mkStyle "0" (overflow (styleOf p el))
                        ("max-height " ++ Analytics.decimal animationDuration ++ "ms ease-in")]>
                (styles p))
             (clock p)
             (timers p)
  end.

(** [open(item)], [close(item)] *)
Definition open (a : Instance) (item : nat) (p : Page) : Page :=
  let p := mkPage (addClass (Some item) "accordion-open" (document p))
                  (styles p) (clock p) (timers p) in
  match contentOf a item with
  | Some content => slideDown (Some content) p
  | None => p
  end.

Definition close (a : Instance) (item : nat) (p : Page) : Page :=
  let p := mkPage (removeClass (Some item) "accordion-open" (document p))
                  (styles p) (clock p) (timers p) in
  match contentOf a item with
  | Some content => slideUp (Some content) p
  | None => p
  end.

(** [toggle(item)] *)
Definition toggle (a : Instance) (item : nat) (p : Page) : Page :=
  let isOpen := hasClass (Some item) "accordion-open" (document p) in
  if isOpen then close a item p
  else
    let p := fold_left
               (fun p otherItem =>
                  if negb (Nat.eqb otherItem item)
                     && hasClass (Some otherItem) "accordion-open" (document p)
                  then close a otherItem p
                  else p)
               (items a) p in
    open a item p.

(** The timeout callback of [slideDown], [scrollHeight] being what the
    element measures when it runs. *)
Definition expand (scrollHeight : nat -> Z) (p : Page) (el : nat) : Page :=
  mkPage (document p)
         (<[el := mkStyle (Analytics.decimal (scrollHeight el) ++ "px")
                          (overflow (styleOf p el)) (transition (styleOf p el))]>
            (styles p))
         (clock p) (timers p).

(** Time passes and no callback runs. *)
Definition wait (ms : Z) (p : Page) : Page :=
  mkPage (document p) (styles p) (clock p + ms) (timers p).

(** The event loop takes the oldest waiting timeout and runs it (every
    timeout here has the same delay).  [setTimeout] promises that a callback
    does not run before it is due, and no more than that: when the oldest
    timeout is not due yet nothing runs, and how long after it is due it
    runs is up to the calls of [wait] before this one. *)
Definition runTimeout (scrollHeight : nat -> Z) (p : Page) : Page :=
  match timers p with
  | (due, el) :: waiting =>
      if Z.leb due (clock p)
      then expand scrollHeight (mkPage (document p) (styles p) (clock p) waiting) el
      else p
  | [] => p
  end.

End Accordion.

(** A tab strip of three tabs with their panels, on a page where nothing
    has been tracked, and two readings of the platform a minute apart. *)
Module SamplePage.
Local Open Scope string_scope.
Local Open Scope Z_scope.

Definition strip : Tabs.Instance := Tabs.mkInstance [20; 21; 22]%nat [30; 31; 32]%nat.

Definition untracked : Analytics.State := Analytics.mkState [] SampleStore.empty.

Definition page : Tabs.Page := Tabs.mkPage ∅ None untracked.

Definition env1 : Analytics.Env :=
  Analytics.mkEnv "2025-12-29T09:20:00.000Z" 1767000000000 1767000000000
    "https://farmbridgetechnologies.com/" "Mozilla/5.0" false.


(** An accordion of three items, each with a content element ten above
    it; every content measures 120 pixels. *)
Definition accordion : Accordion.Instance :=
  Accordion.mkInstance [40; 41; 42]%nat (fun item => Some (item + 10)%nat).

Definition scrollHeight (el : nat) : Z := 120.

Definition folded : Accordion.Page := Accordion.mkPage ∅ ∅ 0 [].

End SamplePage.

(** ** Regular expressions

    The patterns of [FormValidator] are anchored at both ends and built
    from character classes, sequence and repetition: [test] says whether
    the whole string is in the language of the pattern.  Strings are
    sequences of code units below 256. *)

Module RegExp.

Local Open Scope string_scope.

Inductive regex :=
| Never
| Eps
| Class (p : ascii -> bool)
| Seq (r s : regex)
| Alt (r s : regex)
| Star (r : regex).

(** [r+], [r{n,}] *)
Definition Plus (r : regex) : regex := Seq r (Star r).

Fixpoint AtLeast (n : nat) (r : regex) : regex :=
  match n with
  | O => Star r
  | S n => Seq r (AtLeast n r)
  end.

(** The strings a pattern matches from end to end. *)
Inductive lang : regex -> string -> Prop :=
| lang_Eps : lang Eps ""
| lang_Class p c : p c = true -> lang (Class p) (String c "")
| lang_Seq r s x y : lang r x -> lang s y -> lang (Seq r s) (x ++ y)
| lang_Alt_l r s x : lang r x -> lang (Alt r s) x
| lang_Alt_r r s x : lang s x -> lang (Alt r s) x
| lang_Star_nil r : lang (Star r) ""
| lang_Star_app r x y : lang r x -> lang (Star r) y -> lang (Star r) (x ++ y).

(** Matching by derivatives. *)
Fixpoint nullable (r : regex) : bool :=
  match r with
  | Never => false
  | Eps => true
  | Class _ => false
  | Seq r s => nullable r && nullable s
  | Alt r s => nullable r || nullable s
  | Star _ => true
  end.

Fixpoint derive (c : ascii) (r : regex) : regex :=
  match r with
  | Never => Never
  | Eps => Never
  | Class p => if p c then Eps else Never
  | Seq r s =>
      if nullable r
      then Alt (Seq (derive c r) s) (derive c s)
      else Seq (derive c r) s
  | Alt r s => Alt (derive c r) (derive c s)
  | Star r => Seq (derive c r) (Star r)
  end.

Fixpoint matches (r : regex) (s : string) : bool :=
  match s with
  | "" => nullable r
  | String c s => matches (derive c r) s
  end.

(** [/^r$/.test(s)] *)
Definition test (r : regex) (s : string) : bool := matches r s.

(** [\d] and [\s] *)
Definition isDigit (c : ascii) : bool :=
  (48 <=? nat_of_ascii c)%nat && (nat_of_ascii c <=? 57)%nat.

Definition isSpace (c : ascii) : bool :=
  let n := nat_of_ascii c in
  ((9 <=? n)%nat && (n <=? 13)%nat) || Nat.eqb n 32 || Nat.eqb n 160.

(** Every character of a string is in a class. *)
Fixpoint all (p : ascii -> bool) (s : string) : bool :=
  match s with
  | "" => true
  | String c s => p c && all p s
  end.

(** The number of characters of a string that are in a class. *)
Fixpoint count (p : ascii -> bool) (s : string) : nat :=
  match s with
  | "" => O
  | String c s => ((if p c then 1 else 0) + count p s)%nat
  end.

(** [s.replace(/[^p]/g, '')]: the characters of the class, in order. *)
Fixpoint keep (p : ascii -> bool) (s : string) : string :=
  match s with
  | "" => ""
  | String c s => if p c then String c (keep p s) else keep p s
  end.

End RegExp.

(** ** [FormValidator] *)

Module FormValidator.
Import RegExp DOM.
Local Open Scope string_scope.
Local Open Scope Z_scope.

(** *** Strings *)

(** [s.split(sep)] for a separator of one character. *)
Fixpoint split (sep : ascii) (s : string) : list string :=
  match s with
  | "" => [""]
  | String c rest =>
      if Ascii.eqb c sep then "" :: split sep rest
      else match split sep rest with
           | first :: others => String c first :: others
           | [] => [String c ""]
           end
  end.

(** [s.trim()] *)
Fixpoint trimStart (s : string) : string :=
  match s with
  | String c rest => if isSpace c then trimStart rest else s
  | "" => ""
  end.

Fixpoint trimEnd (s : string) : string :=
  match s with
  | "" => ""
  | String c rest =>
      match trimEnd rest with
      | "" => if isSpace c then "" else String c ""
      | rest' => String c rest'
      end
  end.

Definition trim (s : string) : string := trimEnd (trimStart s).

(** The value of a character as a digit in a radix. *)
Definition digitValue (radix : Z) (c : ascii) : option Z :=
  let n := Z.of_nat (nat_of_ascii c) in
  let v := if (48 <=? n) && (n <=? 57) then Some (n - 48)
           else if (97 <=? n) && (n <=? 122) then Some (n - 97 + 10)
           else if (65 <=? n) && (n <=? 90) then Some (n - 65 + 10)
           else None in
  match v with
  | Some d => if d <? radix then Some d else None
  | None => None
  end.

Fixpoint digits (radix acc : Z) (s : string) : Z :=
  match s with
  | String c rest =>
      match digitValue radix c with
      | Some d => digits radix (acc * radix + d) rest
      | None => acc
      end
  | "" => acc
  end.

(** [parseInt(x)] for a string or [undefined]; [None] is [NaN].  White
    space is skipped, then a sign is read, then a prefix [0x] or [0X],
    which makes the radix 16, then the digits up to the first character
    that is none. *)
Definition parseInt (x : option string) : option Z :=
  match x with
  | None => None
  | Some s =>
      let s := trimStart s in
      let sign := match s with
                  | String c _ => if Ascii.eqb c "-" then -1 else 1
                  | "" => 1
                  end in
      let s := match s with
               | String c rest =>
                   if Ascii.eqb c "-" || Ascii.eqb c "+" then rest else s
               | "" => s
               end in
      let hex := match s with
                 | String c (String x _) =>
                     Ascii.eqb c "0" && (Ascii.eqb x "x" || Ascii.eqb x "X")
                 | _ => false
                 end in
      let radix := if hex then 16 else 10 in
      let s := if hex then
                 match s with
                 | String _ (String _ rest) => rest
                 | _ => s
                 end
               else s in
      match s with
      | String c _ =>
          match digitValue radix c with
          | Some _ => Some (sign * digits radix 0 s)
          | None => None
          end
      | "" => None
      end
  end.

(** *** Rules *)

(** [/^[^\s@]+@[^\s@]+\.[^\s@]+$/] *)
Definition plain (c : ascii) : bool := negb (isSpace c || Ascii.eqb c "@").

Definition emailPattern : regex :=
  Seq (Plus (Class plain))
      (Seq (Class (Ascii.eqb "@"))
           (Seq (Plus (Class plain))
                (Seq (Class (Ascii.eqb "."))
                     (Plus (Class plain))))).

(** [/^\d{10,}$/] *)
Definition phonePattern : regex := AtLeast 10 (Class isDigit).

Definition length (s : string) : Z := Z.of_nat (String.length s).

(** [checkRule(rule, value, params)]; [validURL] says whether
    [new URL(value)] returns. *)
Definition checkRule (validURL : string -> bool) (rule value : string)
    (params : list string) : bool :=
  if String.eqb rule "required" then 0 <? length value
  else if String.eqb rule "email" then test emailPattern value
  else if String.eqb rule "phone" then test phonePattern (keep isDigit value)
  else if String.eqb rule "minlength" then
    match parseInt (head params) with
    | Some n => n <=? length value
    | None => false
    end
  else if String.eqb rule "maxlength" then
    match parseInt (head params) with
    | Some n => length value <=? n
    | None => false
    end
  else if String.eqb rule "url" then validURL value
  else true.

(** [getErrorMessage(rule, fieldName)], for a rule that is not the name of
    a property objects inherit. *)
Definition getErrorMessage (rule fieldName : string) : string :=
  let messages :=
    [("required", fieldName ++ " is required");
     ("email", "Please enter a valid email address");
     ("phone", "Please enter a valid phone number");
     ("minlength", "Input is too short");
     ("maxlength", "Input is too long");
     ("url", "Please enter a valid URL")] in
  match List.find (fun entry => String.eqb rule (fst entry)) messages with
  | Some (_, message) => if String.eqb message "" then "Invalid input" else message
  | None => "Invalid input"
  end.

(** *** Fields *)

(** A field: the element, its parent, its name and value, and the
    attribute [data-validate] ([None] when it has none). *)
Record Field := mkField {
  element : nat;
  parentElement : nat;
  name : string;
  value : string;
  validate : option string
}.

(** The validator and what it sees of the page: [this.errors], the class
    lists, and for an element the text of the [.error-message] element
    found in it.  An element is taken to hold no more than one, and the
    parents of fields not to lie within each other. *)
Record State := mkState {
  errors : gmap string string;
  document : gmap nat (gset string);
  errorMessage : gmap nat string
}.

(** [setFieldError(field, message)] *)
Definition setFieldError (field : Field) (message : string) (st : State) : State :=
  mkState (<[name field := message]> (errors st))
          (addClass (Some (element field)) "field-error" (document st))
          (<[parentElement field := message]> (errorMessage st)).

(** [clearFieldError(field)] *)
Definition clearFieldError (field : Field) (st : State) : State :=
  mkState (base.delete (name field) (errors st))
          (removeClass (Some (element field)) "field-error" (document st))
          (base.delete (parentElement field) (errorMessage st)).

(** The rules of a field: [getAttribute('data-validate')?.split('|') || []] *)
Definition rulesOf (field : Field) : list string :=
  match validate field with
  | Some attribute => split "|" attribute
  | None => []
  end.

(** [const [ruleName, ...params] = rule.split(':')] *)
Definition ruleName (rule : string) : string :=
  match split ":" rule with
  | ruleName :: _ => ruleName
  | [] => ""
  end.
Definition paramsOf (rule : string) : list string :=
  match split ":" rule with
  | _ :: params => params
  | [] => []
  end.

(** The loop of [validateField] over the rules: the first rule that fails,
    if one does. *)
Fixpoint firstFailure (validURL : string -> bool) (value : string) (rules : list string)
  : option string :=
  match rules with
  | [] => None
  | rule :: rules =>
      if negb (checkRule validURL (ruleName rule) value (paramsOf rule))
      then Some (ruleName rule)
      else firstFailure validURL value rules
  end.

(** [validateField(field)] *)
Definition validateField (validURL : string -> bool) (field : Field) (st : State)
  : bool * State :=
  let rules := rulesOf field in
  let value := trim (value field) in
  match firstFailure validURL value rules with
  | Some ruleName =>
      (false, setFieldError field (getErrorMessage ruleName (name field)) st)
  | None => (true, clearFieldError field st)
  end.

(** *** Submitting *)

(** The submit button: its text and its attributes. *)
Record Button := mkButton {
  textContent : string;
  attributes : gmap string string
}.

(** What [submitForm] catches: the [TypeError] of reading [textContent]
    of [null] when the form has no submit button, or the error [API.post]
    rejects with. *)
Inductive failure :=
| NoButton
| RequestFailed (e : Api.error).

(** The page around a validator: the submit button of its form, the
    notifications shown so far (type and message), the network trace, the
    storage, the calls of [form.reset()], and what [Logger.error] was given
    as a failed submission. *)
Record Page := mkPage {
  validator : State;
  submitBtn : option Button;
  toasts : list (string * string);
  traffic : list Api.io;
  storage : Store.State;
  resets : nat;
  failures : list failure
}.

(** What one submission reads from the platform: the form data as
    [Object.fromEntries] gives it, the attribute [data-endpoint] of the
    form, and the clock when the key is made and inside [Storage.set]. *)
Record Submission := mkSubmission {
  data : json;
  endpointAttribute : option string;
  keyTime : Z;
  setTime : Z
}.

(** [this.form.getAttribute('data-endpoint') || '/contact'] *)
Definition endpointOf (s : Submission) : string :=
  match endpointAttribute s with
  | Some e => if String.eqb e "" then "/contact" else e
  | None => "/contact"
  end.

(** [`form_submission_${Date.now()}`] *)
Definition submissionKey (s : Submission) : string :=
  "form_submission_" ++ Analytics.decimal (keyTime s).

(** The [try] block of [submitForm]: [inl] is a throw. *)
Definition trySubmit (PA : Api.Platform) (PS : Store.Platform) (s : Submission)
    (p : Page) : (failure + unit) * Page :=
  match submitBtn p with
  | None => (inl NoButton, p)
  | Some submitBtn =>
      let sending := mkButton "Sending..." (<["disabled" := "true"]> (attributes submitBtn)) in
      match Api.post PA (endpointOf s) (data s) (traffic p) with
      | (inr response, t) =>
          (inr tt,
           mkPage (validator p) (Some sending)
                  (toasts p ++ [("success", "Form submitted successfully!")])%list
                  t
                  (snd (Store.set PS (setTime s) (submissionKey s) (data s) (Some 60)
                          (storage p)))
                  (S (resets p))
                  (failures p))
      | (inl error, t) =>
          (inl (RequestFailed error),
           mkPage (validator p) (Some sending) (toasts p) t (storage p) (resets p)
                  (failures p))
      end
  end.

(** [submitForm()], run without anything else happening while it waits
    for the network. *)
Definition submitForm (PA : Api.Platform) (PS : Store.Platform) (s : Submission)
    (p : Page) : Page :=
  let p :=
    match trySubmit PA PS s p with
    | (inr _, p) => p
    | (inl error, p) =>
        mkPage (validator p) (submitBtn p)
               (toasts p ++ [("error", "Failed to submit form. Please try again.")])%list
               (traffic p) (storage p) (resets p)
               (failures p ++ [error])%list
    end in
  mkPage (validator p)
         (option_map (fun b => mkButton "Submit" (<["disabled" := "false"]> (attributes b)))
                     (submitBtn p))
         (toasts p) (traffic p) (storage p) (resets p) (failures p).

(** The loop of [handleSubmit] over the fields. *)
Definition validateAll (validURL : string -> bool) (fields : list Field) (st : State)
  : bool * State :=
  fold_left (fun acc field =>
               let r := validateField validURL field (snd acc) in
               (if negb (fst r) then false else fst acc, snd r))
            fields (true, st).

(** [handleSubmit(e)], [fields] being the elements found for
    [data-validate]. *)
Definition handleSubmit (validURL : string -> bool) (PA : Api.Platform)
    (PS : Store.Platform) (fields : list Field) (s : Submission) (p : Page) : Page :=
  let st := mkState ∅ (document (validator p)) (errorMessage (validator p)) in
  let r := validateAll validURL fields st in
  let p := mkPage (snd r) (submitBtn p) (toasts p) (traffic p) (storage p) (resets p)
                  (failures p) in
  if fst r then submitForm PA PS s p
  else mkPage (validator p) (submitBtn p)
              (toasts p ++ [("error", "Please fix the errors in the form")])%list
              (traffic p) (storage p) (resets p) (failures p).

End FormValidator.

(** A contact form: three fields in rows of their own, and a validator
    that has found no error yet. *)
Module SampleForm.
Import FormValidator.
Local Open Scope string_scope.

Definition validURL (s : string) : bool := String.prefix "https://" s.

Definition email : Field :=
  mkField 60 70 "email" "  asha@farm.in " (Some "required|email").

Definition phone : Field :=
  mkField 61 71 "phone" "+91 (0) 98765-43210" (Some "required|phone").

Definition message : Field :=
  mkField 62 72 "message" "Hello" (Some "minlength:8").

Definition pin : Field :=
  mkField 63 73 "pin" "123456" (Some "maxlength").

Definition clean : State := mkState ∅ ∅ ∅.

(** The page of the form, its button reading [Send message], and a
    submission of the form data. *)
Definition page : Page :=
  mkPage clean (Some (mkButton "Send message" ∅)) [] [] SampleStore.empty 0 [].

Definition submission : Submission :=
  mkSubmission (JObj [("email", JStr "asha@farm.in"); ("message", JStr "Hello")])
               None 1767000000000 1767000000000.

End SampleForm.

(** ** The numbers of the platform

    Module [Viz] reads the arithmetic of the scene over the real numbers.
    The platform computes in binary64, and the particle buffers are
    [Float32Array]s: a value stored into one is rounded to the nearest
    binary32 value.  This module gives the particle loop and the zoom of
    the camera in that arithmetic. *)

Module Binary.
Import PrimFloat SpecFloat FloatOps.
Local Open Scope float_scope.

(** The value a [Float32Array] holds after [x] is stored into it
    ([Math.fround]): [x] rounded to binary32, ties to even. *)
Definition fround (x : float) : float :=
  SF2Prim (match Prim2SF x with
           | S754_finite s m e => binary_round 24 128 s m e
           | other => other
           end).

(** [velocity[i + 1] -= 0.0001]: the constant, as binary64 has it. *)
#[warnings="-inexact-float"] Definition GRAVITY : float := 0.0001.

(** [Math.abs(p) > 100] *)
Definition beyond (p : float) : bool := ltb 100 (abs p).

(** [if (Math.abs(p) > 100) v *= -1] on a [Float32Array]: the value of
    [v] afterwards. *)
Definition bounce (p v : float) : float :=
  if beyond p then fround (v * -1) else v.

(** The body of the [for (i = 0; i < positions.length; i += 3)] loop over
    the two [Float32Array]s: every compound assignment reads the stored
    values, computes in binary64 and stores the result rounded.  As in
    [Viz], the loop sees whole triples. *)
Fixpoint updateParticlesLoop (positions velocity : list float) : list float * list float :=
  match positions, velocity with
  | px :: py :: pz :: ps, vx :: vy :: vz :: vs =>
      (* Apply velocity *)
      let px := fround (px + vx) in
      let py := fround (py + vy) in
      let pz := fround (pz + vz) in
      (* Bounce at boundaries *)
      let vx := bounce px vx in
      let vy := bounce py vy in
      let vz := bounce pz vz in
      (* Add slight gravity *)
      let vy := fround (vy - GRAVITY) in
      let (ps', vs') := updateParticlesLoop ps vs in
      (px :: py :: pz :: ps', vx :: vy :: vz :: vs')
  | _, _ => (positions, velocity)
  end.

(** The [position] attribute of the particle system. *)
Record Points := mkPoints {
  positionArray : list float;
  needsUpdate : bool
}.

(** [updateParticles()] on [this.particleSystem] and
    [this.particleVelocities] *)
Definition updateParticles (particleSystem : option Points) (particleVelocities : list float)
  : option Points * list float :=
  match particleSystem with
  | None => (None, particleVelocities)
  | Some ps =>
      let (positions, velocity) :=
        updateParticlesLoop (positionArray ps) particleVelocities in
      (Some (mkPoints positions true), velocity)
  end.

(** Component [k] (0, 1, 2 for x, y, z) of particle [i] in a flat
    buffer. *)
Definition component (buffer : list float) (i k : nat) : float :=
  nth (3 * i + k) buffer 0.


End Binary.

(** Two particles: one on the right face of the box, moving right by
    less than half the spacing of binary32 values there and rising by half
    a unit per frame; one falling from high above the box by 2048 units per
    frame. *)
Module SampleBinary.
Import PrimFloat.
Local Open Scope float_scope.

Definition positions : list float := [100; 0; 0; 0; 2048; 0].
Definition velocity : list float := [0x1p-20; 0.5; 0; 0; -2048; 0].

End SampleBinary.

(** ** The values handed to [Storage.set] *)

Module StoreValues.
Import Store.
Local Open Scope string_scope.
Local Open Scope Z_scope.

(** What a caller can hand to [Storage.set]: a value JSON carries as it
    is, or one of the values it does not: [NaN], [undefined], a [Date]
    ([iso] being its [toISOString()]), a [File] of a form. *)
Inductive jsValue :=
| Json (j : json)
| NotANumber
| NoValue
| DateValue (iso : string)
| FileValue.

(** What [JSON.stringify] writes for a member that holds the value:
    [null] for [NaN], the ISO string for a [Date], an empty object for a
    [File]; a member that holds [undefined] is left out. *)
Definition written (v : jsValue) : option json :=
  match v with
  | Json j => Some j
  | NotANumber => Some JNull
  | NoValue => None
  | DateValue iso => Some (JStr iso)
  | FileValue => Some (JObj [])
  end.

(** [Storage.set(key, value, expiryMinutes)] for any of these values; on
    [Json j] it is [Store.set] on [j]. *)
Definition setValue (P : Platform) (now : Z) (key : string) (value : jsValue)
    (expiryMinutes : option Z) : M unit :=
  let data := match written value with
              | Some j => [("value", j)]
              | None => []
              end in
  let data :=
    match expiryMinutes with
    | Some m =>
        if truthy (Val (JNum m))
        then (data ++ [("expiry", JNum (now + m * 60 * 1000))])%list
        else data
    | None => data
    end in
  setItem key (stringify P (JObj data)).

(** What [Storage.get] has returned, among the values a caller can
    hand in. *)
Definition held (v : value) : jsValue :=
  match v with
  | Val j => Json j
  | Undefined => NoValue
  end.

End StoreValues.

(** * Properties *)

(** ** Particle field *)

Module ParticleFacts.
Import Viz.
Local Open Scope R_scope.





(** One pass of the loop, read particle by particle. *)
Lemma loop_component i : forall ps vs ps' vs',
  length ps = length vs ->
  (3 * i + 2 < length ps)%nat ->
  updateParticlesLoop ps vs = (ps', vs') ->
  (forall k, (k < 3)%nat -> component ps' i k = component ps i k + component vs i k)
  /\ component vs' i 0 = bounce (component ps' i 0) (component vs i 0)
  /\ component vs' i 1 = bounce (component ps' i 1) (component vs i 1) - GRAVITY
  /\ component vs' i 2 = bounce (component ps' i 2) (component vs i 2).
Proof.
  unfold component.
  induction i as [|i IH]; intros ps vs ps' vs' Hlen Hi Hrun;
    destruct ps as [|px [|py [|pz ps]]]; simpl in Hi; try lia;
    destruct vs as [|vx [|vy [|vz vs]]]; simpl in Hlen; try discriminate;
    simpl in Hrun;
    destruct (updateParticlesLoop ps vs) as [ps1 vs1] eqn:E;
    injection Hrun as <- <-.
  - repeat split; try reflexivity.
    intros k Hk. destruct k as [|[|[|k]]]; try lia; reflexivity.
  - assert (Hshift : forall k, (3 * S i + k = S (S (S (3 * i + k))))%nat) by (intros; lia).
    rewrite !Hshift. cbn [nth].
    destruct (IH ps vs ps1 vs1) as (H0 & H1 & H2 & H3); [lia | lia | exact E |].
    repeat split; try assumption.
    intros k Hk. rewrite !Hshift. cbn [nth]. apply H0, Hk.
Qed.

Lemma loop_length ps : forall vs ps' vs',
  length ps = length vs ->
  updateParticlesLoop ps vs = (ps', vs') ->
  length ps' = length ps /\ length vs' = length vs.
Proof.
  induction ps as [ps IH] using (well_founded_induction
    (Wf_nat.well_founded_ltof _ (@length R))).
  intros vs ps' vs' Hlen Hrun.
  destruct ps as [|px [|py [|pz ps]]]; destruct vs as [|vx [|vy [|vz vs]]];
    simpl in Hlen; try discriminate; simpl in Hrun;
    try (injection Hrun as <- <-; split; reflexivity).
  destruct (updateParticlesLoop ps vs) as [ps1 vs1] eqn:E.
  injection Hrun as <- <-.
  destruct (IH ps) with (vs := vs) (ps' := ps1) (vs' := vs1) as [H1 H2].
  - unfold Wf_nat.ltof. simpl. lia.
  - lia.
  - exact E.
  - simpl. split; lia.
Qed.

End ParticleFacts.

(** ** Life cycle of the scene *)

Module SceneFacts.
Import Viz Sample ParticleFacts.
Local Open Scope R_scope.

(** Run the methods down to the record they build.  Evaluation is by
    value, on a world opened into its fields, so that each intermediate
    world is computed once. *)
Ltac methods :=
  cbv beta iota zeta delta
    [particlesOf objectsOf cameraOf construct particleCount
     init isWebGLSupported setupScene setupCamera setupRenderer setupLighting
     createParticles createGeometries setupEventListeners setupScrollListener
     onScroll updateCameraOnScroll updateParallax onWindowResize
     onVisibilityChange resume destroy pause handleWebGLFallback animate
     render updateParticles removeCanvas appendToMount addEventListener
     cancelAnimationFrame requestAnimationFrame enter on_viz on_browser
     set_scene set_camera set_renderer set_particles set_torus set_octahedron
     set_cube set_scrollProgress set_initialized set_animationId set_listeners
     set_frames set_children set_window set_scroll set_hidden set_calls
     viz browser scene camera renderer particleSystem particleVelocities torus
     octahedron cube isMobile scrollProgress initialized animationId
     listeners frameRequests nextRequestId hasContainer containerChildren
     bodyChildren innerWidth innerHeight scrollY docScrollHeight hidden calls
     envMobile envWebGL envThree random
     position rotation meshDisposed camPosition camRotation aspect
     ptsRotation positionArray needsUpdate ptsDisposed size rendered disposed
     disposeMesh disposePoints spinTorus spinPoints zero3
     deliver dispatch callback signal_eqb fold_left existsb run geometry
     rotationsOf
     option_map negb fst snd] in *.

(** Open a world into its fields, so that every projection computes. *)
Ltac open_world w :=
  destruct w as [[sc cam rd psys vel tor oct cub mob sp ini aid]
                 [ls fr nx hc cc bc iw ih sy dh hid cl]];
  methods.

(** Case analysis on what the guards of the methods look at. *)
Ltac cases :=
  repeat match goal with
  | |- context [match ?x with _ => _ end] =>
      lazymatch x with
      | updateParticlesLoop _ _ => destruct x
      | _ => is_var x; destruct x
      end; methods
  end.

Lemma updateParticles_particlesOf w : particlesOf (updateParticles w) = tick w.
Proof.
  unfold tick. open_world w. methods. cases; reflexivity.
Qed.

(** One tick of [animate], field by field. *)
Lemma animate_particlesOf w : particlesOf (animate w) = tick w.
Proof.
  unfold tick. open_world w. methods. cases; reflexivity.
Qed.

Lemma animate_objects w :
  objectsOf (animate w)
  = (option_map spinTorus (torus (viz w)), octahedron (viz w), cube (viz w)).
Proof. open_world w. methods. cases; reflexivity. Qed.

Lemma animate_camera w : cameraOf (animate w) = cameraOf w.
Proof. open_world w. methods. cases; reflexivity. Qed.

Lemma animate_browser w :
  frameRequests (browser (animate w))
    = frameRequests (browser w) ++ [nextRequestId (browser w)]
  /\ nextRequestId (browser (animate w)) = S (nextRequestId (browser w))
  /\ listeners (browser (animate w)) = listeners (browser w)
  /\ calls (browser (animate w)) = m_updateParticles :: m_animate :: calls (browser w).
Proof. open_world w. repeat split. Qed.

Lemma animate_instance w :
  animationId (viz (animate w)) = Some (nextRequestId (browser w))
  /\ initialized (viz (animate w)) = initialized (viz w)
  /\ scrollProgress (viz (animate w)) = scrollProgress (viz w).
Proof. open_world w. methods. cases; repeat split. Qed.

(** [pause] touches the pending frame requests and nothing else. *)
Lemma pause_viz w : viz (pause w) = viz w.
Proof. open_world w. methods. cases; reflexivity. Qed.

Lemma pause_browser w :
  listeners (browser (pause w)) = listeners (browser w)
  /\ nextRequestId (browser (pause w)) = nextRequestId (browser w)
  /\ calls (browser (pause w)) = m_pause :: calls (browser w).
Proof. open_world w. methods. cases; repeat split. Qed.

Lemma pause_frames w id :
  animationId (viz w) = Some (S id) ->
  frameRequests (browser (pause w))
  = List.filter (fun j => negb (Nat.eqb j (S id))) (frameRequests (browser w)).
Proof. intros H. open_world w. subst. reflexivity. Qed.








(** The scroll callback. *)
Lemma onScroll_camera w c :
  camera (viz w) = Some c ->
  cameraOf (onScroll w)
  = Some (cameraOnScroll
            (scrollProgressOf (scrollY (browser w))
                              (docScrollHeight (browser w) - innerHeight (browser w))) c).
Proof. intros H. open_world w. subst. reflexivity. Qed.


(** A frame that is pending runs one tick. *)
Lemma deliver_frame w id :
  In id (frameRequests (browser w)) ->
  deliver (EvFrame id) w = animate (cancelAnimationFrame id w).
Proof.
  intros H. unfold deliver.
  destruct (existsb (Nat.eqb id) (frameRequests (browser w))) eqn:E; [reflexivity|].
  exfalso. assert (existsb (Nat.eqb id) (frameRequests (browser w)) = true).
  { apply existsb_exists. exists id. split; [assumption | apply Nat.eqb_refl]. }
  congruence.
Qed.

Lemma deliver_frame_absent w id :
  ~ In id (frameRequests (browser w)) -> deliver (EvFrame id) w = w.
Proof.
  intros H. unfold deliver.
  destruct (existsb (Nat.eqb id) (frameRequests (browser w))) eqn:E; [|reflexivity].
  exfalso. apply H. apply existsb_exists in E as (j & Hj & Heq).
  apply Nat.eqb_eq in Heq. now subst.
Qed.

(** The frame requests do not matter to a tick of the particles. *)
Lemma tick_of_particles w positions velocity :
  particlesOf w = (Some positions, velocity) ->
  tick w = (Some (fst (updateParticlesLoop positions velocity)),
            snd (updateParticlesLoop positions velocity)).
Proof.
  intros H. unfold tick. open_world w.
  destruct psys as [ps|]; methods; [|discriminate].
  injection H as <- <-. destruct (updateParticlesLoop _ _). reflexivity.
Qed.

Lemma nextFrame_particles w positions velocity :
  frameRequests (browser w) <> [] ->
  particlesOf w = (Some positions, velocity) ->
  particlesOf (nextFrame w)
  = (Some (fst (updateParticlesLoop positions velocity)),
     snd (updateParticlesLoop positions velocity)).
Proof.
  intros Hrun H. unfold nextFrame.
  destruct (frameRequests (browser w)) as [|id rest] eqn:E; [contradiction|].
  rewrite (deliver_frame w id) by (rewrite E; now left).
  rewrite animate_particlesOf.
  apply tick_of_particles. rewrite <- H. clear. open_world w. reflexivity.
Qed.

Lemma nextFrame_running w :
  frameRequests (browser w) <> [] -> frameRequests (browser (nextFrame w)) <> [].
Proof.
  intros Hrun. unfold nextFrame.
  destruct (frameRequests (browser w)) as [|id rest] eqn:E; [contradiction|].
  rewrite (deliver_frame w id) by (rewrite E; now left).
  rewrite (proj1 (animate_browser _)). intros H. now apply app_eq_nil in H as [_ H].
Qed.

(** While the loop runs, the buffers keep their lengths. *)
Lemma frames_buffers w positions velocity n :
  frameRequests (browser w) <> [] ->
  particlesOf w = (Some positions, velocity) ->
  length positions = length velocity ->
  exists ps vs,
    particlesOf (frames n w) = (Some ps, vs)
    /\ length ps = length vs
    /\ length ps = length positions
    /\ frameRequests (browser (frames n w)) <> [].
Proof.
  intros Hrun Hp Hlen. induction n as [|n (ps & vs & Hn & Hl & Hl' & Hr)].
  - exists positions, velocity. repeat split; assumption.
  - cbn [frames].
    destruct (updateParticlesLoop ps vs) as [ps' vs'] eqn:E.
    destruct (loop_length ps vs ps' vs' Hl E) as [H1 H2].
    exists ps', vs'. rewrite (nextFrame_particles _ ps vs Hr Hn), E. cbn [fst snd].
    repeat split; try congruence. now apply nextFrame_running.
Qed.

(** [pause] then [resume] on an initialised instance. *)
Lemma resume_pause w :
  initialized (viz w) = true ->
  particlesOf (resume (pause w)) = tick w
  /\ objectsOf (resume (pause w))
     = (option_map spinTorus (torus (viz w)), octahedron (viz w), cube (viz w))
  /\ option_map ptsRotation (particleSystem (viz (resume (pause w))))
     = option_map (fun ps => ptsRotation (spinPoints ps)) (particleSystem (viz w))
  /\ cameraOf (resume (pause w)) = cameraOf w
  /\ frameRequests (browser (resume (pause w)))
     = frameRequests (browser (pause w)) ++ [nextRequestId (browser w)]
  /\ calls (browser (resume (pause w)))
     = m_updateParticles :: m_animate :: m_resume :: m_pause :: calls (browser w).
Proof.
  intros H. unfold tick. open_world w. subst. cases; repeat split.
Qed.



Lemma objectsOf_fields w a b c :
  objectsOf w = (a, b, c) ->
  torus (viz w) = a /\ octahedron (viz w) = b /\ cube (viz w) = c.
Proof. unfold objectsOf. intros H. now injection H. Qed.

Lemma rotationsOf_torus w w' :
  rotationsOf w = rotationsOf w' ->
  option_map rotation (torus (viz w)) = option_map rotation (torus (viz w')).
Proof. unfold rotationsOf. intros H. now injection H. Qed.




Lemma construct_supported env b :
  envWebGL env = true -> envThree env = true ->
  particlesOf (construct env b) = (Some (fst (firstTick env)), snd (firstTick env))
  /\ objectsOf (construct env b) = (Some (spinTorus torus0), Some octahedron0, Some cube0)
  /\ cameraOf (construct env b)
     = Some (mkCamera (vec3 0 0 100) zero3 (innerWidth b / innerHeight b))
  /\ listeners (browser (construct env b))
     = listeners b ++ [Resize; VisibilityChange; Scroll]
  /\ frameRequests (browser (construct env b)) = frameRequests b ++ [nextRequestId b]
  /\ animationId (viz (construct env b)) = Some (nextRequestId b)
  /\ initialized (viz (construct env b)) = true
  /\ scrollProgress (viz (construct env b)) = 0.
Proof.
  intros Hgl Hthree. destruct env as [mobile webgl three rnd]. cbn in *. subst.
  destruct b as [ls fr nx hc cc bc iw ih sy dh hid cl].
  unfold firstTick. methods.
  destruct (updateParticlesLoop _ _) as [ps vs].
  destruct hc; methods; rewrite <- !app_assoc; repeat split.
Qed.

Lemma world0_facts :
  particlesOf world0 = (Some (fst (firstTick env0)), snd (firstTick env0))
  /\ objectsOf world0 = (Some (spinTorus torus0), Some octahedron0, Some cube0)
  /\ cameraOf world0 = Some (mkCamera (vec3 0 0 100) zero3 (390 / 844))
  /\ listeners (browser world0) = [BeforeUnload; Resize; VisibilityChange; Scroll]
  /\ frameRequests (browser world0) = [1%nat]
  /\ animationId (viz world0) = Some 1%nat
  /\ initialized (viz world0) = true
  /\ scrollProgress (viz world0) = 0.
Proof. exact (construct_supported env0 page0 eq_refl eq_refl). Qed.

End SceneFacts.

(** ** Camera rig *)

Module CameraRig.
Import Viz Sample SceneFacts.
Local Open Scope R_scope.

Lemma updateCameraOnScroll_camera w c :
  camera (viz w) = Some c ->
  cameraOf (updateCameraOnScroll w) = Some (cameraOnScroll (scrollProgress (viz w)) c).
Proof. intros H. open_world w. subst. reflexivity. Qed.

Lemma cameraOnScroll_zero c :
  cameraOnScroll 0 c = mkCamera (vec3 0 20 150) (vec3 0 0 (z_ (camRotation c))) (aspect c).
Proof.
  unfold cameraOnScroll. rewrite !Rmult_0_l, sin_0, cos_0.
  f_equal; f_equal; lra.
Qed.

(** C2, as stated, fails: on the world a successful [init] builds, where
    the scroll progress is 0, [updateCameraOnScroll] puts the camera at
    (0, 20, 150), not at (0, 0, 150). *)
Lemma camera_at_progress_zero_not_origin :
  scrollProgress (viz world0) = 0
  /\ ~ (exists c, cameraOf (updateCameraOnScroll world0) = Some c
                  /\ camPosition c = vec3 0 0 150).
Proof.
  destruct world0_facts as (_ & _ & Hcam & _ & _ & _ & _ & Hp).
  split; [exact Hp|].
  intros (c & Hc & Hpos).
  rewrite (updateCameraOnScroll_camera world0 _ Hcam), Hp, cameraOnScroll_zero in Hc.
  injection Hc as <-. cbn in Hpos. injection Hpos as H. lra.
Qed.

(** C2, amended: when the scroll progress is 0, [updateCameraOnScroll]
    sets rotation.x = 0, rotation.y = 0, position.x = 0, position.z = 150
    and position.y = cos(0) * 20 = 20. *)
Theorem camera_at_progress_zero (w : World) (c : Camera) :
  camera (viz w) = Some c ->
  scrollProgress (viz w) = 0 ->
  exists c', cameraOf (updateCameraOnScroll w) = Some c'
    /\ x_ (camRotation c') = 0 /\ y_ (camRotation c') = 0
    /\ camPosition c' = vec3 0 20 150.
Proof.
  intros Hc Hp. eexists. split.
  - rewrite (updateCameraOnScroll_camera w c Hc), Hp, cameraOnScroll_zero. reflexivity.
  - repeat split.
Qed.

Lemma camera_at_progress_zero_witness :
  exists c', cameraOf (updateCameraOnScroll world0) = Some c'
    /\ x_ (camRotation c') = 0 /\ y_ (camRotation c') = 0
    /\ camPosition c' = vec3 0 20 150.
Proof.
  apply (camera_at_progress_zero world0 (mkCamera (vec3 0 0 100) zero3 (390 / 844))).
  - exact (proj1 (proj2 (proj2 world0_facts))).
  - exact (proj2 (proj2 (proj2 (proj2 (proj2 (proj2 (proj2 world0_facts))))))).
Defined.



End CameraRig.

(** ** Scroll progress tracker *)

Module ScrollTracker.
Import Viz Sample SceneFacts.
Local Open Scope R_scope.




End ScrollTracker.

(** ** Particle field *)

Module ParticleField.
Import Viz Sample ParticleFacts SceneFacts.
Local Open Scope R_scope.

(** The buffers [createParticles] fills. *)
Lemma randomPositions_from rnd n : forall s,
  length (flat_map (fun i => [ (rnd (5 * i)%nat - 0.5) * 200;
                               (rnd (5 * i + 1)%nat - 0.5) * 200;
                               (rnd (5 * i + 2)%nat - 0.5) * 200 ]) (seq s n))
  = (3 * n)%nat
  /\ forall i k, (i < n)%nat -> (k < 3)%nat ->
       nth (3 * i + k)
           (flat_map (fun i => [ (rnd (5 * i)%nat - 0.5) * 200;
                                 (rnd (5 * i + 1)%nat - 0.5) * 200;
                                 (rnd (5 * i + 2)%nat - 0.5) * 200 ]) (seq s n)) 0
       = (rnd (5 * (s + i) + k)%nat - 0.5) * 200.
Proof.
  induction n as [|n IH]; intros s.
  - split; [reflexivity | intros; lia].
  - destruct (IH (S s)) as [Hlen Hnth]. split.
    + cbn [seq flat_map app length]. rewrite Hlen. lia.
    + intros i k Hi Hk. cbn [seq flat_map app].
      destruct i as [|i].
      * replace (s + 0)%nat with s by lia.
        destruct k as [|[|[|k]]]; try lia; cbn [Nat.mul Nat.add nth];
          do 3 f_equal; lia.
      * replace (3 * S i + k)%nat with (S (S (S (3 * i + k)))) by lia.
        cbn [nth]. rewrite Hnth by lia. do 3 f_equal. lia.
Qed.

Lemma randomPositions_length rnd n : length (randomPositions rnd n) = (3 * n)%nat.
Proof. apply (randomPositions_from rnd n 0). Qed.

Lemma randomPositions_component rnd n i k :
  (i < n)%nat -> (k < 3)%nat ->
  component (randomPositions rnd n) i k = (rnd (5 * i + k)%nat - 0.5) * 200.
Proof. intros Hi Hk. apply (proj2 (randomPositions_from rnd n 0) i k Hi Hk). Qed.

Lemma randomVelocities_length rnd n : length (randomVelocities rnd n) = (3 * n)%nat.
Proof. unfold randomVelocities. now rewrite length_map, length_seq. Qed.

Lemma randomVelocities_component rnd n i k :
  (i < n)%nat -> (k < 3)%nat ->
  component (randomVelocities rnd n) i k
  = (rnd (5 * n + (3 * i + k))%nat - 0.5) * 0.05.
Proof.
  intros Hi Hk. unfold component, randomVelocities.
  set (f := fun j => (rnd (5 * n + j)%nat - 0.5) * 0.05).
  rewrite nth_indep with (d' := f 0%nat) by (rewrite length_map, length_seq; lia).
  rewrite map_nth, seq_nth by lia. reflexivity.
Qed.

Lemma firstTick_lengths env :
  length (fst (firstTick env)) = length (snd (firstTick env))
  /\ (500 <= length (fst (firstTick env)))%nat.
Proof.
  unfold firstTick.
  destruct (updateParticlesLoop _ _) as [ps vs] eqn:E.
  apply loop_length in E.
  - rewrite randomPositions_length, randomVelocities_length in E. cbn [fst snd].
    destruct E as [-> ->]. split; [reflexivity|].
    destruct (envMobile env); lia.
  - now rewrite randomPositions_length, randomVelocities_length.
Qed.





(** One frame, seen on one axis of one particle. *)
Lemma frame_axis w positions velocity i k :
  frameRequests (browser w) <> [] ->
  particlesOf w = (Some positions, velocity) ->
  length positions = length velocity ->
  (3 * i + 2 < length positions)%nat ->
  (k < 3)%nat ->
  positionAt (nextFrame w) i k = positionAt w i k + velocityAt w i k
  /\ velocityAt (nextFrame w) i k
     = bounce (positionAt (nextFrame w) i k) (velocityAt w i k) - gravityOn k.
Proof.
  intros Hrun Hp Hlen Hi Hk.
  unfold positionAt, velocityAt.
  rewrite (nextFrame_particles w _ _ Hrun Hp), Hp. cbn [fst snd].
  destruct (updateParticlesLoop positions velocity) as [ps vs] eqn:E. cbn [fst snd].
  destruct (loop_component i _ _ _ _ Hlen Hi E) as (Hpos & H0 & H1 & H2).
  split; [apply Hpos, Hk|].
  unfold gravityOn.
  destruct k as [|[|[|k]]]; try lia; cbn [Nat.eqb]; rewrite ?H0, ?H1, ?H2;
    clear; ring.
Qed.


Lemma world0_running :
  frameRequests (browser world0) <> []
  /\ length (fst (firstTick env0)) = length (snd (firstTick env0))
  /\ (3 * 0 + 2 < length (fst (firstTick env0)))%nat.
Proof.
  destruct world0_facts as (_ & _ & _ & _ & Hfr & _).
  destruct (firstTick_lengths env0) as [Hlen Hsize].
  split; [rewrite Hfr; discriminate|]. split; [exact Hlen | lia].
Qed.






End ParticleField.

(** ** The particle loop and the zoom in the arithmetic of the platform *)

Module Rounding.
Import PrimFloat Binary.
Local Open Scope float_scope.

(** One pass of the loop, read particle by particle. *)
Lemma rounded_loop_component i : forall ps vs ps' vs',
  length ps = length vs ->
  (3 * i + 2 < length ps)%nat ->
  updateParticlesLoop ps vs = (ps', vs') ->
  (forall k, (k < 3)%nat ->
     component ps' i k = fround (component ps i k + component vs i k))
  /\ component vs' i 0 = bounce (component ps' i 0) (component vs i 0)
  /\ component vs' i 1 = fround (bounce (component ps' i 1) (component vs i 1) - GRAVITY)
  /\ component vs' i 2 = bounce (component ps' i 2) (component vs i 2).
Proof.
  unfold component.
  induction i as [|i IH]; intros ps vs ps' vs' Hlen Hi Hrun;
    destruct ps as [|px [|py [|pz ps]]]; cbn [length] in Hi; try lia;
    destruct vs as [|vx [|vy [|vz vs]]]; cbn [length] in Hlen; try discriminate;
    cbn [updateParticlesLoop] in Hrun;
    destruct (updateParticlesLoop ps vs) as [ps1 vs1] eqn:E;
    injection Hrun as <- <-.
  - repeat split; try reflexivity.
    intros k Hk. destruct k as [|[|[|k]]]; try lia; reflexivity.
  - assert (Hshift : forall k, (3 * S i + k = S (S (S (3 * i + k))))%nat) by (intros; lia).
    rewrite !Hshift. cbn [nth].
    destruct (IH ps vs ps1 vs1) as (H0 & H1 & H2 & H3); [lia | lia | exact E |].
    repeat split; try assumption.
    intros k Hk. rewrite !Hshift. cbn [nth]. apply H0, Hk.
Qed.

(** C6, as stated, fails in the arithmetic of the buffers.  A particle at
    x = 100 with velocity 2^-20 is not moved by [updateParticles], although
    100 + 2^-20 is a binary64 value of its own: the stored position is not
    position + velocity.  A vertical velocity of 0.5 does not become
    0.5 - 0.0001: what is stored is the binary32 value next to it.  And a
    vertical velocity of -2048 is not decremented at all: -2048 - 0.0001
    is stored as -2048. *)
Lemma updateParticles_not_exact :
  updateParticles (Some (mkPoints SampleBinary.positions false)) SampleBinary.velocity
  = (Some (mkPoints [100; 0.5; 0; 0; 0; 0] true),
     [0x1p-20; 0x1.ffe5cap-2; 0; 0; -2048; 0])
  /\ eqb (component SampleBinary.positions 0 0 + component SampleBinary.velocity 0 0)
         100 = false
  /\ eqb (component SampleBinary.velocity 0 1 - GRAVITY) 0x1.ffe5cap-2 = false
  /\ ltb (component SampleBinary.velocity 1 1 - GRAVITY)
         (component SampleBinary.velocity 1 1) = true.
Proof. vm_compute. repeat split. Qed.

(** C6, amended: one call of [updateParticles] does, for every particle
    and on each axis on its own: (1) the position becomes position +
    velocity rounded to binary32; (2) when the stored position has
    magnitude above 100 the velocity component is negated, and the position
    stays what step (1) made it; (3) the vertical velocity then becomes
    velocity - 0.0001 rounded to binary32, with no floor. *)
Theorem updateParticles_rounds (positions velocity : list float) (needsUpdate : bool)
    (i : nat) :
  length positions = length velocity ->
  (3 * i + 2 < length positions)%nat ->
  exists positions' velocity',
    updateParticles (Some (mkPoints positions needsUpdate)) velocity
    = (Some (mkPoints positions' true), velocity')
    /\ (forall k, (k < 3)%nat ->
          component positions' i k
          = fround (component positions i k + component velocity i k))
    /\ component velocity' i 0
       = (if ltb 100 (abs (component positions' i 0))
          then fround (component velocity i 0 * -1) else component velocity i 0)
    /\ component velocity' i 1
       = fround ((if ltb 100 (abs (component positions' i 1))
                  then fround (component velocity i 1 * -1) else component velocity i 1)
                 - GRAVITY)
    /\ component velocity' i 2
       = (if ltb 100 (abs (component positions' i 2))
          then fround (component velocity i 2 * -1) else component velocity i 2).
Proof.
  intros Hlen Hi. unfold updateParticles. cbn [positionArray].
  destruct (updateParticlesLoop positions velocity) as [ps' vs'] eqn:E.
  exists ps', vs'. split; [reflexivity|].
  exact (rounded_loop_component i positions velocity ps' vs' Hlen Hi E).
Qed.

Lemma updateParticles_rounds_witness :
  exists positions' velocity',
    updateParticles (Some (mkPoints SampleBinary.positions false)) SampleBinary.velocity
    = (Some (mkPoints positions' true), velocity')
    /\ (forall k, (k < 3)%nat ->
          component positions' 0 k
          = fround (component SampleBinary.positions 0 k
                    + component SampleBinary.velocity 0 k))
    /\ component velocity' 0 0
       = (if ltb 100 (abs (component positions' 0 0))
          then fround (component SampleBinary.velocity 0 0 * -1)
          else component SampleBinary.velocity 0 0)
    /\ component velocity' 0 1
       = fround ((if ltb 100 (abs (component positions' 0 1))
                  then fround (component SampleBinary.velocity 0 1 * -1)
                  else component SampleBinary.velocity 0 1)
                 - GRAVITY)
    /\ component velocity' 0 2
       = (if ltb 100 (abs (component positions' 0 2))
          then fround (component SampleBinary.velocity 0 2 * -1)
          else component SampleBinary.velocity 0 2).
Proof.
  apply (updateParticles_rounds SampleBinary.positions SampleBinary.velocity false 0).
  - reflexivity.
  - cbn. lia.
Defined.


End Rounding.

(** ** Render loop: pause, resume, destroy *)

Module RenderLoop.
Import Viz Sample ParticleFacts SceneFacts.
Local Open Scope R_scope.

Lemma world0_torus : torus (viz world0) = Some (spinTorus torus0).
Proof. exact (proj1 (objectsOf_fields world0 _ _ _ (proj1 (proj2 world0_facts)))). Qed.

(** C4, as stated, fails: on the scene of [world0], [pause] followed at
    once by [resume] turns the torus by one more increment. *)
Lemma pause_resume_moves_world0 :
  initialized (viz world0) = true /\ ~ pause_resume_idle world0.
Proof.
  destruct world0_facts as (_ & _ & _ & _ & _ & _ & Hini & _).
  split; [exact Hini|].
  intros [_ Hrot]. apply rotationsOf_torus in Hrot.
  destruct (resume_pause world0 Hini) as (_ & Hobj & _).
  apply objectsOf_fields in Hobj. destruct Hobj as (Ht & _ & _).
  rewrite Ht, world0_torus in Hrot.
  apply (f_equal (option_map x_)) in Hrot.
  cbv [option_map rotation spinTorus torus0 zero3 x_] in Hrot.
  injection Hrot as Hx. lra.
Qed.

(** C4, amended: on an initialised instance, [pause] followed by [resume]
    with no frame in between runs exactly one tick, whatever the time spent
    paused: one pass of [updateParticles], one idle rotation increment of
    the torus and of the particle system; the octahedron, the cube and the
    camera stay as they were, and one frame is requested. *)
Theorem pause_resume_one_tick (w : World) :
  initialized (viz w) = true ->
  particlesOf (resume (pause w)) = tick w
  /\ torus (viz (resume (pause w))) = option_map spinTorus (torus (viz w))
  /\ octahedron (viz (resume (pause w))) = octahedron (viz w)
  /\ cube (viz (resume (pause w))) = cube (viz w)
  /\ option_map ptsRotation (particleSystem (viz (resume (pause w))))
     = option_map (fun ps => ptsRotation (spinPoints ps)) (particleSystem (viz w))
  /\ cameraOf (resume (pause w)) = cameraOf w
  /\ frameRequests (browser (resume (pause w)))
     = frameRequests (browser (pause w)) ++ [nextRequestId (browser w)]
  /\ calls (browser (resume (pause w)))
     = m_updateParticles :: m_animate :: m_resume :: m_pause :: calls (browser w).
Proof.
  intros Hini.
  destruct (resume_pause w Hini) as (Hp & Hobj & Hrot & Hcam & Hfr & Hcalls).
  apply objectsOf_fields in Hobj. destruct Hobj as (Ht & Ho & Hc).
  repeat split; assumption.
Qed.

Lemma pause_resume_one_tick_witness :
  particlesOf (resume (pause world0)) = tick world0
  /\ torus (viz (resume (pause world0))) = option_map spinTorus (torus (viz world0))
  /\ octahedron (viz (resume (pause world0))) = octahedron (viz world0)
  /\ cube (viz (resume (pause world0))) = cube (viz world0)
  /\ option_map ptsRotation (particleSystem (viz (resume (pause world0))))
     = option_map (fun ps => ptsRotation (spinPoints ps)) (particleSystem (viz world0))
  /\ cameraOf (resume (pause world0)) = cameraOf world0
  /\ frameRequests (browser (resume (pause world0)))
     = frameRequests (browser (pause world0)) ++ [nextRequestId (browser world0)]
  /\ calls (browser (resume (pause world0)))
     = m_updateParticles :: m_animate :: m_resume :: m_pause :: calls (browser world0).
Proof.
  apply (pause_resume_one_tick world0).
  exact (proj1 (proj2 (proj2 (proj2 (proj2 (proj2 (proj2 world0_facts))))))).
Defined.





End RenderLoop.

(** ** Fallback *)

Module Fallback.
Import Viz Sample SceneFacts.
Local Open Scope R_scope.

Lemma construct_unsupported env container width height docHeight :
  envWebGL env = false ->
  inert container (construct env (pageLoad container width height docHeight))
  /\ calls (browser (construct env (pageLoad container width height docHeight)))
     = [m_handleWebGLFallback; m_isWebGLSupported; m_init; m_detectMobile].
Proof.
  intros H. destruct env as [mobile webgl three rnd]. cbn in H. subst.
  unfold inert, pageLoad. methods.
  destruct container; methods; repeat split; repeat constructor.
Qed.

Lemma deliver_inert container e w : inert container w -> inert container (deliver e w).
Proof.
  unfold inert.
  destruct w as [[sc cam rd psys vel tor oct cub mob sp ini aid]
                 [ls fr nx hc cc bc iw ih sy dh hid cl]].
  cbn [viz browser listeners frameRequests hasContainer containerChildren
       bodyChildren calls isMobile].
  intros (Hviz & Hl & Hf & Hc & Hch & Hcalls).
  injection Hviz as -> -> -> -> -> -> -> -> -> -> ->.
  destruct container; injection Hch as -> ->; subst;
    destruct e; methods; repeat split; try assumption; repeat constructor; assumption.
Qed.

Lemma run_inert container es : forall w,
  inert container w -> inert container (run es w).
Proof.
  induction es as [|e es IH]; intros w H; [exact H|].
  apply (IH (deliver e w)), deliver_inert, H.
Qed.

(** C5: when [isWebGLSupported] answers false during [init], the camera
    rig, the particle field and the decorative objects are never built,
    not by [init] and not by anything that happens on the page later, and
    exactly one fallback panel is mounted: in the container when there is
    one, in the body otherwise. *)
Theorem fallback_when_unsupported (env : Env) (container : bool)
    (width height docHeight : R) (es : list event) :
  envWebGL env = false ->
  let w0 := construct env (pageLoad container width height docHeight) in
  let w := run es w0 in
  calls (browser w0) = [m_handleWebGLFallback; m_isWebGLSupported; m_init; m_detectMobile]
  /\ Forall (fun m => constructs m = false) (calls (browser w))
  /\ cameraOf w = None
  /\ particlesOf w = (None, [])
  /\ objectsOf w = (None, None, None)
  /\ (containerChildren (browser w), bodyChildren (browser w))
     = (if container then ([FallbackPanel], []) else ([], [FallbackPanel])).
Proof.
  intros H w0 w.
  destruct (construct_unsupported env container width height docHeight H) as [Hinert Hcalls].
  split; [exact Hcalls|].
  pose proof (run_inert container es w0 Hinert) as (Hviz & _ & _ & _ & Hch & Hc).
  fold w in Hviz, Hch, Hc.
  unfold cameraOf, particlesOf, objectsOf. rewrite Hviz. cbn.
  repeat split; assumption.
Qed.

Lemma fallback_when_unsupported_witness :
  let w0 := construct (mkEnv false false true (fun _ => 0.5)) (pageLoad false 1280 720 3000) in
  let w := run [EvScroll 10 3000; EvVisibility true; EvVisibility false;
                EvFrame 1; EvResize 800 600; EvBeforeUnload] w0 in
  calls (browser w0) = [m_handleWebGLFallback; m_isWebGLSupported; m_init; m_detectMobile]
  /\ Forall (fun m => constructs m = false) (calls (browser w))
  /\ cameraOf w = None
  /\ particlesOf w = (None, [])
  /\ objectsOf w = (None, None, None)
  /\ (containerChildren (browser w), bodyChildren (browser w)) = ([], [FallbackPanel]).
Proof.
  apply (fallback_when_unsupported (mkEnv false false true (fun _ => 0.5))
           false 1280 720 3000).
  reflexivity.
Defined.

End Fallback.

(** ** Retries of [API.request] *)

Module Retry.
Import Api.
Local Open Scope Z_scope.

Lemma fetchCount_app t t' : fetchCount (t ++ t') = (fetchCount t + fetchCount t')%nat.
Proof. unfold fetchCount. now rewrite List.filter_app, length_app. Qed.

(** The body of [request], clause by clause. *)
Lemma request_unfold P method endpoint data retries t :
  request P method endpoint data retries t
  = let fetch := Fetch (apiEndpoint P ++ endpoint) method
                   (if truthy (Val data) then Some (stringify P data) else None) in
    match settle (network P (fetchCount t)) with
    | inr j => (inr j, t ++ [fetch])
    | inl e =>
        if Z_lt_dec retries maxRetries
        then request P method endpoint data (retries + 1)
               (t ++ [fetch; Warn (retries + 1) e; Sleep retryDelay])
        else (inl e, t ++ [fetch; LogError e])
    end.
Proof.
  simp request. cbv zeta.
  destruct (settle (network P (fetchCount t))) as [e|j]; simp request; [|reflexivity].
  destruct (Z_lt_dec retries maxRetries); simp request; reflexivity.
Qed.

(** Every call fetches at least once and at most once more than the
    retries it has left. *)
Lemma request_fetches P method endpoint data retries t :
  (fetchCount t + 1 <= fetchCount (snd (request P method endpoint data retries t))
   <= fetchCount t + 1 + Z.to_nat (maxRetries - retries))%nat.
Proof.
  remember (Z.to_nat (maxRetries - retries)) as n eqn:Hn.
  revert retries t Hn.
  induction n as [|n IH]; intros retries t Hn; rewrite request_unfold; cbv zeta;
    destruct (settle (network P (fetchCount t))) as [e|j]; cbn [snd];
    try (rewrite fetchCount_app; cbn; lia);
    destruct (Z_lt_dec retries maxRetries) as [Hlt|Hge]; cbn [snd];
    try (rewrite fetchCount_app; cbn; lia).
  - exfalso. lia.
  - specialize (IH (retries + 1) (t ++ [Fetch (apiEndpoint P ++ endpoint) method
                     (if truthy (Val data) then Some (stringify P data) else None);
                   Warn (retries + 1) e; Sleep retryDelay]) ltac:(lia)).
    rewrite fetchCount_app in IH.
    change (fetchCount [_; Warn _ _; Sleep _]) with 1%nat in IH. lia.
Qed.

(** One more failed attempt on the way. *)
Ltac attempt Hfail :=
  rewrite request_unfold; cbv zeta;
  cbn [app fetchCount List.filter isFetch List.length];
  first [ rewrite Hfail by lia
        | idtac ];
  try match goal with
      | |- context [Z_lt_dec ?r maxRetries] =>
          destruct (Z_lt_dec r maxRetries); [|unfold maxRetries in *; lia]
      end.

(** C9: [API.request], called with its default [retries = 0], fetches at
    most 1 + maxRetries = 4 times.  An attempt that succeeds returns the
    parsed body at once; after a failed attempt with retries left the call
    warns, waits [retryDelay] and tries again; when the fourth attempt
    fails as well the call logs and rethrows that last error. *)
Theorem request_retry_policy (P : Platform) (method endpoint : string) (data : json)
    (errs : nat -> error) :
  let fetch := Fetch (apiEndpoint P ++ endpoint) method
                 (if truthy (Val data) then Some (stringify P data) else None) in
  let failed k :=
    flat_map (fun i => [fetch; Warn (Z.of_nat i + 1) (errs i); Sleep retryDelay])
             (seq 0 k) in
  (fetchCount (snd (request P method endpoint data 0 [])) <= 1 + Z.to_nat maxRetries)%nat
  /\ (1 + Z.to_nat maxRetries = 4)%nat
  /\ (forall k j,
        (k <= 3)%nat ->
        (forall i, (i < k)%nat -> settle (network P i) = inl (errs i)) ->
        settle (network P k) = inr j ->
        request P method endpoint data 0 [] = (inr j, failed k ++ [fetch]))
  /\ ((forall i, (i <= 3)%nat -> settle (network P i) = inl (errs i)) ->
      request P method endpoint data 0 []
      = (inl (errs 3%nat), failed 3%nat ++ [fetch; LogError (errs 3%nat)])).
Proof.
  intros fetch failed. split; [|split; [reflexivity|split]].
  - pose proof (request_fetches P method endpoint data 0 []) as H.
    change (fetchCount []) with 0%nat in H.
    replace (maxRetries - 0) with maxRetries in H by lia. lia.
  - intros k j Hk Hfail Hok.
    destruct k as [|[|[|[|k]]]]; try lia.
    + attempt Hfail. rewrite Hok. reflexivity.
    + attempt Hfail. attempt Hfail. rewrite Hok. reflexivity.
    + attempt Hfail. attempt Hfail. attempt Hfail. rewrite Hok. reflexivity.
    + attempt Hfail. attempt Hfail. attempt Hfail. attempt Hfail.
      rewrite Hok. reflexivity.
  - intros Hfail.
    attempt Hfail. attempt Hfail. attempt Hfail.
    rewrite request_unfold; cbv zeta.
    cbn [app fetchCount List.filter isFetch List.length].
    rewrite Hfail by lia.
    destruct (Z_lt_dec (0 + 1 + 1 + 1) maxRetries); [unfold maxRetries in *; lia|].
    reflexivity.
Qed.

Lemma request_retry_policy_witness :
  Api.post SampleNet.flaky "/contact" (JObj [("name"%string, JStr "Asha")]) []
  = (inr (JObj [("id"%string, JNum 7)]),
     [ Fetch "https://api.farmbridgetechnologies.com/v1/contact" "POST"
             (Some (RefJson.print (JObj [("name"%string, JStr "Asha")])));
       Warn 1 (NetworkError "Failed to fetch"); Sleep 1000;
       Fetch "https://api.farmbridgetechnologies.com/v1/contact" "POST"
             (Some (RefJson.print (JObj [("name"%string, JStr "Asha")])));
       Warn 2 (HttpError 503 "Service Unavailable"); Sleep 1000;
       Fetch "https://api.farmbridgetechnologies.com/v1/contact" "POST"
             (Some (RefJson.print (JObj [("name"%string, JStr "Asha")]))) ])
  /\ Api.get SampleNet.down "/status" []
     = (inl (HttpError 500 "Internal Server Error"),
        [ Fetch "https://api.farmbridgetechnologies.com/v1/status" "GET" None;
          Warn 1 (HttpError 500 "Internal Server Error"); Sleep 1000;
          Fetch "https://api.farmbridgetechnologies.com/v1/status" "GET" None;
          Warn 2 (HttpError 500 "Internal Server Error"); Sleep 1000;
          Fetch "https://api.farmbridgetechnologies.com/v1/status" "GET" None;
          Warn 3 (HttpError 500 "Internal Server Error"); Sleep 1000;
          Fetch "https://api.farmbridgetechnologies.com/v1/status" "GET" None;
          LogError (HttpError 500 "Internal Server Error") ]).
Proof.
  split.
  - apply (proj1 (proj2 (proj2 (request_retry_policy SampleNet.flaky "POST" "/contact"
                                  (JObj [("name"%string, JStr "Asha")])
                                  SampleNet.flakyErrors))) 2%nat).
    + lia.
    + intros [|[|i]] Hi; [reflexivity | reflexivity | lia].
    + reflexivity.
  - apply (proj2 (proj2 (proj2 (request_retry_policy SampleNet.down "GET" "/status"
                                  JNull SampleNet.downErrors)))).
    intros i _. reflexivity.
Defined.

End Retry.

(** ** [Storage.get] and [Storage.set] *)

Module Cache.
Import Store.
Local Open Scope Z_scope.

Lemma set_stores P now key value expiryMinutes st :
  set P now key value expiryMinutes st
  = (inr tt, mkState (<[key := stringify P (entry now value expiryMinutes)]> (localStorage st))
                     (console st)).
Proof.
  unfold set, setItem, entry.
  destruct expiryMinutes as [m|]; [destruct (truthy (Val (JNum m)))|]; reflexivity.
Qed.

Lemma get_total P now key st : exists v st', get P now key st = (inr v, st').
Proof.
  unfold get, bind, getItem, tryCatch, JSON_parse, remove, removeItem, logError, ret, throw.
  destruct (localStorage st !! key) as [[|c item]|]; try (eexists; eexists; reflexivity).
  destruct (parse P (String c item)) as [data|]; [|eexists; eexists; reflexivity].
  destruct data as [| | | | |members]; cbn; try (eexists; eexists; reflexivity).
  destruct (truthy _ && laterThan P now _); cbn; eexists; eexists; reflexivity.
Qed.

Ltac run_get :=
  unfold get, bind, getItem, tryCatch, JSON_parse, member, remove, removeItem,
    logError, ret, throw.

(** C10, amended: on a storage the page can reach, [Storage.get] never
    throws.  It returns [null] when the key is absent, when the stored text
    is not JSON, and when the stored entry carries an expiry other than 0
    that lies in the past, in which case it also removes the entry.
    Otherwise, for a value that [JSON.stringify] and [JSON.parse] carry
    unchanged, it returns the value given to [Storage.set]: a set followed
    by a get gives the value back as long as the entry has not expired. *)
Theorem storage_get (P : Platform) (now : Z) (key : string) (st : State) :
  (exists v st', get P now key st = (inr v, st'))
  /\ (localStorage st !! key = None -> get P now key st = (inr null, st))
  /\ (forall item,
        localStorage st !! key = Some item ->
        parse P item = None ->
        exists st', get P now key st = (inr null, st')
                    /\ localStorage st' = localStorage st)
  /\ (forall item members e,
        localStorage st !! key = Some item ->
        item <> EmptyString ->
        parse P item = Some (JObj members) ->
        assoc "expiry" members = Some (JNum e) ->
        e <> 0 -> e < now ->
        get P now key st
        = (inr null, mkState (base.delete key (localStorage st)) (console st)))
  /\ (forall value expiryMinutes setAt st0,
        st = snd (set P setAt key value expiryMinutes st0) ->
        parse P (stringify P (entry setAt value expiryMinutes))
        = Some (entry setAt value expiryMinutes) ->
        stringify P (entry setAt value expiryMinutes) <> EmptyString ->
        (forall m, expiryMinutes = Some m -> m <> 0 -> now <= setAt + m * 60 * 1000) ->
        get P now key st = (inr (Val value), st)).
Proof.
  split; [apply get_total|]. split; [|split; [|split]].
  - intros H. run_get. rewrite H. reflexivity.
  - intros item H Hparse. run_get. rewrite H.
    destruct item as [|c item]; [eexists; split; reflexivity|].
    rewrite Hparse. eexists. split; reflexivity.
  - intros item members e H Hne Hparse Hexp He Hlt. run_get. rewrite H.
    destruct item as [|c item]; [contradiction|].
    rewrite Hparse, Hexp. cbn.
    destruct (Z.eqb_spec e 0) as [|_]; [contradiction|].
    destruct (Z.gtb_spec now e) as [_|]; [|lia]. reflexivity.
  - intros value expiryMinutes setAt st0 -> Hparse Hne Hfresh.
    rewrite set_stores. cbn [snd]. run_get. cbn [localStorage].
    rewrite lookup_insert_eq.
    destruct (stringify P (entry setAt value expiryMinutes)) as [|c item] eqn:E;
      [contradiction|].
    rewrite Hparse. unfold entry.
    destruct expiryMinutes as [m|]; [|reflexivity].
    cbn [truthy]. destruct (Z.eqb_spec m 0) as [|Hm]; [reflexivity|].
    cbn [negb assoc String.eqb Ascii.eqb Bool.eqb truthy laterThan].
    specialize (Hfresh m eq_refl Hm).
    destruct (Z.eqb_spec (setAt + m * 60 * 1000) 0) as [|_]; [reflexivity|].
    destruct (Z.gtb_spec now (setAt + m * 60 * 1000)); [lia|]. reflexivity.
Qed.

Lemma storage_get_witness :
  (* a minute after the set, the event comes back *)
  get RefJson.storePlatform 1767000060000 "analytics_1" SampleStore.stored
  = (inr (Val SampleStore.event), SampleStore.stored)
  (* a day and a millisecond after, it has expired and is removed *)
  /\ get RefJson.storePlatform 1767086400001 "analytics_1" SampleStore.stored
     = (inr null,
        mkState (base.delete "analytics_1"%string (localStorage SampleStore.stored))
                (console SampleStore.stored))
  (* a key that was never set *)
  /\ get RefJson.storePlatform 1767000060000 "theme" SampleStore.stored
     = (inr null, SampleStore.stored)
  (* text that is not JSON *)
  /\ (exists st', get RefJson.storePlatform 1767000060000 "analytics_1" SampleStore.garbled
                  = (inr null, st')
                  /\ localStorage st' = localStorage SampleStore.garbled).
Proof.
  split; [|split; [|split]].
  - apply (proj2 (proj2 (proj2 (proj2
             (storage_get RefJson.storePlatform 1767000060000 "analytics_1"
                          SampleStore.stored))))
           SampleStore.event (Some 1440) 1767000000000 SampleStore.empty).
    + reflexivity.
    + vm_compute. reflexivity.
    + vm_compute. discriminate.
    + intros m Hm _. injection Hm as <-. lia.
  - apply (proj1 (proj2 (proj2 (proj2
             (storage_get RefJson.storePlatform 1767086400001 "analytics_1"
                          SampleStore.stored))))
           (RefJson.print (entry 1767000000000 SampleStore.event (Some 1440)))
           [("value"%string, SampleStore.event); ("expiry"%string, JNum 1767086400000)]
           1767086400000).
    + vm_compute. reflexivity.
    + vm_compute. discriminate.
    + vm_compute. reflexivity.
    + reflexivity.
    + lia.
    + lia.
  - apply (proj1 (proj2 (storage_get RefJson.storePlatform 1767000060000 "theme"
                                      SampleStore.stored))).
    vm_compute. reflexivity.
  - apply (proj1 (proj2 (proj2 (storage_get RefJson.storePlatform 1767000060000
                                             "analytics_1" SampleStore.garbled)))
           "{not json"%string).
    + vm_compute. reflexivity.
    + vm_compute. reflexivity.
Defined.

End Cache.

(** ** What comes back from the storage *)

Module Values.
Import Store StoreValues.
Local Open Scope string_scope.
Local Open Scope Z_scope.

(** C10, as stated, fails.  What [Storage.get] returns is what
    [JSON.parse] reads from what [JSON.stringify] wrote, and not always the
    value passed to [Storage.set]: [NaN] comes back as [null], a [Date] as
    a string, a [File] as an empty object.  And an entry whose expiry
    timestamp is 0 (set one minute after the epoch, to expire a minute
    before it was set) is kept and returned a minute later, though its
    timestamp lies in the past. *)
Lemma storage_get_changes_values :
  (exists v,
      fst (get RefJson.storePlatform 1767000060000 "draft"
             (snd (setValue RefJson.storePlatform 1767000000000 "draft" NotANumber None
                     SampleStore.empty)))
      = inr v
      /\ v = null /\ held v <> NotANumber)
  /\ (exists v,
      fst (get RefJson.storePlatform 1767000060000 "draft"
             (snd (setValue RefJson.storePlatform 1767000000000 "draft"
                     (DateValue "2025-12-29T09:20:00.000Z") None SampleStore.empty)))
      = inr v
      /\ v = Val (JStr "2025-12-29T09:20:00.000Z")
      /\ held v <> DateValue "2025-12-29T09:20:00.000Z")
  /\ (exists v,
      fst (get RefJson.storePlatform 1767000060000 "draft"
             (snd (setValue RefJson.storePlatform 1767000000000 "draft" FileValue (Some 60)
                     SampleStore.empty)))
      = inr v
      /\ v = Val (JObj []) /\ held v <> FileValue)
  /\ entry 60000 (JStr "hello") (Some (-1))
     = JObj [("value", JStr "hello"); ("expiry", JNum 0)]
  /\ get RefJson.storePlatform 120000 "draft"
       (snd (set RefJson.storePlatform 60000 "draft" (JStr "hello") (Some (-1))
               SampleStore.empty))
     = (inr (Val (JStr "hello")),
        snd (set RefJson.storePlatform 60000 "draft" (JStr "hello") (Some (-1))
               SampleStore.empty)).
Proof.
  split; [|split; [|split; [|split]]].
  - eexists. split; [vm_compute; reflexivity|]. split; [reflexivity | discriminate].
  - eexists. split; [vm_compute; reflexivity|]. split; [reflexivity | discriminate].
  - eexists. split; [vm_compute; reflexivity|]. split; [reflexivity | discriminate].
  - reflexivity.
  - vm_compute. reflexivity.
Qed.

End Values.

(** ** More on the scene *)

Module SceneMore.
Import Viz Sample ParticleFacts SceneFacts ParticleField Loop.
Local Open Scope R_scope.

Lemma createParticles_particlesOf env w :
  particlesOf (createParticles env w)
  = (Some (randomPositions (random env) (particleCount (viz w))),
     randomVelocities (random env) (particleCount (viz w))).
Proof. destruct env. open_world w. reflexivity. Qed.

Lemma entry_component (l : list R) j :
  nth j l 0 = component l (j / 3) (j mod 3).
Proof. unfold component. f_equal. apply Nat.div_mod_eq. Qed.

(** X1: [createParticles] fills two buffers of 3 * particleCount entries;
    with draws of [Math.random()] in [0,1), every position coordinate has
    magnitude at most 100 and every velocity component magnitude at most
    0.03. *)
Theorem createParticles_fills_box (env : Env) (w : World) (j : nat) :
  (forall k, 0 <= random env k < 1) ->
  (j < 3 * particleCount (viz w))%nat ->
  exists positions velocity,
    particlesOf (createParticles env w) = (Some positions, velocity)
    /\ length positions = (3 * particleCount (viz w))%nat
    /\ length velocity = (3 * particleCount (viz w))%nat
    /\ -100 <= nth j positions 0 <= 100
    /\ -0.03 <= nth j velocity 0 <= 0.03.
Proof.
  intros Hrnd Hj. eexists. eexists. split; [apply createParticles_particlesOf|].
  split; [apply randomPositions_length|]. split; [apply randomVelocities_length|].
  assert (Hi : (j / 3 < particleCount (viz w))%nat)
    by (apply Nat.Div0.div_lt_upper_bound; lia).
  assert (Hk : (j mod 3 < 3)%nat) by (apply Nat.mod_upper_bound; lia).
  rewrite !entry_component.
  rewrite randomPositions_component, randomVelocities_component by assumption.
  split.
  - pose proof (Hrnd (5 * (j / 3) + j mod 3)%nat). lra.
  - pose proof (Hrnd (5 * particleCount (viz w) + (3 * (j / 3) + j mod 3))%nat). lra.
Qed.

Lemma rnd0_range k : 0 <= rnd0 k < 1.
Proof.
  unfold rnd0.
  destruct (Nat.eqb k 0); [lra|]. destruct (Nat.eqb k 1); [lra|].
  destruct (Nat.eqb k 2500); [lra|]. destruct (Nat.eqb k 2501); lra.
Qed.

Lemma createParticles_fills_box_witness :
  exists positions velocity,
    particlesOf (createParticles env0 (mkWorld (viz world0) page0))
    = (Some positions, velocity)
    /\ length positions = (3 * particleCount (viz (mkWorld (viz world0) page0)))%nat
    /\ length velocity = (3 * particleCount (viz (mkWorld (viz world0) page0)))%nat
    /\ -100 <= nth 1 positions 0 <= 100
    /\ -0.03 <= nth 1 velocity 0 <= 0.03.
Proof.
  apply (createParticles_fills_box env0 (mkWorld (viz world0) page0) 1).
  - exact rnd0_range.
  - unfold particleCount. destruct (isMobile _); lia.
Defined.

(** *** The loop, frame after frame *)

Lemma cancel_fields id w :
  viz (cancelAnimationFrame id w) = viz w
  /\ frameRequests (browser (cancelAnimationFrame id w))
     = List.filter (fun j => negb (Nat.eqb j id)) (frameRequests (browser w))
  /\ nextRequestId (browser (cancelAnimationFrame id w)) = nextRequestId (browser w)
  /\ listeners (browser (cancelAnimationFrame id w)) = listeners (browser w).
Proof. open_world w. repeat split. Qed.

Lemma animate_renderer w :
  renderer (viz (animate w))
  = option_map (fun r => mkRenderer (size r) (S (rendered r)) (disposed r))
               (renderer (viz w)).
Proof. open_world w. cases; reflexivity. Qed.

Lemma nextFrame_animate w id rest :
  frameRequests (browser w) = id :: rest ->
  nextFrame w = animate (cancelAnimationFrame id w).
Proof.
  intros H. unfold nextFrame. rewrite H.
  apply deliver_frame. rewrite H. now left.
Qed.

Lemma running_step id w : running id w -> running (S id) (nextFrame w).
Proof.
  intros (Hfr & Hid & Hnext).
  rewrite (nextFrame_animate w id [] Hfr).
  destruct (cancel_fields id w) as (Hv & Hf & Hn & _).
  destruct (animate_browser (cancelAnimationFrame id w)) as (Hf' & Hn' & _).
  destruct (animate_instance (cancelAnimationFrame id w)) as (Hid' & _).
  unfold running. rewrite Hf', Hn', Hid', Hf, Hn, Hfr, Hnext.
  cbn [List.filter]. rewrite Nat.eqb_refl. repeat split.
Qed.

Lemma nextFrame_scene w :
  frameRequests (browser w) <> [] ->
  objectsOf (nextFrame w)
  = (option_map spinTorus (torus (viz w)), octahedron (viz w), cube (viz w))
  /\ cameraOf (nextFrame w) = cameraOf w
  /\ renderer (viz (nextFrame w))
     = option_map (fun r => mkRenderer (size r) (S (rendered r)) (disposed r))
                  (renderer (viz w))
  /\ listeners (browser (nextFrame w)) = listeners (browser w)
  /\ initialized (viz (nextFrame w)) = initialized (viz w)
  /\ scrollProgress (viz (nextFrame w)) = scrollProgress (viz w).
Proof.
  intros Hrun. destruct (frameRequests (browser w)) as [|id rest] eqn:E; [contradiction|].
  rewrite (nextFrame_animate w id rest E).
  destruct (cancel_fields id w) as (Hv & _ & _ & Hl).
  rewrite animate_objects, animate_camera, animate_renderer.
  destruct (animate_browser (cancelAnimationFrame id w)) as (_ & _ & Hl' & _).
  destruct (animate_instance (cancelAnimationFrame id w)) as (_ & Hi & Hs).
  rewrite Hl', Hi, Hs, Hl. unfold cameraOf. rewrite Hv. repeat split.
Qed.

(** X2: once the loop runs, it keeps running by itself: after any number
    of frames exactly one frame request is pending, it is the one
    [animationId] remembers, every frame has drawn the scene once, and
    no subscription has been added or dropped. *)
Theorem loop_keeps_one_request (w : World) (id n : nat) :
  running id w ->
  running (id + n) (frames n w)
  /\ option_map rendered (renderer (viz (frames n w)))
     = option_map (fun r => (rendered r + n)%nat) (renderer (viz w))
  /\ listeners (browser (frames n w)) = listeners (browser w)
  /\ initialized (viz (frames n w)) = initialized (viz w).
Proof.
  intros Hrun. induction n as [|n (IH & Hr & Hl & Hi)].
  - rewrite Nat.add_0_r. cbn [frames].
    split; [exact Hrun|]. split; [|split; reflexivity].
    destruct (renderer (viz w)) as [r|]; cbn [option_map]; [|reflexivity].
    now rewrite Nat.add_0_r.
  - cbn [frames].
    assert (Hne : frameRequests (browser (frames n w)) <> [])
      by (destruct IH as [-> _]; discriminate).
    destruct (nextFrame_scene (frames n w) Hne) as (_ & _ & Hr' & Hl' & Hi' & _).
    split; [|split; [|split]].
    + replace (id + S n)%nat with (S (id + n)) by lia. now apply running_step.
    + rewrite Hr'. destruct (renderer (viz (frames n w))) as [r|];
        destruct (renderer (viz w)) as [r0|]; cbn [option_map rendered] in *;
        try discriminate; [|reflexivity].
      injection Hr as Hr. rewrite Hr. f_equal. lia.
    + congruence.
    + congruence.
Qed.

Lemma construct_running env b :
  envWebGL env = true -> envThree env = true ->
  frameRequests b = [] ->
  running (nextRequestId b) (construct env b).
Proof.
  intros Hgl Hthree Hfr. destruct env as [mobile webgl three rnd]. cbn in *. subst.
  destruct b as [ls fr nx hc cc bc iw ih sy dh hid cl]. cbn in Hfr. subst.
  unfold running. methods.
  destruct (updateParticlesLoop _ _) as [ps vs].
  destruct hc; methods; repeat split.
Qed.

Lemma world0_is_running : running 1 world0.
Proof. exact (construct_running env0 page0 eq_refl eq_refl eq_refl). Qed.

Lemma loop_keeps_one_request_witness :
  running (1 + 3) (frames 3 world0)
  /\ option_map rendered (renderer (viz (frames 3 world0)))
     = option_map (fun r => (rendered r + 3)%nat) (renderer (viz world0))
  /\ listeners (browser (frames 3 world0)) = listeners (browser world0)
  /\ initialized (viz (frames 3 world0)) = initialized (viz world0).
Proof. apply (loop_keeps_one_request world0 1 3). exact world0_is_running. Defined.

Lemma frames_running w n :
  frameRequests (browser w) <> [] -> frameRequests (browser (frames n w)) <> [].
Proof.
  intros H. induction n as [|n IH]; [exact H|]. cbn [frames]. now apply nextFrame_running.
Qed.

Lemma animate_points_rotation w :
  option_map ptsRotation (particleSystem (viz (animate w)))
  = option_map (fun ps => ptsRotation (spinPoints ps)) (particleSystem (viz w)).
Proof. open_world w. cases; reflexivity. Qed.

Lemma nextFrame_points_rotation w :
  frameRequests (browser w) <> [] ->
  option_map ptsRotation (particleSystem (viz (nextFrame w)))
  = option_map (fun ps => ptsRotation (spinPoints ps)) (particleSystem (viz w)).
Proof.
  intros Hrun. destruct (frameRequests (browser w)) as [|id rest] eqn:E; [contradiction|].
  rewrite (nextFrame_animate w id rest E), animate_points_rotation.
  now rewrite (proj1 (cancel_fields id w)).
Qed.

Lemma spinTorus_keeps t :
  option_map position (option_map spinTorus t) = option_map position t
  /\ option_map (fun m => z_ (rotation m)) (option_map spinTorus t)
     = option_map (fun m => z_ (rotation m)) t
  /\ option_map meshDisposed (option_map spinTorus t) = option_map meshDisposed t.
Proof. destruct t as [[p r d]|]; repeat split. Qed.

(** X3: frames move no object.  After [n] frames the torus, the
    octahedron and the cube stand where they stood and the camera is what
    it was (those move on scroll signals only); the octahedron and the cube
    have not turned, and the torus and the particle system have turned
    about x and y only. *)
Theorem frames_move_no_object (w : World) (n : nat) :
  frameRequests (browser w) <> [] ->
  option_map position (torus (viz (frames n w))) = option_map position (torus (viz w))
  /\ option_map (fun m => z_ (rotation m)) (torus (viz (frames n w)))
     = option_map (fun m => z_ (rotation m)) (torus (viz w))
  /\ option_map (fun ps => z_ (ptsRotation ps)) (particleSystem (viz (frames n w)))
     = option_map (fun ps => z_ (ptsRotation ps)) (particleSystem (viz w))
  /\ octahedron (viz (frames n w)) = octahedron (viz w)
  /\ cube (viz (frames n w)) = cube (viz w)
  /\ cameraOf (frames n w) = cameraOf w.
Proof.
  intros Hrun. induction n as [|n (Ht & Hz & Hp & Ho & Hc & Hcam)].
  - cbn [frames]. repeat split.
  - cbn [frames].
    pose proof (frames_running w n Hrun) as Hne.
    destruct (nextFrame_scene (frames n w) Hne) as (Hobj & Hcam' & _).
    apply objectsOf_fields in Hobj. destruct Hobj as (Ht' & Ho' & Hc').
    destruct (spinTorus_keeps (torus (viz (frames n w)))) as (K1 & K2 & _).
    rewrite Ht', Ho', Hc', Hcam', K1, K2, Ht, Hz, Ho, Hc, Hcam.
    repeat split.
    pose proof (nextFrame_points_rotation (frames n w) Hne) as Hrot.
    rewrite <- Hp.
    destruct (particleSystem (viz (nextFrame (frames n w)))) as [ps'|];
      destruct (particleSystem (viz (frames n w))) as [ps|];
      cbn [option_map] in *; try discriminate; [|reflexivity].
    injection Hrot as ->. destruct ps. reflexivity.
Qed.

Lemma frames_move_no_object_witness :
  option_map position (torus (viz (frames 2 world0)))
  = option_map position (torus (viz world0))
  /\ option_map (fun m => z_ (rotation m)) (torus (viz (frames 2 world0)))
     = option_map (fun m => z_ (rotation m)) (torus (viz world0))
  /\ option_map (fun ps => z_ (ptsRotation ps)) (particleSystem (viz (frames 2 world0)))
     = option_map (fun ps => z_ (ptsRotation ps)) (particleSystem (viz world0))
  /\ octahedron (viz (frames 2 world0)) = octahedron (viz world0)
  /\ cube (viz (frames 2 world0)) = cube (viz world0)
  /\ cameraOf (frames 2 world0) = cameraOf world0.
Proof.
  apply (frames_move_no_object world0 2). exact (proj1 world0_running).
Defined.

(** *** Horizontal motion stays at the box *)

Lemma bouncing_step V p v :
  bouncing V p v -> bouncing V (p + v) (bounce (p + v) v).
Proof.
  unfold bouncing, bounce, beyond. intros (Hv & Hp & Hin).
  destruct (Rlt_dec 100 (Rabs (p + v))) as [Hout|Hins].
  - destruct Hin as [Hin|Hin]; [|lra].
    replace (p + v + v * -1) with p by lra.
    repeat split.
    + rewrite <- Hv. replace (v * -1) with (- v) by lra. apply Rabs_Ropp.
    + rewrite <- Hv. apply Rle_trans with (Rabs p + Rabs v);
        [apply Rabs_triang | lra].
    + now right.
  - repeat split; [exact Hv | |left; lra].
    pose proof (Rabs_pos v). lra.
Qed.

Lemma bouncing_start V p v : Rabs v = V -> Rabs p <= 100 -> bouncing V p v.
Proof.
  intros Hv Hp. repeat split; [exact Hv | | now left].
  pose proof (Rabs_pos v). lra.
Qed.

Lemma first_tick_bouncing env i k :
  (forall j, 0 <= random env j < 1) ->
  (i < if envMobile env then 500 else 1000)%nat ->
  k = 0%nat \/ k = 2%nat ->
  bouncing (Rabs (component (randomVelocities (random env)
                               (if envMobile env then 500 else 1000)) i k))
           (component (fst (firstTick env)) i k)
           (component (snd (firstTick env)) i k).
Proof.
  intros Hrnd Hi Hk. unfold firstTick.
  set (N := if envMobile env then 500%nat else 1000%nat) in *.
  destruct (updateParticlesLoop _ _) as [ps vs] eqn:E. cbn [fst snd].
  assert (Hl : length (randomPositions (random env) N)
               = length (randomVelocities (random env) N))
    by now rewrite randomPositions_length, randomVelocities_length.
  assert (Hr : (3 * i + 2 < length (randomPositions (random env) N))%nat)
    by (rewrite randomPositions_length; lia).
  destruct (loop_component i _ _ _ _ Hl Hr E) as (Hpos & H0 & _ & H2).
  assert (Hk3 : (k < 3)%nat) by lia.
  assert (Hv : component vs i k
               = bounce (component ps i k)
                        (component (randomVelocities (random env) N) i k))
    by (destruct Hk as [-> | ->]; assumption).
  rewrite Hv, (Hpos k Hk3).
  apply bouncing_step, bouncing_start; [reflexivity|].
  rewrite randomPositions_component by assumption.
  pose proof (Hrnd (5 * i + k)%nat). apply Rabs_le. lra.
Qed.

(** X4: on the two horizontal axes a particle of a scene built by [init]
    stays at the box: at every frame its coordinate has magnitude below
    100.03, and its speed is the one it had when the scene was built, below
    0.03. *)
Theorem horizontal_motion_stays_at_box (env : Env) (b : Browser) (i k n : nat) :
  envWebGL env = true -> envThree env = true ->
  frameRequests b = [] ->
  (forall j, 0 <= random env j < 1) ->
  (i < if envMobile env then 500 else 1000)%nat ->
  k = 0%nat \/ k = 2%nat ->
  Rabs (positionAt (frames n (construct env b)) i k) <= 100.03
  /\ Rabs (velocityAt (frames n (construct env b)) i k)
     = Rabs (velocityAt (construct env b) i k)
  /\ Rabs (velocityAt (frames n (construct env b)) i k) <= 0.03.
Proof.
  intros Hgl Hthree Hfr Hrnd Hi Hk.
  set (N := if envMobile env then 500%nat else 1000%nat) in *.
  set (V := Rabs (component (randomVelocities (random env) N) i k)).
  assert (HV : V <= 0.025).
  { unfold V. rewrite randomVelocities_component by (try assumption; lia).
    pose proof (Hrnd (5 * N + (3 * i + k))%nat). apply Rabs_le. lra. }
  destruct (construct_supported env b Hgl Hthree) as (Hp & _).
  destruct (construct_running env b Hgl Hthree Hfr) as (Hreq & _).
  assert (Hrun : frameRequests (browser (construct env b)) <> [])
    by (rewrite Hreq; discriminate).
  destruct (firstTick_lengths env) as [Hlen Hsize].
  assert (Hrange : (3 * i + 2 < length (fst (firstTick env)))%nat).
  { unfold firstTick. fold N.
    destruct (updateParticlesLoop _ _) as [ps vs] eqn:E. cbn [fst].
    apply loop_length in E as [E _];
      [|now rewrite randomPositions_length, randomVelocities_length].
    rewrite E, randomPositions_length. lia. }
  assert (Hinv : forall m, bouncing V (positionAt (frames m (construct env b)) i k)
                                      (velocityAt (frames m (construct env b)) i k)).
  { induction m as [|m IH].
    - cbn [frames]. unfold positionAt, velocityAt. rewrite Hp. cbn [fst snd].
      now apply first_tick_bouncing.
    - cbn [frames].
      destruct (frames_buffers (construct env b) _ _ m Hrun Hp Hlen)
        as (ps & vs & Hn & Hl & Hl' & Hr).
      destruct (frame_axis (frames m (construct env b)) ps vs i k Hr Hn Hl
                  ltac:(lia) ltac:(lia)) as [Hpos Hvel].
      assert (Hg : gravityOn k = 0) by (destruct Hk as [-> | ->]; reflexivity).
      rewrite Hg in Hvel. rewrite Hvel, Hpos.
      replace (bounce _ _ - 0)
        with (bounce (positionAt (frames m (construct env b)) i k
                      + velocityAt (frames m (construct env b)) i k)
                     (velocityAt (frames m (construct env b)) i k)) by lra.
      now apply bouncing_step. }
  destruct (Hinv n) as (Hv & Hpos & _).
  destruct (Hinv 0%nat) as (Hv0 & _). cbn [frames] in Hv0.
  repeat split; [lra | now rewrite Hv, Hv0 | lra].
Qed.

Lemma horizontal_motion_stays_at_box_witness :
  Rabs (positionAt (frames 5 (construct env0 page0)) 0 0) <= 100.03
  /\ Rabs (velocityAt (frames 5 (construct env0 page0)) 0 0)
     = Rabs (velocityAt (construct env0 page0) 0 0)
  /\ Rabs (velocityAt (frames 5 (construct env0 page0)) 0 0) <= 0.03.
Proof.
  apply (horizontal_motion_stays_at_box env0 page0 0 0 5).
  - reflexivity.
  - reflexivity.
  - reflexivity.
  - exact rnd0_range.
  - cbn. lia.
  - left. reflexivity.
Defined.

(** *** Visibility, resume and destroy *)

Ltac open_running w :=
  destruct w as [[sc cam rd psys vel tor oct cub mob sp ini aid]
                 [ls fr nx hc cc bc iw ih sy dh hid cl]];
  cbn [viz browser listeners frameRequests nextRequestId animationId initialized] in *.

Lemma run_frames_nothing_pending w ids :
  frameRequests (browser w) = [] -> run (map EvFrame ids) w = w.
Proof.
  intros H. induction ids as [|j ids IH]; [reflexivity|].
  cbn [map]. unfold run in *. cbn [fold_left].
  rewrite deliver_frame_absent; [exact IH|]. rewrite H. intros [].
Qed.

(** X7: when the page gets hidden while the loop runs, the one pending
    frame request is cancelled and the instance is left exactly as it was;
    frames fired afterwards find nothing to run. *)
Theorem hidden_page_is_frozen (w : World) (id : nat) (ids : list nat) :
  listeners (browser w) = [BeforeUnload; Resize; VisibilityChange; Scroll] ->
  running (S id) w ->
  frameRequests (browser (run (EvVisibility true :: map EvFrame ids) w)) = []
  /\ viz (run (EvVisibility true :: map EvFrame ids) w) = viz w.
Proof.
  intros Hl (Hfr & Hid & Hnx).
  assert (H : frameRequests (browser (deliver (EvVisibility true) w)) = []
              /\ viz (deliver (EvVisibility true) w) = viz w).
  { open_running w. subst. methods. cbn [List.filter].
    rewrite Nat.eqb_refl. split; reflexivity. }
  destruct H as [Hnone Hviz].
  change (run (EvVisibility true :: map EvFrame ids) w)
    with (run (map EvFrame ids) (deliver (EvVisibility true) w)).
  rewrite (run_frames_nothing_pending _ ids Hnone). split; assumption.
Qed.

Lemma hidden_page_is_frozen_witness :
  frameRequests (browser (run (EvVisibility true :: map EvFrame [1; 2; 1]%nat) world0)) = []
  /\ viz (run (EvVisibility true :: map EvFrame [1; 2; 1]%nat) world0) = viz world0.
Proof.
  apply (hidden_page_is_frozen world0 0 [1; 2; 1]%nat).
  - exact (proj1 (proj2 (proj2 (proj2 world0_facts)))).
  - exact world0_is_running.
Defined.

(** X8: [resume] does not look at whether the loop already runs.  Called
    on a running instance it runs a tick and requests a second frame; the
    instance remembers the new request only, so that a [pause] after it
    cancels that one and leaves the older request pending: the loop goes
    on. *)
Theorem resume_twice_doubles_the_loop (w : World) (id : nat) :
  running (S id) w ->
  initialized (viz w) = true ->
  frameRequests (browser (resume w)) = [S id; S (S id)]
  /\ particlesOf (resume w) = tick w
  /\ frameRequests (browser (pause (resume w))) = [S id]
  /\ particlesOf (nextFrame (pause (resume w))) = tick (resume w)
  /\ frameRequests (browser (nextFrame (pause (resume w)))) <> [].
Proof.
  intros (Hfr & Hid & Hnx) Hini.
  assert (H1 : frameRequests (browser (resume w)) = [S id; S (S id)]
               /\ animationId (viz (resume w)) = Some (S (S id))).
  { clear -Hfr Hnx Hini. open_running w. subst. methods. cases; split; reflexivity. }
  destruct H1 as [Hfr1 Hid1].
  assert (H2 : particlesOf (resume w) = tick w).
  { clear -Hini. unfold tick. open_running w. subst. methods. cases; reflexivity. }
  assert (H3 : frameRequests (browser (pause (resume w))) = [S id]).
  { rewrite (pause_frames _ _ Hid1), Hfr1. cbn [List.filter Nat.eqb negb].
    rewrite Nat.eqb_refl.
    destruct (Nat.eqb id (S id)) eqn:E; [apply Nat.eqb_eq in E; lia | reflexivity]. }
  repeat split; try assumption.
  - rewrite (nextFrame_animate _ _ _ H3), animate_particlesOf.
    unfold tick. rewrite (proj1 (cancel_fields _ _)), pause_viz. reflexivity.
  - apply nextFrame_running. rewrite H3. discriminate.
Qed.

Lemma resume_twice_doubles_the_loop_witness :
  frameRequests (browser (resume world0)) = [1; 2]%nat
  /\ particlesOf (resume world0) = tick world0
  /\ frameRequests (browser (pause (resume world0))) = [1%nat]
  /\ particlesOf (nextFrame (pause (resume world0))) = tick (resume world0)
  /\ frameRequests (browser (nextFrame (pause (resume world0)))) <> [].
Proof.
  apply (resume_twice_doubles_the_loop world0 0).
  - exact world0_is_running.
  - exact (proj1 (proj2 (proj2 (proj2 (proj2 (proj2 (proj2 world0_facts))))))).
Defined.

(** X9: [destroy] does not clear [initialized].  When the page becomes
    visible after the instance was destroyed, [resume] runs a tick on the
    disposed scene, moving the particles, and requests a frame: the loop
    is back. *)
Theorem visible_after_destroy_restarts (w : World) (id : nat) :
  listeners (browser w) = [BeforeUnload; Resize; VisibilityChange; Scroll] ->
  running (S id) w ->
  initialized (viz w) = true ->
  particlesOf (deliver (EvVisibility false) (destroy w)) = tick w
  /\ frameRequests (browser (deliver (EvVisibility false) (destroy w))) = [S (S id)]
  /\ option_map disposed (renderer (viz (deliver (EvVisibility false) (destroy w))))
     = option_map (fun _ => true) (renderer (viz w))
  /\ option_map rendered (renderer (viz (deliver (EvVisibility false) (destroy w))))
     = option_map (fun r => S (rendered r)) (renderer (viz w)).
Proof.
  intros Hl (Hfr & Hid & Hnx) Hini. unfold tick.
  open_running w. subst. methods. cbn [List.filter]. rewrite Nat.eqb_refl. cbn [negb].
  cases; repeat split.
Qed.

Lemma visible_after_destroy_restarts_witness :
  particlesOf (deliver (EvVisibility false) (destroy world0)) = tick world0
  /\ frameRequests (browser (deliver (EvVisibility false) (destroy world0))) = [2%nat]
  /\ option_map disposed (renderer (viz (deliver (EvVisibility false) (destroy world0))))
     = option_map (fun _ => true) (renderer (viz world0))
  /\ option_map rendered (renderer (viz (deliver (EvVisibility false) (destroy world0))))
     = option_map (fun r => S (rendered r)) (renderer (viz world0)).
Proof.
  apply (visible_after_destroy_restarts world0 0).
  - exact (proj1 (proj2 (proj2 (proj2 world0_facts)))).
  - exact world0_is_running.
  - exact (proj1 (proj2 (proj2 (proj2 (proj2 (proj2 (proj2 world0_facts))))))).
Defined.

End SceneMore.

(** ** More on [API.request] *)

Module RetryMore.
Import Api Retry.
Local Open Scope Z_scope.

Lemma failed_attempts_shift (fetch : io) (retries : Z) (errs : nat -> error) (e : error) k :
  flat_map (fun i => [fetch; Warn (retries + Z.of_nat i + 1)
                                  (match i with O => e | S i => errs i end);
                      Sleep retryDelay]) (seq 1 k)
  = flat_map (fun i => [fetch; Warn (retries + 1 + Z.of_nat i + 1) (errs i);
                        Sleep retryDelay]) (seq 0 k).
Proof.
  rewrite <- seq_shift, flat_map_concat_map, map_map, <- flat_map_concat_map.
  apply flat_map_ext. intros i. do 2 f_equal. f_equal. lia.
Qed.

(** X10: [API.request] from any value of [retries], after any earlier
    traffic and on any network: it makes k + 1 identical fetches, where the
    first k fail and k is at most the retries left, [maxRetries - retries]
    (none when [retries] is 3 or more); each failed attempt but the last is
    followed by one warning, numbered from [retries + 1], and one wait of
    [retryDelay]; the result is the outcome of the last fetch, and a
    rejection is logged once, after every retry has been used. *)
Theorem request_trace (P : Platform) (method endpoint : string) (data : json)
    (retries : Z) (t : list io) :
  exists (k : nat) (errs : nat -> error),
    (k <= Z.to_nat (maxRetries - retries))%nat
    /\ (forall i, (i < k)%nat -> settle (network P (fetchCount t + i)) = inl (errs i))
    /\ fst (request P method endpoint data retries t)
       = settle (network P (fetchCount t + k))
    /\ snd (request P method endpoint data retries t)
       = t ++ flat_map (fun i => [Fetch (apiEndpoint P ++ endpoint) method
                                    (if truthy (Val data) then Some (stringify P data)
                                     else None);
                                  Warn (retries + Z.of_nat i + 1) (errs i);
                                  Sleep retryDelay]) (seq 0 k)
           ++ Fetch (apiEndpoint P ++ endpoint) method
                (if truthy (Val data) then Some (stringify P data) else None)
              :: match fst (request P method endpoint data retries t) with
                 | inl e => [LogError e]
                 | inr _ => []
                 end
    /\ (forall e, fst (request P method endpoint data retries t) = inl e ->
                  k = Z.to_nat (maxRetries - retries)).
Proof.
  remember (Z.to_nat (maxRetries - retries)) as n eqn:Hn.
  revert retries t Hn.
  induction n as [|n IH]; intros retries t Hn; rewrite request_unfold; cbv zeta.
  - destruct (settle (network P (fetchCount t))) as [e|j] eqn:E.
    + destruct (Z_lt_dec retries maxRetries) as [Hlt|Hge]; [lia|].
      exists 0%nat, (fun _ => e). rewrite Nat.add_0_r, E. cbn [fst snd seq flat_map app].
      split; [lia|]. split; [intros i Hi; lia|]. repeat split; reflexivity.
    + exists 0%nat, (fun _ => BodyError). rewrite Nat.add_0_r, E.
      cbn [fst snd seq flat_map app].
      split; [lia|]. split; [intros i Hi; lia|]. repeat split; reflexivity.
  - destruct (settle (network P (fetchCount t))) as [e|j] eqn:E.
    + destruct (Z_lt_dec retries maxRetries) as [Hlt|Hge]; [|lia].
      destruct (IH (retries + 1)
                  (t ++ [Fetch (apiEndpoint P ++ endpoint) method
                           (if truthy (Val data) then Some (stringify P data) else None);
                         Warn (retries + 1) e; Sleep retryDelay]) ltac:(lia))
        as (k & errs & Hk & Hfail & Hres & Htrace & Hlast).
      rewrite fetchCount_app in Hfail, Hres.
      change (fetchCount [_; Warn _ _; Sleep _]) with 1%nat in Hfail, Hres.
      exists (S k), (fun i => match i with O => e | S i => errs i end).
      split; [lia|]. split; [|split; [|split]].
      * intros [|i] Hi; [now rewrite Nat.add_0_r|].
        replace (fetchCount t + S i)%nat with (fetchCount t + 1 + i)%nat by lia.
        apply Hfail. lia.
      * rewrite Hres. do 2 f_equal. lia.
      * rewrite Htrace, <- app_assoc. f_equal.
        cbn [seq flat_map]. rewrite failed_attempts_shift.
        cbn [app]. do 2 f_equal. f_equal. lia.
      * intros e' He'. f_equal. now apply (Hlast e').
    + exists 0%nat, (fun _ => BodyError). rewrite Nat.add_0_r, E.
      cbn [fst snd seq flat_map app].
      split; [lia|]. split; [intros i Hi; lia|]. repeat split; try reflexivity.
      discriminate.
Qed.

Lemma request_trace_witness :
  exists (k : nat) (errs : nat -> error),
    (k <= Z.to_nat (maxRetries - 2))%nat
    /\ (forall i, (i < k)%nat ->
          settle (network SampleNet.flaky (fetchCount [] + i)) = inl (errs i))
    /\ fst (request SampleNet.flaky "PUT" "/profile" (JObj [("name"%string, JStr "Asha")])
              2 [])
       = settle (network SampleNet.flaky (fetchCount [] + k))
    /\ snd (request SampleNet.flaky "PUT" "/profile" (JObj [("name"%string, JStr "Asha")])
              2 [])
       = [] ++ flat_map (fun i => [Fetch (apiEndpoint SampleNet.flaky ++ "/profile") "PUT"
                                     (if truthy (Val (JObj [("name"%string, JStr "Asha")]))
                                      then Some (stringify SampleNet.flaky
                                                   (JObj [("name"%string, JStr "Asha")]))
                                      else None);
                                   Warn (2 + Z.of_nat i + 1) (errs i);
                                   Sleep retryDelay]) (seq 0 k)
            ++ Fetch (apiEndpoint SampleNet.flaky ++ "/profile") "PUT"
                 (if truthy (Val (JObj [("name"%string, JStr "Asha")]))
                  then Some (stringify SampleNet.flaky
                               (JObj [("name"%string, JStr "Asha")]))
                  else None)
               :: match fst (request SampleNet.flaky "PUT" "/profile"
                               (JObj [("name"%string, JStr "Asha")]) 2 []) with
                  | inl e => [LogError e]
                  | inr _ => []
                  end
    /\ (forall e, fst (request SampleNet.flaky "PUT" "/profile"
                         (JObj [("name"%string, JStr "Asha")]) 2 []) = inl e ->
                  k = Z.to_nat (maxRetries - 2)).
Proof.
  exact (request_trace SampleNet.flaky "PUT" "/profile"
           (JObj [("name"%string, JStr "Asha")]) 2 []).
Defined.

End RetryMore.

(** ** More on [Storage] *)

Module CacheMore.
Import Store Reads Cache.
Local Open Scope Z_scope.

(** X11: [Storage.get] leaves every other key alone.  It changes the
    storage only to remove the key it was asked for, and then answers
    [null] without logging an error; it logs at most one error, and then
    answers [null] and keeps the storage as it is. *)
Theorem get_frame (P : Platform) (now : Z) (key : string) (st : State) :
  (forall k, k <> key ->
     localStorage (snd (get P now key st)) !! k = localStorage st !! k)
  /\ (snd (get P now key st) = st
      \/ (snd (get P now key st)
          = mkState (base.delete key (localStorage st)) (console st)
          /\ fst (get P now key st) = inr null)
      \/ (exists e, snd (get P now key st)
                    = mkState (localStorage st) (console st ++ [e])
                    /\ fst (get P now key st) = inr null)).
Proof.
  run_get. destruct st as [ls cs]. cbn [localStorage console].
  destruct (ls !! key) as [[|c item]|]; cbn [fst snd localStorage];
    try (split; [reflexivity | left; reflexivity]).
  destruct (parse P (String c item)) as [data|]; cbn [fst snd localStorage console];
    [|split; [reflexivity | right; right; eexists; split; reflexivity]].
  destruct data as [| | | | |members]; cbn [fst snd localStorage console];
    try (split; [reflexivity | left; reflexivity]);
    try (split; [reflexivity | right; right; eexists; split; reflexivity]).
  destruct (truthy _ && laterThan P now _); cbn [fst snd localStorage console].
  - split; [|right; left; split; reflexivity].
    intros k Hk. now apply lookup_delete_ne.
  - split; [reflexivity | left; reflexivity].
Qed.

Lemma get_frame_witness :
  (forall k, k <> "analytics_1"%string ->
     localStorage (snd (get RefJson.storePlatform 1767086400001 "analytics_1"
                            SampleStore.stored)) !! k
     = localStorage SampleStore.stored !! k)
  /\ (snd (get RefJson.storePlatform 1767086400001 "analytics_1" SampleStore.stored)
      = SampleStore.stored
      \/ (snd (get RefJson.storePlatform 1767086400001 "analytics_1" SampleStore.stored)
          = mkState (base.delete "analytics_1"%string (localStorage SampleStore.stored))
                    (console SampleStore.stored)
          /\ fst (get RefJson.storePlatform 1767086400001 "analytics_1" SampleStore.stored)
             = inr null)
      \/ (exists e, snd (get RefJson.storePlatform 1767086400001 "analytics_1"
                             SampleStore.stored)
                    = mkState (localStorage SampleStore.stored)
                              (console SampleStore.stored ++ [e])
                    /\ fst (get RefJson.storePlatform 1767086400001 "analytics_1"
                                SampleStore.stored) = inr null)).
Proof.
  exact (get_frame RefJson.storePlatform 1767086400001 "analytics_1" SampleStore.stored).
Defined.

(** X12: keys are independent.  Writing or removing one key does not
    change what [Storage.get] answers for another, and the two calls can be
    swapped: the state is the same either way. *)
Theorem other_key_untouched (P : Platform) (now setAt : Z) (key key' : string)
    (value : json) (expiryMinutes : option Z) (st : State) :
  key <> key' ->
  get P now key' (snd (set P setAt key value expiryMinutes st))
  = (fst (get P now key' st),
     snd (set P setAt key value expiryMinutes (snd (get P now key' st))))
  /\ get P now key' (snd (remove key st))
     = (fst (get P now key' st), snd (remove key (snd (get P now key' st)))).
Proof.
  intros Hne. rewrite !set_stores. cbn [snd].
  unfold remove, removeItem. cbn [snd].
  run_get. destruct st as [ls cs]. cbn [localStorage console].
  rewrite lookup_insert_ne by exact Hne. rewrite lookup_delete_ne by exact Hne.
  destruct (ls !! key') as [[|c item]|]; cbn [fst snd localStorage console];
    try (split; reflexivity).
  destruct (parse P (String c item)) as [data|]; cbn [fst snd localStorage console];
    [|split; reflexivity].
  destruct data as [| | | | |members]; cbn [fst snd localStorage console];
    try (split; reflexivity).
  destruct (truthy _ && laterThan P now _); cbn [fst snd localStorage console];
    [|split; reflexivity].
  split; f_equal; f_equal.
  - apply delete_insert_ne. congruence.
  - apply delete_delete.
Qed.

Lemma other_key_untouched_witness :
  get RefJson.storePlatform 1767000060000 "analytics_1"
      (snd (set RefJson.storePlatform 1767000030000 "theme" (JStr "dark") None
                SampleStore.stored))
  = (fst (get RefJson.storePlatform 1767000060000 "analytics_1" SampleStore.stored),
     snd (set RefJson.storePlatform 1767000030000 "theme" (JStr "dark") None
              (snd (get RefJson.storePlatform 1767000060000 "analytics_1"
                        SampleStore.stored))))
  /\ get RefJson.storePlatform 1767000060000 "analytics_1"
         (snd (remove "theme" SampleStore.stored))
     = (fst (get RefJson.storePlatform 1767000060000 "analytics_1" SampleStore.stored),
        snd (remove "theme"
               (snd (get RefJson.storePlatform 1767000060000 "analytics_1"
                         SampleStore.stored)))).
Proof.
  apply (other_key_untouched RefJson.storePlatform 1767000060000 1767000030000
           "theme" "analytics_1" (JStr "dark") None SampleStore.stored).
  discriminate.
Defined.

(** X13: what [Storage.get] makes of stored text that parses but is no
    entry of [Storage.set].  The text [null] makes the property read throw:
    the error is logged, the answer is [null], the text stays.  Any other
    value that is not an object, and an object without [expiry] and
    [value], give [undefined], not [null], and nothing is logged. *)
Theorem foreign_entry (P : Platform) (now : Z) (key item : string) (st : State) :
  localStorage st !! key = Some item ->
  item <> EmptyString ->
  (parse P item = Some JNull ->
   get P now key st
   = (inr null, mkState (localStorage st) (console st ++ [TypeError])))
  /\ (forall data,
        parse P item = Some data ->
        data <> JNull ->
        (forall members,
           data = JObj members ->
           assoc "expiry" members = None /\ assoc "value" members = None) ->
        get P now key st = (inr Undefined, st)).
Proof.
  intros Hitem Hne. destruct item as [|c item]; [contradiction|].
  split.
  - intros Hparse. run_get. rewrite Hitem, Hparse. reflexivity.
  - intros data Hparse Hnull Hobj. run_get. rewrite Hitem, Hparse.
    destruct data as [| | | | |members]; try reflexivity; [contradiction|].
    destruct (Hobj members eq_refl) as [-> ->]. reflexivity.
Qed.

Lemma foreign_entry_witness :
  get RefJson.storePlatform 1767000060000 "theme" SampleForeign.nullText
  = (inr null, mkState (localStorage SampleForeign.nullText) [TypeError])
  /\ get RefJson.storePlatform 1767000060000 "theme" SampleForeign.arrayText
     = (inr Undefined, SampleForeign.arrayText)
  /\ get RefJson.storePlatform 1767000060000 "theme" SampleForeign.emptyObject
     = (inr Undefined, SampleForeign.emptyObject).
Proof.
  split; [|split].
  - apply (proj1 (foreign_entry RefJson.storePlatform 1767000060000 "theme" "null"
                    SampleForeign.nullText ltac:(vm_compute; reflexivity)
                    ltac:(discriminate))).
    vm_compute. reflexivity.
  - apply (proj2 (foreign_entry RefJson.storePlatform 1767000060000 "theme" "[1,2]"
                    SampleForeign.arrayText ltac:(vm_compute; reflexivity)
                    ltac:(discriminate))
             (JArr [JNum 1; JNum 2])).
    + vm_compute. reflexivity.
    + discriminate.
    + discriminate.
  - apply (proj2 (foreign_entry RefJson.storePlatform 1767000060000 "theme" "{}"
                    SampleForeign.emptyObject ltac:(vm_compute; reflexivity)
                    ltac:(discriminate))
             (JObj [])).
    + vm_compute. reflexivity.
    + discriminate.
    + intros members H. injection H as <-. split; reflexivity.
Defined.

(** X14: text that is not JSON is never cleaned up.  Every
    [Storage.get] of such a key answers [null], logs one more
    [SyntaxError] and leaves the text where it is. *)
Theorem unparseable_entry_stays (P : Platform) (now : Z) (key item : string)
    (st : State) (n : nat) :
  localStorage st !! key = Some item ->
  item <> EmptyString ->
  parse P item = None ->
  gets P now key n st
  = mkState (localStorage st) (console st ++ repeat SyntaxError n)
  /\ fst (get P now key (gets P now key n st)) = inr null.
Proof.
  intros Hitem Hne Hparse. destruct item as [|c item]; [contradiction|].
  assert (Hget : forall cs, get P now key (mkState (localStorage st) cs)
                            = (inr null, mkState (localStorage st) (cs ++ [SyntaxError]))).
  { intros cs. run_get. cbn [localStorage console]. rewrite Hitem, Hparse. reflexivity. }
  induction n as [|n [IH _]].
  - cbn [gets repeat]. rewrite app_nil_r. destruct st as [ls cs]. cbn [localStorage console] in *.
    split; [reflexivity|]. now rewrite Hget.
  - cbn [gets]. rewrite IH, Hget. cbn [fst snd]. rewrite Hget. cbn [fst snd].
    split; [|reflexivity].
    f_equal. rewrite <- app_assoc. f_equal.
    cbn [repeat]. symmetry. apply repeat_cons.
Qed.

Lemma unparseable_entry_stays_witness :
  gets RefJson.storePlatform 1767000060000 "analytics_1" 3 SampleStore.garbled
  = mkState (localStorage SampleStore.garbled) [SyntaxError; SyntaxError; SyntaxError]
  /\ fst (get RefJson.storePlatform 1767000060000 "analytics_1"
              (gets RefJson.storePlatform 1767000060000 "analytics_1" 3
                    SampleStore.garbled)) = inr null.
Proof.
  apply (unparseable_entry_stays RefJson.storePlatform 1767000060000 "analytics_1"
           "{not json" SampleStore.garbled 3).
  - vm_compute. reflexivity.
  - discriminate.
  - vm_compute. reflexivity.
Defined.

End CacheMore.

(** ** [EventManager.on] and [EventManager.off] *)

Module Listeners.
Import EventManager.

Lemma same_refl a : same a a = true.
Proof.
  unfold same. now rewrite String.eqb_refl, Nat.eqb_refl, Bool.eqb_reflx.
Qed.

Lemma removeFirst_last a l :
  existsb (same a) l = false -> removeFirst a (l ++ [a]) = l.
Proof.
  induction l as [|b l IH]; cbn [existsb removeFirst app]; intros H.
  - now rewrite same_refl.
  - apply orb_false_iff in H as [Hb Hl]. rewrite Hb, IH by exact Hl. reflexivity.
Qed.

(** X15: a handler registered with [EventManager.on] and not attached
    before is detached again by [EventManager.off] for the same element
    and event: every target has the listeners it had, and the entry is
    gone from [EventManager.listeners]. *)
Theorem on_off_round_trip (idOf : nat -> string) (el : nat) (ev : string) (h : nat)
    (o : Options) (st : State) :
  existsb (same (mkAttached ev h o)) (attachedTo st el) = false ->
  (forall x, attachedTo (off idOf (Some el) ev (on idOf (Some el) ev h o st)) x
             = attachedTo st x)
  /\ listeners (off idOf (Some el) ev (on idOf (Some el) ev h o st))
     = base.delete (key idOf el ev) (listeners st).
Proof.
  intros Hnew. unfold off, on. cbn [listeners targets].
  rewrite lookup_insert_eq. cbn [element handler options listeners targets].
  unfold attachedTo in *. cbn [targets].
  unfold addEventListener, removeEventListener. cbv zeta. rewrite Hnew.
  rewrite lookup_insert_eq, removeFirst_last by exact Hnew.
  split.
  - intros x. destruct (decide (x = el)) as [->|Hne].
    + now rewrite lookup_insert_eq.
    + now rewrite !lookup_insert_ne by congruence.
  - apply delete_insert_eq.
Qed.

Lemma on_off_round_trip_witness :
  (forall x, attachedTo (off SampleEvents.idOf (Some 3%nat) "click"
                           (on SampleEvents.idOf (Some 3%nat) "click" 7 noOptions
                               SampleEvents.empty)) x
             = attachedTo SampleEvents.empty x)
  /\ listeners (off SampleEvents.idOf (Some 3%nat) "click"
                  (on SampleEvents.idOf (Some 3%nat) "click" 7 noOptions
                      SampleEvents.empty))
     = base.delete (key SampleEvents.idOf 3 "click") (listeners SampleEvents.empty).
Proof.
  apply (on_off_round_trip SampleEvents.idOf 3 "click" 7 noOptions SampleEvents.empty).
  reflexivity.
Defined.

(** X16: [EventManager.listeners] is keyed by the element's [id] and the
    event, so two elements without an [id] (or with the same one) share a
    key.  When both register a handler for the same event, the second
    registration replaces the first in the map: [off] for the first element
    then detaches the handler of the second, the first element keeps its
    own, and no later [off] can detach it. *)
Theorem off_detaches_the_other_element (idOf : nat -> string) (a b : nat) (ev : string)
    (h h' : nat) (o o' : Options) (st : State) :
  a <> b ->
  key idOf a ev = key idOf b ev ->
  existsb (same (mkAttached ev h o)) (attachedTo st a) = false ->
  existsb (same (mkAttached ev h' o')) (attachedTo st b) = false ->
  attachedTo (off idOf (Some a) ev
                (on idOf (Some b) ev h' o' (on idOf (Some a) ev h o st))) a
  = attachedTo st a ++ [mkAttached ev h o]
  /\ attachedTo (off idOf (Some a) ev
                   (on idOf (Some b) ev h' o' (on idOf (Some a) ev h o st))) b
     = attachedTo st b
  /\ off idOf (Some a) ev
       (off idOf (Some a) ev (on idOf (Some b) ev h' o' (on idOf (Some a) ev h o st)))
     = off idOf (Some a) ev (on idOf (Some b) ev h' o' (on idOf (Some a) ev h o st))
  /\ off idOf (Some b) ev
       (off idOf (Some a) ev (on idOf (Some b) ev h' o' (on idOf (Some a) ev h o st)))
     = off idOf (Some a) ev (on idOf (Some b) ev h' o' (on idOf (Some a) ev h o st)).
Proof.
  intros Hab Hkey Ha Hb.
  assert (Hoff : off idOf (Some a) ev
                   (on idOf (Some b) ev h' o' (on idOf (Some a) ev h o st))
                 = mkState (<[b := attachedTo st b]>
                              (<[b := attachedTo st b ++ [mkAttached ev h' o']]>
                                 (<[a := attachedTo st a ++ [mkAttached ev h o]]>
                                    (targets st))))
                           (base.delete (key idOf b ev)
                              (<[key idOf b ev := mkRegistration b ev h' o']>
                                 (<[key idOf b ev := mkRegistration a ev h o]>
                                    (listeners st))))).
  { unfold off, on. cbn [listeners targets]. rewrite Hkey, lookup_insert_eq.
    cbn [element handler options].
    unfold attachedTo in *. unfold addEventListener, removeEventListener. cbv zeta.
    rewrite Ha. rewrite lookup_insert_ne by congruence. rewrite Hb.
    rewrite lookup_insert_eq, removeFirst_last by exact Hb. reflexivity. }
  rewrite Hoff. split; [|split].
  - unfold attachedTo. cbn [targets].
    rewrite !(lookup_insert_ne _ b a) by congruence.
    now rewrite lookup_insert_eq.
  - unfold attachedTo. cbn [targets]. now rewrite lookup_insert_eq.
  - unfold off. cbn [listeners].
    rewrite Hkey, lookup_delete_eq. split; reflexivity.
Qed.

Lemma off_detaches_the_other_element_witness :
  attachedTo (off SampleEvents.idOf (Some 1%nat) "click"
                (on SampleEvents.idOf (Some 2%nat) "click" 8 noOptions
                    (on SampleEvents.idOf (Some 1%nat) "click" 7 noOptions
                        SampleEvents.empty))) 1
  = attachedTo SampleEvents.empty 1 ++ [mkAttached "click" 7 noOptions]
  /\ attachedTo (off SampleEvents.idOf (Some 1%nat) "click"
                   (on SampleEvents.idOf (Some 2%nat) "click" 8 noOptions
                       (on SampleEvents.idOf (Some 1%nat) "click" 7 noOptions
                           SampleEvents.empty))) 2
     = attachedTo SampleEvents.empty 2
  /\ off SampleEvents.idOf (Some 1%nat) "click"
       (off SampleEvents.idOf (Some 1%nat) "click"
          (on SampleEvents.idOf (Some 2%nat) "click" 8 noOptions
              (on SampleEvents.idOf (Some 1%nat) "click" 7 noOptions SampleEvents.empty)))
     = off SampleEvents.idOf (Some 1%nat) "click"
         (on SampleEvents.idOf (Some 2%nat) "click" 8 noOptions
             (on SampleEvents.idOf (Some 1%nat) "click" 7 noOptions SampleEvents.empty))
  /\ off SampleEvents.idOf (Some 2%nat) "click"
       (off SampleEvents.idOf (Some 1%nat) "click"
          (on SampleEvents.idOf (Some 2%nat) "click" 8 noOptions
              (on SampleEvents.idOf (Some 1%nat) "click" 7 noOptions SampleEvents.empty)))
     = off SampleEvents.idOf (Some 1%nat) "click"
         (on SampleEvents.idOf (Some 2%nat) "click" 8 noOptions
             (on SampleEvents.idOf (Some 1%nat) "click" 7 noOptions SampleEvents.empty)).
Proof.
  apply (off_detaches_the_other_element SampleEvents.idOf 1 2 "click" 7 8
           noOptions noOptions SampleEvents.empty).
  - lia.
  - reflexivity.
  - reflexivity.
  - reflexivity.
Defined.

End Listeners.

(** ** The scroll effect of the navigation bar *)

Module ScrollEffect.
Import DOM Navigation.
Local Open Scope R_scope.

Lemma updateScrollState_settled s : settled (updateScrollState s).
Proof.
  unfold settled, updateScrollState. cbv zeta.
  destruct (Rgt_dec (scrollY s) scrollThreshold) as [Hgt|Hle];
    cbn [navbar document scrollY]; intros el ->; unfold addClass, removeClass, classList.
  all: rewrite lookup_insert_eq; cbn [default from_option Datatypes.id].
  - split; [intros _; exact Hgt|].
    intros _. rewrite elem_of_union, elem_of_singleton. now right.
  - split; [|intros Hgt; contradiction].
    rewrite elem_of_difference, elem_of_singleton. intros [_ Hin]. now contradict Hin.
Qed.

Lemma frameCallback_fields s :
  ticking (frameCallback s) = false
  /\ frameRequests (frameCallback s) = frameRequests s
  /\ scrollY (frameCallback s) = scrollY s
  /\ navbar (frameCallback s) = navbar s
  /\ settled (frameCallback s).
Proof.
  pose proof (updateScrollState_settled s) as H.
  unfold frameCallback, settled in *. cbv zeta. cbn [ticking frameRequests scrollY navbar document].
  unfold updateScrollState in *. cbv zeta in *.
  destruct (Rgt_dec (scrollY s) scrollThreshold);
    cbn [ticking frameRequests scrollY navbar document] in *; repeat split; try apply H; auto;
    apply H; auto.
Qed.

Lemma deliver_throttled (scrolled : Prop) s e :
  throttled scrolled s ->
  throttled (scrolled \/ exists y, e = Scroll y) (deliver s e).
Proof.
  intros [Hreq Hset]. destruct e as [y|]; unfold deliver.
  - unfold onScroll. cbn [ticking frameRequests document navbar scrollY].
    destruct (ticking s) eqn:Ht; cbn [negb]; unfold throttled;
      cbn [ticking frameRequests document navbar scrollY].
    + split; [exact Hreq | discriminate].
    + split; [now rewrite Hreq | discriminate].
  - rewrite Hreq. destruct (ticking s) eqn:Ht; cbn [Nat.iter nat_rect].
    + destruct (frameCallback_fields
                  (mkState (document s) (navbar s) (scrollY s) true 0))
        as (H1 & H2 & _ & _ & H5).
      unfold throttled. rewrite H1, H2. split; [reflexivity|]. intros _ _. exact H5.
    + unfold throttled. cbn [ticking frameRequests]. split; [reflexivity|].
      intros _ [Hs|[y Hy]]; [|discriminate].
      intros el Hel. apply (Hset eq_refl Hs el Hel).
Qed.

Lemma run_throttled es : forall (scrolled : Prop) s,
  throttled scrolled s ->
  throttled (scrolled \/ exists y, In (Scroll y) es) (run es s).
Proof.
  induction es as [|e es IH]; intros scrolled s H; cbn [run fold_left].
  - destruct H as [H1 H2]. split; [exact H1|].
    intros Ht [Hs|[y []]]. now apply H2.
  - specialize (IH _ _ (deliver_throttled scrolled s e H)).
    destruct IH as [H1 H2]. split; [exact H1|].
    intros Ht Hs. apply (H2 Ht). destruct Hs as [Hs|[y [Hy|Hy]]].
    + left. now left.
    + left. right. now exists y.
    + right. now exists y.
Qed.

(** X17: the scroll listener of the navigation bar is throttled to one
    update per frame.  However the page is scrolled between frames, at most
    one callback waits for the next frame, and one waits exactly while
    [ticking] is set; and when none waits after the page has been scrolled,
    the bar carries [navbar-scrolled] exactly when the page is scrolled by
    more than 100 pixels. *)
Theorem scroll_effect_throttled (d : gmap nat (gset string)) (nav : option nat) (y0 : R)
    (es : list event) :
  frameRequests (run es (constructed d nav y0))
  = (if ticking (run es (constructed d nav y0)) then 1%nat else 0%nat)
  /\ (ticking (run es (constructed d nav y0)) = false ->
      (exists y, In (Scroll y) es) ->
      forall el, nav = Some el ->
        ("navbar-scrolled" ∈ classList (document (run es (constructed d nav y0))) el
         <-> scrollY (run es (constructed d nav y0)) > 100)).
Proof.
  assert (Hnav : forall es s, navbar (run es s) = navbar s).
  { clear. induction es as [|e es IH]; intros s; cbn [run fold_left]; [reflexivity|].
    fold (run es (deliver s e)). rewrite IH. destruct e as [y|]; unfold deliver.
    - unfold onScroll. cbn [ticking]. now destruct (negb (ticking s)).
    - generalize (frameRequests s). intros n.
      induction n as [|n IHn]; cbn [Nat.iter nat_rect]; [reflexivity|].
      now rewrite (proj1 (proj2 (proj2 (proj2 (frameCallback_fields _))))). }
  destruct (run_throttled es False (constructed d nav y0)) as [H1 H2].
  { split; [reflexivity|]. intros _ []. }
  split; [exact H1|].
  intros Ht Hs el Hel. apply (H2 Ht); [now right|].
  rewrite Hnav. exact Hel.
Qed.

Lemma scroll_effect_throttled_witness :
  frameRequests (run [Scroll 250; Scroll 40; Frame] (constructed ∅ (Some 0%nat) 0)) = 0%nat
  /\ ~ "navbar-scrolled"
        ∈ classList (document (run [Scroll 250; Scroll 40; Frame]
                                 (constructed ∅ (Some 0%nat) 0))) 0.
Proof.
  pose proof (scroll_effect_throttled ∅ (Some 0%nat) 0 [Scroll 250; Scroll 40; Frame])
    as [H1 H2].
  assert (Ht : ticking (run [Scroll 250; Scroll 40; Frame] (constructed ∅ (Some 0%nat) 0))
               = false).
  { cbn [run fold_left deliver constructed onScroll ticking negb frameRequests
         Nat.iter nat_rect document navbar scrollY].
    apply frameCallback_fields. }
  assert (Hy : scrollY (run [Scroll 250; Scroll 40; Frame] (constructed ∅ (Some 0%nat) 0))
               = 40).
  { cbn [run fold_left deliver constructed onScroll ticking negb frameRequests
         Nat.iter nat_rect document navbar scrollY].
    now rewrite (proj1 (proj2 (proj2 (frameCallback_fields _)))). }
  rewrite Ht in H1. split; [exact H1|].
  intros Hin. apply (H2 Ht) in Hin.
  - rewrite Hy in Hin. lra.
  - exists 250. now left.
  - reflexivity.
Defined.

End ScrollEffect.

(** ** Dialogs *)

Module Dialogs.
Import DOM Modal.
Local Open Scope string_scope.

Lemma classList_insert (d : gmap nat (gset string)) el c x :
  classList (<[el := c]> d) x = if decide (x = el) then c else classList d x.
Proof.
  unfold classList. destruct (decide (x = el)) as [->|Hne].
  - now rewrite lookup_insert_eq.
  - now rewrite lookup_insert_ne by congruence.
Qed.

Lemma modal_open_added (X : gset string) : "modal-open" ∈ X ∪ {["modal-open"]}.
Proof. rewrite elem_of_union, elem_of_singleton. now right. Qed.

Lemma modal_open_removed (X : gset string) : ~ "modal-open" ∈ X ∖ {["modal-open"]}.
Proof. rewrite elem_of_difference, elem_of_singleton. intros [_ H]. now apply H. Qed.

(** What [open] and [close] leave of the invariant, for either value of
    the flag and the matching class list. *)
Lemma set_mirrored (p : Page) i m el (b : bool) (c : gset string) (o : string) :
  distinct p -> mirrored p ->
  modals p !! i = Some m ->
  element m = Some el ->
  (b = true <-> "modal-open" ∈ c) ->
  distinct (mkPage (<[el := c]> (document p)) o (<[i := set_isOpen b m]> (modals p)))
  /\ mirrored (mkPage (<[el := c]> (document p)) o (<[i := set_isOpen b m]> (modals p))).
Proof.
  intros Hd Hm Hi Hel Hb.
  assert (Hlen : (i < List.length (modals p))%nat) by (eapply lookup_lt_Some; eauto).
  assert (Hkeep : forall j m', <[i := set_isOpen b m]> (modals p) !! j = Some m' ->
                    exists m0, modals p !! j = Some m0 /\ element m0 = element m'
                               /\ (j <> i -> m0 = m')).
  { intros j m' Hj. destruct (decide (j = i)) as [->|Hne].
    - rewrite list_lookup_insert_eq in Hj by exact Hlen. injection Hj as <-.
      exists m. repeat split; [exact Hi | contradiction].
    - rewrite list_lookup_insert_ne in Hj by congruence.
      exists m'. repeat split. exact Hj. }
  split.
  - intros j k m1 m2 e Hj Hk H1 H2. cbn [modals] in Hj, Hk.
    destruct (Hkeep j m1 Hj) as (n1 & Hn1 & He1 & _).
    destruct (Hkeep k m2 Hk) as (n2 & Hn2 & He2 & _).
    apply (Hd j k n1 n2 e Hn1 Hn2); congruence.
  - intros j m' e Hj He. cbn [modals document] in *.
    rewrite classList_insert.
    destruct (Hkeep j m' Hj) as (m0 & Hm0 & He0 & Hsame).
    destruct (decide (j = i)) as [->|Hne].
    + rewrite list_lookup_insert_eq in Hj by exact Hlen. injection Hj as <-.
      cbn [element set_isOpen isOpen] in *.
      assert (e = el) as -> by congruence.
      destruct (decide (el = el)); [exact Hb | contradiction].
    + rewrite <- (Hsame Hne). destruct (decide (e = el)) as [->|Hel'].
      * exfalso. apply Hne. apply (Hd j i m0 m el Hm0 Hi); congruence.
      * apply (Hm j m0 e Hm0). congruence.
Qed.

Lemma open_kept p i : kept p -> kept (open i p).
Proof.
  intros [Hd Hm]. unfold open.
  destruct (modals p !! i) as [m|] eqn:Hi; [|now split].
  destruct (element m) as [el|] eqn:Hel; [|now split].
  unfold addClass. apply set_mirrored; auto.
  split; [intros _; apply modal_open_added | reflexivity].
Qed.

Lemma close_kept p i : kept p -> kept (close i p).
Proof.
  intros [Hd Hm]. unfold close.
  destruct (modals p !! i) as [m|] eqn:Hi; [|now split].
  destruct (element m) as [el|] eqn:Hel; [|now split].
  unfold removeClass. apply set_mirrored; auto.
  split; [discriminate | intros H; now apply modal_open_removed in H].
Qed.

Lemma perform_kept p a : kept p -> kept (perform p a).
Proof.
  intros H. destruct a as [i|i|i| |target]; cbn [perform].
  - now apply open_kept.
  - now apply close_kept.
  - unfold toggle. destruct (modals p !! i) as [m|]; [|exact H].
    destruct (isOpen m); [now apply close_kept | now apply open_kept].
  - unfold escape. generalize (seq 0 (List.length (modals p))). intros l.
    revert p H. induction l as [|i l IH]; intros p H; cbn [fold_left]; [exact H|].
    apply IH. unfold onEscape.
    destruct (modals p !! i) as [m|]; [|exact H].
    destruct (element m); [|exact H].
    destruct (closeOnEscape m && isOpen m); [now apply close_kept | exact H].
  - unfold backdropClick. generalize (seq 0 (List.length (modals p))). intros l.
    revert p H. induction l as [|i l IH]; intros p H; cbn [fold_left]; [exact H|].
    apply IH. unfold onClick.
    destruct (modals p !! i) as [m|]; [|exact H].
    destruct (element m); [|exact H].
    destruct (closeOnBackdrop m && Nat.eqb target n); [now apply close_kept | exact H].
Qed.

(** X18: [isOpen] mirrors the class.  On a page where no two dialogs
    share an element and every dialog is open exactly when its element
    carries [modal-open], this stays so whatever is done: opening, closing
    and toggling dialogs, pressing Escape, clicking backdrops. *)
Theorem isOpen_mirrors_class (p : Page) (l : list action) :
  distinct p -> mirrored p -> mirrored (run l p).
Proof.
  intros Hd Hm. assert (H : kept p) by now split.
  clear Hd Hm. revert p H. induction l as [|a l IH]; intros p H; cbn [run fold_left].
  - apply H.
  - apply IH. now apply perform_kept.
Qed.

Lemma sample_page_kept : kept SampleModals.page.
Proof.
  split.
  - intros i j m m' el Hi Hj H1 H2.
    destruct i as [|[|i]], j as [|[|j]]; cbn in Hi, Hj; try discriminate;
      try reflexivity; injection Hi as <-; injection Hj as <-; cbn in H1, H2;
      congruence.
  - intros i m el Hi He.
    destruct i as [|[|i]]; cbn in Hi; try discriminate; injection Hi as <-;
      cbn in He; injection He as <-; (split; [discriminate|]);
      unfold classList; cbn [SampleModals.page construct document];
      rewrite lookup_empty; cbn [default from_option Datatypes.id];
      intros H; now apply elem_of_empty in H.
Qed.

Lemma isOpen_mirrors_class_witness :
  mirrored (run [Open 0; Toggle 1; Escape; Toggle 0; BackdropClick 10] SampleModals.page).
Proof.
  apply (isOpen_mirrors_class SampleModals.page
           [Open 0; Toggle 1; Escape; Toggle 0; BackdropClick 10]).
  - exact (proj1 sample_page_kept).
  - exact (proj2 sample_page_kept).
Defined.

(** X19: the scroll lock is one property of the body shared by all
    dialogs, and [close] resets it without looking at the others.  With two
    dialogs open, closing one gives the page its scrolling back while the
    other is still open. *)
Theorem close_unlocks_scroll_under_open_dialog (p : Page) (i j : nat)
    (mi mj : Instance) (ei ej : nat) :
  modals p !! i = Some mi ->
  modals p !! j = Some mj ->
  element mi = Some ei ->
  element mj = Some ej ->
  ei <> ej ->
  overflow (open j (open i p)) = "hidden"
  /\ overflow (close i (open j (open i p))) = ""
  /\ option_map isOpen (modals (close i (open j (open i p))) !! j) = Some true
  /\ "modal-open" ∈ classList (document (close i (open j (open i p)))) ej.
Proof.
  intros Hi Hj Hei Hej Hne.
  assert (Hij : i <> j) by (intros ->; congruence).
  assert (Hli : (i < List.length (modals p))%nat) by (eapply lookup_lt_Some; eauto).
  assert (Hlj : (j < List.length (modals p))%nat) by (eapply lookup_lt_Some; eauto).
  assert (H1 : open i p
               = mkPage (addClass (Some ei) "modal-open" (document p)) "hidden"
                        (<[i := set_isOpen true mi]> (modals p))).
  { unfold open. now rewrite Hi, Hei. }
  rewrite H1.
  assert (H2 : open j (mkPage (addClass (Some ei) "modal-open" (document p)) "hidden"
                              (<[i := set_isOpen true mi]> (modals p)))
               = mkPage (addClass (Some ej) "modal-open"
                           (addClass (Some ei) "modal-open" (document p))) "hidden"
                        (<[j := set_isOpen true mj]>
                           (<[i := set_isOpen true mi]> (modals p)))).
  { unfold open. cbn [modals document overflow].
    rewrite list_lookup_insert_ne by congruence. now rewrite Hj, Hej. }
  rewrite H2. split; [reflexivity|].
  unfold close. cbn [modals document overflow].
  rewrite list_lookup_insert_ne by congruence.
  rewrite list_lookup_insert_eq by exact Hli.
  cbn [element set_isOpen]. rewrite Hei. cbn [modals document overflow].
  split; [reflexivity|]. split.
  - rewrite list_lookup_insert_ne by congruence.
    rewrite list_lookup_insert_eq by (rewrite length_insert; exact Hlj).
    reflexivity.
  - unfold addClass, removeClass. rewrite !classList_insert.
    destruct (decide (ej = ei)) as [->|_]; [contradiction|].
    destruct (decide (ej = ej)) as [_|]; [|contradiction].
    apply modal_open_added.
Qed.

Lemma close_unlocks_scroll_under_open_dialog_witness :
  overflow (open 1 (open 0 SampleModals.page)) = "hidden"
  /\ overflow (close 0 (open 1 (open 0 SampleModals.page))) = ""
  /\ option_map isOpen (modals (close 0 (open 1 (open 0 SampleModals.page))) !! 1%nat)
     = Some true
  /\ "modal-open" ∈ classList (document (close 0 (open 1 (open 0 SampleModals.page)))) 11.
Proof.
  apply (close_unlocks_scroll_under_open_dialog SampleModals.page 0 1
           (mkInstance (Some 10%nat) true true false)
           (mkInstance (Some 11%nat) true true false) 10 11).
  - reflexivity.
  - reflexivity.
  - reflexivity.
  - reflexivity.
  - lia.
Defined.

End Dialogs.

(** ** Class lists *)

Module ClassFacts.
Import DOM.

Lemma classList_insert_at (d : gmap nat (gset string)) el c x :
  classList (<[el := c]> d) x = if decide (x = el) then c else classList d x.
Proof.
  unfold classList. destruct (decide (x = el)) as [->|Hne].
  - now rewrite lookup_insert_eq.
  - now rewrite lookup_insert_ne by congruence.
Qed.

Lemma addClass_spec element c d el c' :
  c' ∈ classList (addClass element c d) el
  <-> c' ∈ classList d el \/ (element = Some el /\ c' = c).
Proof.
  destruct element as [x|]; cbn [addClass].
  - rewrite classList_insert_at. destruct (decide (el = x)) as [->|Hne].
    + rewrite elem_of_union, elem_of_singleton. intuition congruence.
    + intuition congruence.
  - intuition congruence.
Qed.

Lemma removeClass_spec element c d el c' :
  c' ∈ classList (removeClass element c d) el
  <-> c' ∈ classList d el /\ ~ (element = Some el /\ c' = c).
Proof.
  destruct element as [x|]; cbn [removeClass].
  - rewrite classList_insert_at. destruct (decide (el = x)) as [->|Hne].
    + rewrite elem_of_difference, elem_of_singleton. intuition congruence.
    + intuition congruence.
  - intuition congruence.
Qed.

Lemma removeClass_all_spec c l : forall d el c',
  c' ∈ classList (fold_left (fun d x => removeClass (Some x) c d) l d) el
  <-> c' ∈ classList d el /\ ~ (el ∈ l /\ c' = c).
Proof.
  induction l as [|x l IH]; intros d el c'; cbn [fold_left].
  - rewrite elem_of_nil. tauto.
  - rewrite IH, removeClass_spec, elem_of_cons.
    split.
    + intros [[H1 H2] H3]. split; [exact H1|]. intros [[->|Hin] ->].
      * apply H2. now split.
      * apply H3. now split.
    + intros [H1 H2]. split; [split; [exact H1|]|].
      * intros [Hx ->]. injection Hx as ->. apply H2. split; [now left | reflexivity].
      * intros [Hin ->]. apply H2. split; [now right | reflexivity].
Qed.

Lemma hasClass_spec el c d : hasClass (Some el) c d = true <-> c ∈ classList d el.
Proof. unfold hasClass. apply bool_decide_eq_true. Qed.

End ClassFacts.

(** ** Tabs *)

Module TabFacts.
Import DOM Tabs ClassFacts.
Local Open Scope string_scope.

Lemma activate_document P env t index p el c :
  c ∈ classList (document (activate P env t index p)) el
  <-> (c ∈ classList (document p) el
       /\ ~ (el ∈ tabs t /\ c = "tab-active")
       /\ ~ (el ∈ panels t /\ c = "tab-panel-active"))
      \/ (tabs t !! index = Some el /\ c = "tab-active")
      \/ (panels t !! index = Some el /\ c = "tab-panel-active").
Proof.
  unfold activate. cbv zeta. cbn [document].
  rewrite !addClass_spec, !removeClass_all_spec. tauto.
Qed.

(** X20: after [activate(index)] the tab at [index] is the one tab of the
    instance that carries [tab-active], and the panel at [index] the one
    panel that carries [tab-panel-active] (none, when there is no panel at
    that index); no other class of any element changes. *)
Theorem activate_marks_one (P : Store.Platform) (env : Analytics.Env) (t : Instance)
    (index : nat) (p : Page) :
  NoDup (tabs t) ->
  NoDup (panels t) ->
  (forall j el, tabs t !! j = Some el ->
     ("tab-active" ∈ classList (document (activate P env t index p)) el <-> j = index))
  /\ (forall j el, panels t !! j = Some el ->
        ("tab-panel-active" ∈ classList (document (activate P env t index p)) el
         <-> j = index))
  /\ (forall el c, c <> "tab-active" -> c <> "tab-panel-active" ->
        (c ∈ classList (document (activate P env t index p)) el
         <-> c ∈ classList (document p) el)).
Proof.
  intros Htabs Hpanels. split; [|split].
  - intros j el Hj. rewrite activate_document.
    assert (Hin : el ∈ tabs t) by (eapply list_elem_of_lookup_2; eauto).
    split.
    + intros [(_ & H & _)|[[Hi _]|[_ Hc]]].
      * exfalso. apply H. now split.
      * exact (NoDup_lookup _ _ _ _ Htabs Hj Hi).
      * discriminate.
    + intros <-. right. left. now split.
  - intros j el Hj. rewrite activate_document.
    assert (Hin : el ∈ panels t) by (eapply list_elem_of_lookup_2; eauto).
    split.
    + intros [(_ & _ & H)|[[_ Hc]|[Hi _]]].
      * exfalso. apply H. now split.
      * discriminate.
      * exact (NoDup_lookup _ _ _ _ Hpanels Hj Hi).
    + intros <-. right. right. now split.
  - intros el c H1 H2. rewrite activate_document. intuition congruence.
Qed.

Lemma activate_marks_one_witness :
  (forall j el, tabs SamplePage.strip !! j = Some el ->
     ("tab-active" ∈ classList (document (activate RefJson.storePlatform SamplePage.env1
                                            SamplePage.strip 1 SamplePage.page)) el
      <-> j = 1%nat))
  /\ (forall j el, panels SamplePage.strip !! j = Some el ->
        ("tab-panel-active" ∈ classList (document (activate RefJson.storePlatform
                                                     SamplePage.env1 SamplePage.strip 1
                                                     SamplePage.page)) el
         <-> j = 1%nat))
  /\ (forall el c, c <> "tab-active" -> c <> "tab-panel-active" ->
        (c ∈ classList (document (activate RefJson.storePlatform SamplePage.env1
                                    SamplePage.strip 1 SamplePage.page)) el
         <-> c ∈ classList (document SamplePage.page) el)).
Proof.
  apply (activate_marks_one RefJson.storePlatform SamplePage.env1 SamplePage.strip 1
           SamplePage.page).
  - cbn. repeat constructor; rewrite ?elem_of_cons, ?elem_of_nil; lia.
  - cbn. repeat constructor; rewrite ?elem_of_cons, ?elem_of_nil; lia.
Defined.



End TabFacts.

(** ** Tracked events *)

Module Tracking.
Import Analytics Cache.
Local Open Scope string_scope.
Local Open Scope Z_scope.

Lemma trackEvent_storage P env category action label value s :
  storage (trackEvent P env category action label value s)
  = Store.mkState
      (<[keyOf env := Store.stringify P
                        (Store.entry (setTime env)
                           (eventOf env category action label value) (Some 1440))]>
         (Store.localStorage (storage s)))
      (Store.console (storage s)).
Proof. unfold trackEvent. cbv zeta. cbn [storage]. now rewrite set_stores. Qed.

(** X22: what [Analytics.trackEvent] leaves in the storage.  The event
    is kept under a key made of the millisecond it was tracked in:
    [Storage.get] gives it back for 24 hours and removes it after that; and
    an event tracked in the same millisecond as an earlier one replaces
    it. *)
Theorem tracked_event_lifetime (P : Store.Platform) (env : Env)
    (category action label : string) (value : Z) (s : State) (t : Z) :
  Store.parse P (Store.stringify P (Store.entry (setTime env)
                   (eventOf env category action label value) (Some 1440)))
  = Some (Store.entry (setTime env) (eventOf env category action label value) (Some 1440)) ->
  Store.stringify P (Store.entry (setTime env)
                       (eventOf env category action label value) (Some 1440))
  <> EmptyString ->
  setTime env + 86400000 <> 0 ->
  (t <= setTime env + 86400000 ->
   Store.get P t (keyOf env) (storage (trackEvent P env category action label value s))
   = (inr (Val (eventOf env category action label value)),
      storage (trackEvent P env category action label value s)))
  /\ (setTime env + 86400000 < t ->
      Store.get P t (keyOf env) (storage (trackEvent P env category action label value s))
      = (inr null,
         Store.mkState (base.delete (keyOf env) (Store.localStorage (storage s)))
                       (Store.console (storage s))))
  /\ (forall env' category' action' label' value',
        keyTime env' = keyTime env ->
        storage (trackEvent P env' category' action' label' value'
                   (trackEvent P env category action label value s))
        = storage (trackEvent P env' category' action' label' value' s)).
Proof.
  intros Hparse Hne Hnz.
  assert (Hget : Store.get P t (keyOf env)
                   (storage (trackEvent P env category action label value s))
                 = if Z.gtb t (setTime env + 86400000)
                   then (inr null,
                         Store.mkState
                           (base.delete (keyOf env) (Store.localStorage (storage s)))
                           (Store.console (storage s)))
                   else (inr (Val (eventOf env category action label value)),
                         storage (trackEvent P env category action label value s))).
  { rewrite trackEvent_storage. run_get. cbn [Store.localStorage Store.console].
    rewrite lookup_insert_eq.
    destruct (Store.stringify P _) as [|ch item] eqn:E; [contradiction|].
    rewrite Hparse. unfold Store.entry.
    cbn [truthy Z.eqb negb assoc String.eqb Ascii.eqb Bool.eqb andb Store.laterThan].
    replace (setTime env + 1440 * 60 * 1000) with (setTime env + 86400000) by lia.
    destruct (Z.eqb_spec (setTime env + 86400000) 0) as [|_]; [contradiction|].
    cbn [negb andb].
    destruct (Z.gtb t (setTime env + 86400000)); cbn [Store.localStorage Store.console].
    - now rewrite delete_insert_eq.
    - reflexivity. }
  split; [|split].
  - intros Ht. rewrite Hget. destruct (Z.gtb_spec t (setTime env + 86400000)); [lia|].
    reflexivity.
  - intros Ht. rewrite Hget. destruct (Z.gtb_spec t (setTime env + 86400000)); [|lia].
    reflexivity.
  - intros env' category' action' label' value' Hkey.
    rewrite !trackEvent_storage. cbn [Store.localStorage Store.console].
    unfold keyOf. rewrite Hkey. now rewrite insert_insert_eq.
Qed.

Lemma tracked_event_lifetime_witness :
  (1767000060000 <= setTime SamplePage.env1 + 86400000 ->
   Store.get RefJson.storePlatform 1767000060000 (keyOf SamplePage.env1)
     (storage (trackEvent RefJson.storePlatform SamplePage.env1 "ui" "tab_activated"
                 "tab_0" 0 SamplePage.untracked))
   = (inr (Val (eventOf SamplePage.env1 "ui" "tab_activated" "tab_0" 0)),
      storage (trackEvent RefJson.storePlatform SamplePage.env1 "ui" "tab_activated"
                 "tab_0" 0 SamplePage.untracked)))
  /\ (setTime SamplePage.env1 + 86400000 < 1767000060000 ->
      Store.get RefJson.storePlatform 1767000060000 (keyOf SamplePage.env1)
        (storage (trackEvent RefJson.storePlatform SamplePage.env1 "ui" "tab_activated"
                    "tab_0" 0 SamplePage.untracked))
      = (inr null,
         Store.mkState (base.delete (keyOf SamplePage.env1)
                          (Store.localStorage (storage SamplePage.untracked)))
                       (Store.console (storage SamplePage.untracked))))
  /\ (forall env' category' action' label' value',
        keyTime env' = keyTime SamplePage.env1 ->
        storage (trackEvent RefJson.storePlatform env' category' action' label' value'
                   (trackEvent RefJson.storePlatform SamplePage.env1 "ui" "tab_activated"
                      "tab_0" 0 SamplePage.untracked))
        = storage (trackEvent RefJson.storePlatform env' category' action' label' value'
                     SamplePage.untracked)).
Proof.
  apply (tracked_event_lifetime RefJson.storePlatform SamplePage.env1 "ui" "tab_activated"
           "tab_0" 0 SamplePage.untracked 1767000060000).
  - vm_compute. reflexivity.
  - vm_compute. discriminate.
  - vm_compute. discriminate.
Defined.

End Tracking.

(** ** The accordion *)

Module Folding.
Import DOM Accordion ClassFacts.
Local Open Scope string_scope.
Local Open Scope Z_scope.

Lemma slideUp_fields el p :
  document (slideUp el p) = document p
  /\ clock (slideUp el p) = clock p
  /\ timers (slideUp el p) = timers p.
Proof. destruct el; repeat split. Qed.

Lemma close_fields a item p :
  document (close a item p) = removeClass (Some item) "accordion-open" (document p)
  /\ clock (close a item p) = clock p
  /\ timers (close a item p) = timers p.
Proof. unfold close. cbv zeta. destruct (contentOf a item); repeat split. Qed.

Lemma open_document a item p :
  document (open a item p) = addClass (Some item) "accordion-open" (document p).
Proof. unfold open. cbv zeta. now destruct (contentOf a item). Qed.

(** The loop of [toggle] over the other items. *)
Lemma close_others_fields a item l : forall p,
  let q := fold_left
             (fun p otherItem =>
                if negb (Nat.eqb otherItem item)
                   && hasClass (Some otherItem) "accordion-open" (document p)
                then close a otherItem p
                else p) l p in
  (forall el c, c ∈ classList (document q) el
                <-> c ∈ classList (document p) el
                    /\ ~ (el ∈ l /\ el <> item /\ c = "accordion-open"))
  /\ clock q = clock p
  /\ timers q = timers p.
Proof.
  induction l as [|x l IH]; intros p; cbn [fold_left]; cbv zeta.
  - split; [|split; reflexivity].
    intros el c. rewrite elem_of_nil. tauto.
  - cbv zeta in IH.
    destruct (Nat.eqb_spec x item) as [->|Hx]; cbn [negb andb].
    + destruct (IH p) as (H1 & H2 & H3). split; [|split; assumption].
      intros el c. rewrite H1, elem_of_cons. split.
      * intros [G G']. split; [exact G|].
        intros [[->|Hin] [Hne Hc]]; [contradiction|]. apply G'. now repeat split.
      * intros [G G']. split; [exact G|].
        intros (Hin & Hne & Hc). apply G'. repeat split; [now right | exact Hne | exact Hc].
    + destruct (hasClass (Some x) "accordion-open" (document p)) eqn:Hopen.
      * destruct (IH (close a x p)) as (H1 & H2 & H3).
        destruct (close_fields a x p) as (D1 & D2 & D3).
        rewrite D2 in H2. rewrite D3 in H3. split; [|split; assumption].
        intros el c. rewrite H1, D1, removeClass_spec, elem_of_cons. split.
        -- intros [[G G''] G']. split; [exact G|].
           intros [[->|Hin] [Hne Hc]].
           ++ apply G''. now split.
           ++ apply G'. now repeat split.
        -- intros [G G']. repeat split.
           ++ exact G.
           ++ intros [Hel Hc]. injection Hel as ->. apply G'.
              repeat split; [now left | exact Hx | exact Hc].
           ++ intros (Hin & Hne & Hc). apply G'.
              repeat split; [now right | exact Hne | exact Hc].
      * destruct (IH p) as (H1 & H2 & H3). split; [|split; assumption].
        intros el c. rewrite H1, elem_of_cons. split.
        -- intros [G G']. split; [exact G|].
           intros [[->|Hin] [Hne Hc]].
           ++ subst c. apply hasClass_spec in G. congruence.
           ++ apply G'. now repeat split.
        -- intros [G G']. split; [exact G|].
           intros (Hin & Hne & Hc). apply G'.
           repeat split; [now right | exact Hne | exact Hc].
Qed.

(** X23: one item at a time.  [toggle] on an item that is closed opens
    it and leaves every other item of the accordion closed; on an item that
    is open it closes that item and changes no other. *)
Theorem toggle_opens_one (a : Instance) (item : nat) (p : Page) :
  (hasClass (Some item) "accordion-open" (document p) = false ->
   "accordion-open" ∈ classList (document (toggle a item p)) item
   /\ forall other, other ∈ items a -> other <> item ->
        ~ "accordion-open" ∈ classList (document (toggle a item p)) other)
  /\ (hasClass (Some item) "accordion-open" (document p) = true ->
      ~ "accordion-open" ∈ classList (document (toggle a item p)) item
      /\ forall other, other <> item ->
           ("accordion-open" ∈ classList (document (toggle a item p)) other
            <-> "accordion-open" ∈ classList (document p) other)).
Proof.
  split; intros Hopen; unfold toggle; cbv zeta; rewrite Hopen.
  - rewrite open_document.
    destruct (close_others_fields a item (items a) p) as (H1 & _ & _). cbv zeta in H1.
    split.
    + rewrite addClass_spec. right. now split.
    + intros other Hin Hne. rewrite addClass_spec, H1.
      intros [[_ H]|[Hel _]]; [|congruence]. apply H. now repeat split.
  - destruct (close_fields a item p) as (D1 & _ & _). rewrite D1. split.
    + rewrite removeClass_spec. intros [_ H]. apply H. now split.
    + intros other Hne. rewrite removeClass_spec. split; [tauto|].
      intros H. split; [exact H|]. intros [Hel _]. congruence.
Qed.

Lemma toggle_opens_one_witness :
  "accordion-open" ∈ classList (document (toggle SamplePage.accordion 41 SamplePage.folded)) 41
  /\ forall other, other ∈ items SamplePage.accordion -> other <> 41%nat ->
       ~ "accordion-open"
           ∈ classList (document (toggle SamplePage.accordion 41 SamplePage.folded)) other.
Proof.
  apply (proj1 (toggle_opens_one SamplePage.accordion 41 SamplePage.folded)).
  apply bool_decide_eq_false. unfold classList. cbn [SamplePage.folded document].
  rewrite lookup_empty. cbn [default from_option Datatypes.id]. apply not_elem_of_empty.
Defined.

Lemma toggle_closed_fields a item p :
  hasClass (Some item) "accordion-open" (document p) = false ->
  forall content, contentOf a item = Some content ->
    "accordion-open" ∈ classList (document (toggle a item p)) item
    /\ clock (toggle a item p) = clock p
    /\ timers (toggle a item p) = (timers p ++ [(clock p + 10, content)])%list.
Proof.
  intros Hopen content Hc. unfold toggle. cbv zeta. rewrite Hopen.
  destruct (close_others_fields a item (items a) p) as (H1 & H2 & H3). cbv zeta in *.
  split; [|split].
  - rewrite open_document, addClass_spec. right. now split.
  - unfold open. cbv zeta. rewrite Hc. cbn [slideDown clock]. exact H2.
  - unfold open. cbv zeta. rewrite Hc. cbn [slideDown clock timers].
    now rewrite H2, H3.
Qed.

Lemma toggle_open_fields a item p :
  hasClass (Some item) "accordion-open" (document p) = true ->
  forall content, contentOf a item = Some content ->
    ~ "accordion-open" ∈ classList (document (toggle a item p)) item
    /\ clock (toggle a item p) = clock p
    /\ timers (toggle a item p) = timers p
    /\ maxHeight (styleOf (toggle a item p) content) = "0".
Proof.
  intros Hopen content Hc. unfold toggle. cbv zeta. rewrite Hopen.
  destruct (close_fields a item p) as (D1 & D2 & D3). rewrite D1, D2, D3.
  split; [|split; [reflexivity|split; [reflexivity|]]].
  - rewrite removeClass_spec. intros [_ H]. apply H. now split.
  - unfold close. cbv zeta. rewrite Hc. unfold slideUp, styleOf. cbn [styles].
    now rewrite lookup_insert_eq.
Qed.

Lemma runTimeout_due sh p due el :
  timers p = [(due, el)] ->
  due <= clock p ->
  runTimeout sh p = expand sh (mkPage (document p) (styles p) (clock p) []) el.
Proof.
  intros Ht Hle. unfold runTimeout. rewrite Ht.
  destruct (Z.leb_spec due (clock p)); [|lia]. reflexivity.
Qed.

(** X24: the timeout of [slideDown] is never cancelled.  When an item is
    opened and closed again before the timeout set by opening has run, the
    timeout runs after [slideUp] has set the height to 0: the item ends up
    closed with its content at full height.  When the timeout has run
    before the item is closed, the content ends at height 0. *)
Theorem close_before_timeout_leaves_content_expanded (a : Instance)
    (scrollHeight : nat -> Z) (item content : nat) (p : Page) (ms ms' : Z) :
  hasClass (Some item) "accordion-open" (document p) = false ->
  contentOf a item = Some content ->
  timers p = [] ->
  0 <= ms -> 0 <= ms' -> 10 <= ms + ms' ->
  let closedFirst :=
    runTimeout scrollHeight (wait ms' (toggle a item (wait ms (toggle a item p)))) in
  let ranFirst :=
    toggle a item (runTimeout scrollHeight (wait ms (toggle a item p))) in
  (~ "accordion-open" ∈ classList (document closedFirst) item
   /\ maxHeight (styleOf closedFirst content)
      = Analytics.decimal (scrollHeight content) ++ "px"
   /\ timers closedFirst = [])
  /\ (10 <= ms ->
      ~ "accordion-open" ∈ classList (document ranFirst) item
      /\ maxHeight (styleOf ranFirst content) = "0"
      /\ timers ranFirst = []).
Proof.
  intros Hclosed Hc Hnone Hms Hms' Hdue closedFirst ranFirst.
  destruct (toggle_closed_fields a item p Hclosed content Hc) as (T1 & T2 & T3).
  rewrite Hnone in T3. cbn [app] in T3.
  split.
  - subst closedFirst. clear ranFirst.
    set (q := wait ms (toggle a item p)).
    assert (Hopen : hasClass (Some item) "accordion-open" (document q) = true).
    { apply hasClass_spec. exact T1. }
    assert (Hq : timers q = [(clock p + 10, content)]) by exact T3.
    destruct (toggle_open_fields a item q Hopen content Hc) as (U1 & U2 & U3 & _).
    rewrite Hq in U3.
    rewrite (runTimeout_due scrollHeight (wait ms' (toggle a item q)) _ _ U3)
      by (cbn [wait clock]; rewrite U2; cbn [q wait clock]; lia).
    split; [exact U1|]. split; [|reflexivity].
    unfold expand, styleOf. cbn [styles]. now rewrite lookup_insert_eq.
  - intros Hran. subst ranFirst. clear closedFirst.
    rewrite (runTimeout_due scrollHeight (wait ms (toggle a item p)) _ _ T3)
      by (cbn [wait clock]; lia).
    set (q := expand _ _ _).
    assert (Hopen : hasClass (Some item) "accordion-open" (document q) = true).
    { apply hasClass_spec. exact T1. }
    destruct (toggle_open_fields a item q Hopen content Hc) as (U1 & U2 & U3 & U4).
    split; [exact U1|]. split; [exact U4 | exact U3].
Qed.

Lemma close_before_timeout_leaves_content_expanded_witness :
  (* opened, closed 4 ms later, the timeout runs 10 ms after that *)
  (~ "accordion-open"
       ∈ classList (document (runTimeout SamplePage.scrollHeight
                                (wait 10 (toggle SamplePage.accordion 41
                                            (wait 4 (toggle SamplePage.accordion 41
                                                       SamplePage.folded))))))
                   41
   /\ maxHeight (styleOf (runTimeout SamplePage.scrollHeight
                            (wait 10 (toggle SamplePage.accordion 41
                                        (wait 4 (toggle SamplePage.accordion 41
                                                   SamplePage.folded)))))
                         51)
      = "120px")
  (* opened, the timeout runs 12 ms later, then closed *)
  /\ maxHeight (styleOf (toggle SamplePage.accordion 41
                           (runTimeout SamplePage.scrollHeight
                              (wait 12 (toggle SamplePage.accordion 41 SamplePage.folded))))
                        51)
     = "0".
Proof.
  assert (Hclosed : hasClass (Some 41%nat) "accordion-open" (document SamplePage.folded)
                    = false).
  { apply bool_decide_eq_false. unfold classList. cbn [SamplePage.folded document].
    rewrite lookup_empty. cbn [default from_option Datatypes.id]. apply not_elem_of_empty. }
  split.
  - destruct (close_before_timeout_leaves_content_expanded SamplePage.accordion
                SamplePage.scrollHeight 41 51 SamplePage.folded 4 10
                Hclosed eq_refl eq_refl ltac:(lia) ltac:(lia) ltac:(lia))
      as [(H1 & H2 & _) _].
    split; assumption.
  - destruct (close_before_timeout_leaves_content_expanded SamplePage.accordion
                SamplePage.scrollHeight 41 51 SamplePage.folded 12 0
                Hclosed eq_refl eq_refl ltac:(lia) ltac:(lia) ltac:(lia))
      as [_ H].
    destruct (H ltac:(lia)) as (_ & H2 & _). exact H2.
Defined.

End Folding.

(** ** Matching by derivatives is matching *)

Module Matching.
Import RegExp.
Local Open Scope string_scope.

Lemma append_cons c (x y : string) : String c x ++ y = String c (x ++ y).
Proof. reflexivity. Qed.

Lemma append_nil_l (y : string) : "" ++ y = y.
Proof. reflexivity. Qed.

Lemma append_nil_inv (x y : string) : x ++ y = "" -> x = "" /\ y = "".
Proof. destruct x; [now split | discriminate]. Qed.

Lemma length_append (x y : string) :
  String.length (x ++ y) = (String.length x + String.length y)%nat.
Proof.
  induction x as [|c x IH]; [reflexivity|].
  rewrite append_cons. cbn [String.length]. now rewrite IH.
Qed.

Lemma nullable_lang r : nullable r = true -> lang r "".
Proof.
  induction r as [| |p|r IHr s IHs|r IHr s IHs|r IHr]; cbn [nullable]; intros H;
    try discriminate.
  - constructor.
  - apply andb_true_iff in H as [Hr Hs].
    change "" with ("" ++ ""). constructor; auto.
  - apply orb_true_iff in H as [Hr|Hs]; [apply lang_Alt_l | apply lang_Alt_r]; auto.
  - constructor.
Qed.

Lemma lang_nullable r x : lang r x -> x = "" -> nullable r = true.
Proof.
  induction 1 as [|p c Hp|r s x y Hx IHx Hy IHy|r s x Hx IHx|r s x Hx IHx|r|r x y Hx IHx Hy IHy];
    intros E; cbn [nullable]; try reflexivity; try discriminate.
  - apply append_nil_inv in E as [-> ->]. now rewrite IHx, IHy.
  - now rewrite IHx.
  - rewrite IHx by exact E. apply orb_true_r.
Qed.

Lemma derive_lang c r : forall x, lang (derive c r) x -> lang r (String c x).
Proof.
  induction r as [| |p|r IHr s IHs|r IHr s IHs|r IHr]; cbn [derive]; intros x H.
  - inversion H.
  - inversion H.
  - destruct (p c) eqn:Hp; inversion H; subst. now constructor.
  - assert (Hseq : forall w, lang (Seq (derive c r) s) w -> lang (Seq r s) (String c w)).
    { intros w Hw. inversion Hw as [| |r' s' u v Hu Hv| | | |]; subst.
      change (String c (u ++ v)) with (String c u ++ v). constructor; auto. }
    destruct (nullable r) eqn:Hn; [|now apply Hseq].
    inversion H as [| | |r' s' w Hw|r' s' w Hw| |]; subst; [now apply Hseq|].
    change (String c x) with ("" ++ String c x).
    constructor; [now apply nullable_lang | auto].
  - inversion H; subst; [apply lang_Alt_l | apply lang_Alt_r]; auto.
  - inversion H as [| |r' s' u v Hu Hv| | | |]; subst.
    change (String c (u ++ v)) with (String c u ++ v). constructor; auto.
Qed.

Lemma lang_derive r w : lang r w -> forall c x, w = String c x -> lang (derive c r) x.
Proof.
  induction 1 as [|p c' Hp|r s u v Hu IHu Hv IHv|r s u Hu IHu|r s u Hu IHu|r|r u v Hu IHu Hv IHv];
    intros c x E; cbn [derive].
  - discriminate.
  - injection E as -> <-. rewrite Hp. constructor.
  - destruct u as [|c' u]; [rewrite append_nil_l in E | rewrite append_cons in E].
    + subst v. rewrite (lang_nullable r "" Hu eq_refl).
      apply lang_Alt_r. now apply IHv.
    + injection E as -> <-.
      assert (Hs : lang (Seq (derive c r) s) (u ++ v)).
      { constructor; [now apply IHu | exact Hv]. }
      destruct (nullable r); [now apply lang_Alt_l | exact Hs].
  - apply lang_Alt_l. now apply IHu.
  - apply lang_Alt_r. now apply IHu.
  - discriminate.
  - destruct u as [|c' u]; [rewrite append_nil_l in E | rewrite append_cons in E].
    + subst v. apply (IHv c x eq_refl).
    + injection E as -> <-. constructor; [now apply IHu | exact Hv].
Qed.

Lemma matches_lang r x : matches r x = true <-> lang r x.
Proof.
  revert r. induction x as [|c x IH]; intros r; cbn [matches].
  - split; [apply nullable_lang | intros H; now apply (lang_nullable r "")].
  - rewrite IH. split; [apply derive_lang | intros H; now apply (lang_derive r _ H)].
Qed.

(** Repetitions of a class. *)
Lemma lang_Class_inv p x : lang (Class p) x -> exists c, x = String c "" /\ p c = true.
Proof. inversion 1; subst. eauto. Qed.

Lemma lang_Star_Class p x : lang (Star (Class p)) x <-> all p x = true.
Proof.
  split.
  - intros H. remember (Star (Class p)) as r eqn:Er.
    induction H as [| | | | |r|r u v Hu _ Hv IHv]; try discriminate; [reflexivity|].
    injection Er as ->. apply lang_Class_inv in Hu as (c & -> & Hc).
    rewrite append_cons, append_nil_l. cbn [all]. now rewrite Hc, IHv.
  - induction x as [|c x IH]; cbn [all]; intros H; [constructor|].
    apply andb_true_iff in H as [Hc Hx].
    change (String c x) with (String c "" ++ x).
    constructor; [now constructor | auto].
Qed.

Lemma lang_Plus_Class p x : lang (Plus (Class p)) x <-> x <> "" /\ all p x = true.
Proof.
  unfold Plus. split.
  - intros H. inversion H as [| |r s u v Hu Hv| | | |]; subst.
    apply lang_Class_inv in Hu as (c & -> & Hc). apply lang_Star_Class in Hv.
    rewrite append_cons, append_nil_l. cbn [all]. rewrite Hc, Hv. now split.
  - intros [Hne H]. destruct x as [|c x]; [contradiction|].
    cbn [all] in H. apply andb_true_iff in H as [Hc Hx].
    change (String c x) with (String c "" ++ x).
    constructor; [now constructor | now apply lang_Star_Class].
Qed.

Lemma lang_AtLeast_Class p n : forall x,
  lang (AtLeast n (Class p)) x <-> (n <= String.length x)%nat /\ all p x = true.
Proof.
  induction n as [|n IH]; intros x; cbn [AtLeast].
  - rewrite lang_Star_Class. split; [intros H; split; [lia | exact H] | tauto].
  - split.
    + intros H. inversion H as [| |r s u v Hu Hv| | | |]; subst.
      apply lang_Class_inv in Hu as (c & -> & Hc). apply IH in Hv as [Hlen Hv].
      rewrite append_cons, append_nil_l. cbn [all String.length].
      rewrite Hc, Hv. split; [lia | reflexivity].
    + intros [Hlen H]. destruct x as [|c x]; [cbn in Hlen; lia|].
      cbn [all] in H. apply andb_true_iff in H as [Hc Hx]. cbn in Hlen.
      change (String c x) with (String c "" ++ x).
      constructor; [now constructor | apply IH; split; [lia | exact Hx]].
Qed.

Lemma all_keep p x : all p (keep p x) = true.
Proof.
  induction x as [|c x IH]; cbn [keep all]; [reflexivity|].
  destruct (p c) eqn:Hc; [cbn [all]; now rewrite Hc, IH | exact IH].
Qed.

Lemma length_keep p x : String.length (keep p x) = count p x.
Proof.
  induction x as [|c x IH]; cbn [keep count]; [reflexivity|].
  destruct (p c); cbn [String.length]; lia.
Qed.

Lemma count_append p x y : count p (x ++ y) = (count p x + count p y)%nat.
Proof.
  induction x as [|c x IH]; [reflexivity|].
  rewrite append_cons. cbn [count]. rewrite IH. lia.
Qed.

Lemma all_count_none p q x :
  (forall c, p c = true -> q c = false) -> all p x = true -> count q x = 0%nat.
Proof.
  intros Hpq. induction x as [|c x IH]; cbn; [reflexivity|].
  intros H. apply andb_true_iff in H as [Hc Hx]. now rewrite (Hpq c Hc), IH.
Qed.

End Matching.

(** ** The rules of [FormValidator] *)

Module Rules.
Import RegExp FormValidator Matching.
Local Open Scope string_scope.

(** X25: the rule [phone] counts digits and nothing else: a value passes
    exactly when at least ten of its characters are digits, wherever they
    stand and whatever stands between them. *)
Theorem phone_rule_counts_digits (validURL : string -> bool) (value : string)
    (params : list string) :
  checkRule validURL "phone" value params = true <-> (10 <= count isDigit value)%nat.
Proof.
  unfold checkRule. cbn [String.eqb Ascii.eqb Bool.eqb andb].
  unfold test, phonePattern. rewrite matches_lang, lang_AtLeast_Class.
  rewrite length_keep, all_keep. tauto.
Qed.

Lemma phone_rule_counts_digits_witness :
  checkRule SampleForm.validURL "phone" "+91 (0) 98765-43210" [] = true.
Proof.
  apply (proj2 (phone_rule_counts_digits SampleForm.validURL "+91 (0) 98765-43210" [])).
  vm_compute. lia.
Defined.

Lemma plain_facts c :
  plain c = true -> Ascii.eqb "@" c = false /\ isSpace c = false.
Proof.
  unfold plain. intros H. apply negb_true_iff, orb_false_iff in H as [Hs Ha].
  split; [|exact Hs]. now rewrite Ascii.eqb_sym.
Qed.

(** X26: the rule [email].  A value passes exactly when it reads
    [local@domain.tail] with three parts that are not empty and hold
    neither white space nor [@].  So a value that passes holds exactly one
    [@], no white space, and at least five characters. *)
Theorem email_rule_shape (validURL : string -> bool) (value : string)
    (params : list string) :
  (checkRule validURL "email" value params = true
   <-> exists local domain tail,
         value = local ++ "@" ++ domain ++ "." ++ tail
         /\ local <> "" /\ domain <> "" /\ tail <> ""
         /\ all plain local = true /\ all plain domain = true /\ all plain tail = true)
  /\ (checkRule validURL "email" value params = true ->
      count (Ascii.eqb "@") value = 1%nat
      /\ count isSpace value = 0%nat
      /\ (5 <= String.length value)%nat).
Proof.
  assert (Hshape : checkRule validURL "email" value params = true
                   <-> exists local domain tail,
                         value = local ++ "@" ++ domain ++ "." ++ tail
                         /\ local <> "" /\ domain <> "" /\ tail <> ""
                         /\ all plain local = true /\ all plain domain = true
                         /\ all plain tail = true).
  { unfold checkRule. cbn [String.eqb Ascii.eqb Bool.eqb andb].
    unfold test, emailPattern. rewrite matches_lang. split.
    - intros H.
      inversion H as [| |r1 s1 l rest1 Hl H1| | | |]; subst.
      inversion H1 as [| |r2 s2 at_ rest2 Hat H2| | | |]; subst.
      inversion H2 as [| |r3 s3 d rest3 Hd H3| | | |]; subst.
      inversion H3 as [| |r4 s4 dot t Hdot Ht| | | |]; subst.
      apply lang_Class_inv in Hat as (c & -> & Hc). apply Ascii.eqb_eq in Hc as <-.
      apply lang_Class_inv in Hdot as (c & -> & Hc). apply Ascii.eqb_eq in Hc as <-.
      apply lang_Plus_Class in Hl as [Hl Hl']. apply lang_Plus_Class in Hd as [Hd Hd'].
      apply lang_Plus_Class in Ht as [Ht Ht'].
      exists l, d, t. repeat split; assumption.
    - intros (l & d & t & -> & Hl & Hd & Ht & Hl' & Hd' & Ht').
      constructor; [now apply lang_Plus_Class|].
      change ("@" ++ d ++ "." ++ t) with (String "@" "" ++ (d ++ String "." "" ++ t)).
      constructor; [now constructor|].
      constructor; [now apply lang_Plus_Class|].
      constructor; [now constructor | now apply lang_Plus_Class]. }
  split; [exact Hshape|].
  intros H. apply Hshape in H as (l & d & t & -> & Hl & Hd & Ht & Hl' & Hd' & Ht').
  assert (Hat : forall x, all plain x = true -> count (Ascii.eqb "@") x = 0%nat).
  { intros x. apply all_count_none. intros c Hc. now apply plain_facts. }
  assert (Hsp : forall x, all plain x = true -> count isSpace x = 0%nat).
  { intros x. apply all_count_none. intros c Hc. now apply plain_facts. }
  rewrite !count_append, !length_append.
  rewrite (Hat l), (Hat d), (Hat t), (Hsp l), (Hsp d), (Hsp t) by assumption.
  cbn [count String.length Ascii.eqb Bool.eqb andb].
  change (isSpace "@") with false. change (isSpace ".") with false.
  destruct l; [contradiction|]. destruct d; [contradiction|]. destruct t; [contradiction|].
  cbn [String.length]. repeat split; lia.
Qed.

Lemma email_rule_shape_witness :
  count (Ascii.eqb "@") "asha@farm.in" = 1%nat
  /\ count isSpace "asha@farm.in" = 0%nat
  /\ (5 <= String.length "asha@farm.in")%nat.
Proof.
  apply (proj2 (email_rule_shape SampleForm.validURL "asha@farm.in" [])).
  vm_compute. reflexivity.
Defined.

End Rules.

(** ** [parseInt] reads back what a template literal prints *)

Module Numbers.
Import RegExp FormValidator Matching.
Local Open Scope string_scope.
Local Open Scope Z_scope.

Lemma isDigit_cases c :
  isDigit c = true ->
  c = "0"%char \/ c = "1"%char \/ c = "2"%char \/ c = "3"%char \/ c = "4"%char
  \/ c = "5"%char \/ c = "6"%char \/ c = "7"%char \/ c = "8"%char \/ c = "9"%char.
Proof.
  destruct c as [[] [] [] [] [] [] [] []]; intros H; try discriminate H; tauto.
Qed.

Lemma digits_of_uint_acc d : forall a,
  digits 10 (Z.pos a) (NilEmpty.string_of_uint d) = Z.pos (Pos.of_uint_acc d a).
Proof.
  induction d as [|d IH|d IH|d IH|d IH|d IH|d IH|d IH|d IH|d IH|d IH]; intros a;
    cbn [NilEmpty.string_of_uint digits Pos.of_uint_acc]; [reflexivity|..];
    match goal with
    | |- context [digitValue 10 ?c] =>
        let v := eval vm_compute in (digitValue 10 c) in
        change (digitValue 10 c) with v
    end;
    rewrite <- IH; f_equal; lia.
Qed.

Lemma digits_of_uint d :
  digits 10 0 (NilEmpty.string_of_uint d) = Z.of_N (Pos.of_uint d).
Proof.
  induction d as [|d IH|d IH|d IH|d IH|d IH|d IH|d IH|d IH|d IH|d IH];
    cbn [NilEmpty.string_of_uint digits Pos.of_uint]; [reflexivity|..];
    match goal with
    | |- context [digitValue 10 ?c] =>
        let v := eval vm_compute in (digitValue 10 c) in
        change (digitValue 10 c) with v
    end;
    [exact IH|..]; cbn [Z.mul Z.add Z.of_N]; apply digits_of_uint_acc.
Qed.

Lemma all_digits_of_uint d : all isDigit (NilEmpty.string_of_uint d) = true.
Proof.
  induction d as [|d IH|d IH|d IH|d IH|d IH|d IH|d IH|d IH|d IH|d IH];
    cbn [NilEmpty.string_of_uint all]; [reflexivity|..]; rewrite IH; reflexivity.
Qed.

Lemma digit_facts c :
  isDigit c = true ->
  isSpace c = false /\ Ascii.eqb c "-" = false /\ Ascii.eqb c "+" = false
  /\ Ascii.eqb c "x" || Ascii.eqb c "X" = false
  /\ exists d, digitValue 10 c = Some d.
Proof.
  intros H.
  destruct (isDigit_cases c H) as [->|[->|[->|[->|[->|[->|[->|[->|[->| ->]]]]]]]]];
    repeat split; try reflexivity; eexists; vm_compute; reflexivity.
Qed.

(** [parseInt] on a string of decimal digits, with and without a minus
    sign in front. *)
Lemma parseInt_all_digits s :
  s <> "" -> all isDigit s = true ->
  parseInt (Some s) = Some (digits 10 0 s)
  /\ parseInt (Some (String "-" s)) = Some (- digits 10 0 s).
Proof.
  intros Hne Hall. destruct s as [|c rest]; [contradiction|].
  cbn [all] in Hall. apply andb_true_iff in Hall as [Hc Hrest].
  destruct (digit_facts c Hc) as (Hs & Hm & Hp & _ & d & Hd).
  assert (Hhex : match rest with
                 | String x _ => Ascii.eqb c "0" && (Ascii.eqb x "x" || Ascii.eqb x "X")
                 | "" => false
                 end = false).
  { destruct rest as [|x r]; [reflexivity|].
    cbn [all] in Hrest. apply andb_true_iff in Hrest as [Hx _].
    destruct (digit_facts x Hx) as (_ & _ & _ & -> & _). apply andb_false_r. }
  split.
  - unfold parseInt. cbv zeta. cbn [trimStart]. rewrite Hs, Hm, Hp. cbn [orb].
    rewrite Hhex, Hd. f_equal; lia.
  - unfold parseInt. cbv zeta. cbn [trimStart]. change (isSpace "-") with false.
    cbv iota. change (Ascii.eqb "-" "-") with true. cbn [orb]. cbv iota.
    rewrite Hhex, Hd. f_equal; lia.
Qed.

Lemma parseInt_decimal (n : Z) : parseInt (Some (Analytics.decimal n)) = Some n.
Proof.
  unfold Analytics.decimal.
  assert (Hpos : forall p, Pos.to_uint p <> Decimal.Nil).
  { intros p H. pose proof (DecimalPos.Unsigned.of_to p) as E. rewrite H in E.
    discriminate E. }
  assert (Hstr : forall p, NilZero.string_of_uint (Pos.to_uint p)
                           = NilEmpty.string_of_uint (Pos.to_uint p)).
  { intros p. specialize (Hpos p). now destruct (Pos.to_uint p). }
  assert (Hne : forall p, NilEmpty.string_of_uint (Pos.to_uint p) <> "").
  { intros p. specialize (Hpos p).
    destruct (Pos.to_uint p); first [contradiction | discriminate]. }
  destruct n as [|p|p]; cbn [Z.to_int NilZero.string_of_int].
  - reflexivity.
  - rewrite Hstr.
    rewrite (proj1 (parseInt_all_digits _ (Hne p) (all_digits_of_uint _))).
    now rewrite digits_of_uint, DecimalPos.Unsigned.of_to.
  - rewrite Hstr.
    rewrite (proj2 (parseInt_all_digits _ (Hne p) (all_digits_of_uint _))).
    now rewrite digits_of_uint, DecimalPos.Unsigned.of_to.
Qed.

End Numbers.

(** ** [validateField] *)

Module Fields.
Import RegExp FormValidator DOM Matching Numbers.
Local Open Scope string_scope.
Local Open Scope Z_scope.

Lemma split_none sep s :
  count (fun c => Ascii.eqb c sep) s = 0%nat -> split sep s = [s].
Proof.
  induction s as [|c s IH]; cbn [count split]; [reflexivity|].
  destruct (Ascii.eqb c sep); [discriminate|]. intros H. now rewrite IH.
Qed.

Lemma split_first sep x y :
  count (fun c => Ascii.eqb c sep) x = 0%nat ->
  split sep (x ++ String sep y) = x :: split sep y.
Proof.
  induction x as [|c x IH]; intros H.
  - rewrite append_nil_l. cbn [split]. now rewrite Ascii.eqb_refl.
  - rewrite append_cons. cbn [count split] in *.
    destruct (Ascii.eqb c sep); [discriminate|]. now rewrite IH.
Qed.

Lemma decimal_chars n :
  all (fun c => isDigit c || Ascii.eqb c "-") (Analytics.decimal n) = true.
Proof.
  assert (H : forall d, all (fun c => isDigit c || Ascii.eqb c "-")
                            (NilEmpty.string_of_uint d) = true).
  { induction d; cbn [NilEmpty.string_of_uint all]; [reflexivity|..];
      rewrite IHd; reflexivity. }
  assert (H' : forall d, all (fun c => isDigit c || Ascii.eqb c "-")
                             (NilZero.string_of_uint d) = true).
  { intros d. destruct d; try apply H. reflexivity. }
  unfold Analytics.decimal.
  destruct (Z.to_int n); cbn [NilZero.string_of_int all]; [apply H'|].
  rewrite H'. reflexivity.
Qed.

Lemma decimal_no sep n :
  isDigit sep || Ascii.eqb sep "-" = false ->
  count (fun c => Ascii.eqb c sep) (Analytics.decimal n) = 0%nat.
Proof.
  intros Hsep. apply (all_count_none (fun c => isDigit c || Ascii.eqb c "-")).
  - intros c Hc. destruct (Ascii.eqb_spec c sep) as [->|]; [congruence | reflexivity].
  - apply decimal_chars.
Qed.

Lemma parameter_rule (rule : string) (n : Z) :
  count (fun c => Ascii.eqb c "|") rule = 0%nat ->
  count (fun c => Ascii.eqb c ":") rule = 0%nat ->
  split "|" (rule ++ String ":" (Analytics.decimal n))
  = [rule ++ String ":" (Analytics.decimal n)]
  /\ ruleName (rule ++ String ":" (Analytics.decimal n)) = rule
  /\ paramsOf (rule ++ String ":" (Analytics.decimal n)) = [Analytics.decimal n].
Proof.
  intros Hbar Hcolon.
  assert (Hsplit : split ":" (rule ++ String ":" (Analytics.decimal n))
                   = [rule; Analytics.decimal n]).
  { rewrite split_first by exact Hcolon.
    now rewrite split_none by (apply decimal_no; reflexivity). }
  split; [|split].
  - apply split_none. rewrite count_append. cbn [count].
    rewrite Hbar, decimal_no by reflexivity. reflexivity.
  - unfold ruleName. now rewrite Hsplit.
  - unfold paramsOf. now rewrite Hsplit.
Qed.

(** X27: the length rules read their bound from the attribute.  A field
    marked [minlength:n] is valid exactly when its trimmed value has at
    least [n] characters, one marked [maxlength:n] when it has at most [n];
    a field marked [minlength] or [maxlength] without a bound is never
    valid. *)
Theorem length_rules_read_their_bound (validURL : string -> bool) (field : Field)
    (st : State) (n : Z) :
  (validate field = Some ("minlength:" ++ Analytics.decimal n) ->
   fst (validateField validURL field st) = (n <=? length (trim (value field))))
  /\ (validate field = Some ("maxlength:" ++ Analytics.decimal n) ->
      fst (validateField validURL field st) = (length (trim (value field)) <=? n))
  /\ (validate field = Some "minlength" \/ validate field = Some "maxlength" ->
      fst (validateField validURL field st) = false).
Proof.
  split; [|split].
  - intros Hv. unfold validateField, rulesOf. cbv zeta. rewrite Hv.
    change ("minlength:" ++ Analytics.decimal n)
      with ("minlength" ++ String ":" (Analytics.decimal n)).
    destruct (parameter_rule "minlength" n eq_refl eq_refl) as (-> & Hname & Hparams).
    cbn [firstFailure]. rewrite Hname, Hparams.
    unfold checkRule. cbn [String.eqb Ascii.eqb Bool.eqb andb head].
    rewrite parseInt_decimal.
    now destruct (n <=? length (trim (value field))).
  - intros Hv. unfold validateField, rulesOf. cbv zeta. rewrite Hv.
    change ("maxlength:" ++ Analytics.decimal n)
      with ("maxlength" ++ String ":" (Analytics.decimal n)).
    destruct (parameter_rule "maxlength" n eq_refl eq_refl) as (-> & Hname & Hparams).
    cbn [firstFailure]. rewrite Hname, Hparams.
    unfold checkRule. cbn [String.eqb Ascii.eqb Bool.eqb andb head].
    rewrite parseInt_decimal.
    now destruct (length (trim (value field)) <=? n).
  - intros [Hv|Hv]; unfold validateField, rulesOf; cbv zeta; rewrite Hv; reflexivity.
Qed.

Lemma length_rules_read_their_bound_witness :
  fst (validateField SampleForm.validURL SampleForm.message SampleForm.clean)
  = (8 <=? length (trim (value SampleForm.message)))
  /\ fst (validateField SampleForm.validURL SampleForm.pin SampleForm.clean) = false.
Proof.
  split.
  - apply (proj1 (length_rules_read_their_bound SampleForm.validURL SampleForm.message
                    SampleForm.clean 8)).
    reflexivity.
  - apply (proj2 (proj2 (length_rules_read_their_bound SampleForm.validURL SampleForm.pin
                           SampleForm.clean 0))).
    right. reflexivity.
Defined.

Lemma trimStart_spaces s : trimStart s = "" <-> all isSpace s = true.
Proof.
  induction s as [|c s IH]; cbn [trimStart all]; [split; reflexivity|].
  destruct (isSpace c); cbn [andb]; [exact IH|]. split; discriminate.
Qed.

Lemma trimStart_head s c r : trimStart s = String c r -> isSpace c = false.
Proof.
  induction s as [|c' s IH]; cbn [trimStart]; [discriminate|].
  destruct (isSpace c') eqn:E; [exact IH|]. intros H. injection H as -> _. exact E.
Qed.

Lemma trimEnd_spaces s : trimEnd s = "" <-> all isSpace s = true.
Proof.
  induction s as [|c s IH]; cbn [trimEnd all]; [split; reflexivity|].
  destruct (trimEnd s) as [|c' r] eqn:E.
  - destruct (isSpace c); cbn [andb]; [|split; discriminate].
    split; [intros _; now apply IH | reflexivity].
  - split; [discriminate|]. intros H. apply andb_true_iff in H as [_ H].
    apply IH in H. discriminate.
Qed.

Lemma trim_spaces s : trim s = "" <-> all isSpace s = true.
Proof.
  unfold trim. rewrite trimEnd_spaces. rewrite <- (trimStart_spaces s).
  destruct (trimStart s) as [|c r] eqn:E; [split; reflexivity|].
  cbn [all]. rewrite (trimStart_head s c r E). cbn [andb]. split; discriminate.
Qed.

Lemma checkRule_fails_known validURL rule value params :
  checkRule validURL rule value params = false ->
  In rule ["required"; "email"; "phone"; "minlength"; "maxlength"; "url"].
Proof.
  unfold checkRule. cbn [In].
  destruct (String.eqb_spec rule "required"); [auto|].
  destruct (String.eqb_spec rule "email"); [auto|].
  destruct (String.eqb_spec rule "phone"); [auto|].
  destruct (String.eqb_spec rule "minlength"); [auto 6|].
  destruct (String.eqb_spec rule "maxlength"); [auto 7|].
  destruct (String.eqb_spec rule "url"); [auto 8|].
  discriminate.
Qed.

Lemma firstFailure_spec validURL value rules :
  match firstFailure validURL value rules with
  | Some rule =>
      In rule ["required"; "email"; "phone"; "minlength"; "maxlength"; "url"]
      /\ exists r, In r rules /\ rule = ruleName r
                   /\ checkRule validURL (ruleName r) value (paramsOf r) = false
  | None =>
      forall r, In r rules -> checkRule validURL (ruleName r) value (paramsOf r) = true
  end.
Proof.
  induction rules as [|r rules IH]; cbn [firstFailure].
  - intros r [].
  - destruct (checkRule validURL (ruleName r) value (paramsOf r)) eqn:E; cbn [negb].
    + destruct (firstFailure validURL value rules) as [rule|].
      * destruct IH as (H1 & r' & H2 & H3 & H4). split; [exact H1|].
        exists r'. repeat split; [now right | exact H3 | exact H4].
      * intros r' [<-|Hin]; [exact E | now apply IH].
    + split; [eapply checkRule_fails_known; eauto|].
      exists r. repeat split; [now left | exact E].
Qed.

Lemma message_is_specific rule fieldName :
  In rule ["required"; "email"; "phone"; "minlength"; "maxlength"; "url"] ->
  getErrorMessage rule fieldName <> "Invalid input".
Proof.
  intros [<-|[<-|[<-|[<-|[<-|[<-|[]]]]]]]; try discriminate.
  unfold getErrorMessage. cbv zeta.
  cbn [List.find fst String.eqb Ascii.eqb Bool.eqb andb].
  destruct fieldName as [|c [|c' rest]]; try discriminate.
  rewrite !append_cons. cbn [String.eqb]. intros H. injection H as _ _ H.
  apply (f_equal String.length) in H. rewrite length_append in H.
  cbn [String.length] in H. lia.
Qed.

(** X28: what [validateField] reports.  A field is valid exactly when
    its trimmed value passes every rule of its attribute; then its error is
    cleared.  Otherwise the field is marked and the message is the one of
    the first rule that fails, which is one of the six rules the validator
    knows: a rule under any other name never fails, and the fallback message
    [Invalid input] is never shown.  A field marked [required] is valid
    exactly when its value is more than white space. *)
Theorem validateField_reports_first_failure (validURL : string -> bool) (field : Field)
    (st : State) :
  (fst (validateField validURL field st) = true
   <-> forall r, In r (rulesOf field) ->
         checkRule validURL (ruleName r) (trim (value field)) (paramsOf r) = true)
  /\ (fst (validateField validURL field st) = true ->
      snd (validateField validURL field st) = clearFieldError field st)
  /\ (fst (validateField validURL field st) = false ->
      exists rule,
        firstFailure validURL (trim (value field)) (rulesOf field) = Some rule
        /\ In rule ["required"; "email"; "phone"; "minlength"; "maxlength"; "url"]
        /\ snd (validateField validURL field st)
           = setFieldError field (getErrorMessage rule (name field)) st
        /\ getErrorMessage rule (name field) <> "Invalid input")
  /\ (validate field = Some "required" ->
      (fst (validateField validURL field st) = true
       <-> all isSpace (value field) = false)).
Proof.
  pose proof (firstFailure_spec validURL (trim (value field)) (rulesOf field)) as Hspec.
  unfold validateField. cbv zeta.
  split; [|split; [|split]].
  - destruct (firstFailure validURL (trim (value field)) (rulesOf field)) as [rule|];
      cbn [fst].
    + destruct Hspec as (_ & r & Hin & _ & Hfail).
      split; [discriminate|]. intros H. rewrite (H r Hin) in Hfail. discriminate.
    + split; [intros _; exact Hspec | reflexivity].
  - destruct (firstFailure validURL (trim (value field)) (rulesOf field)); cbn [fst snd];
      [discriminate | reflexivity].
  - destruct (firstFailure validURL (trim (value field)) (rulesOf field)) as [rule|];
      cbn [fst snd]; [|discriminate].
    intros _. exists rule. destruct Hspec as (Hknown & _).
    repeat split; [exact Hknown | now apply message_is_specific].
  - intros Hv. unfold rulesOf. rewrite Hv. cbn [split Ascii.eqb Bool.eqb andb].
    cbn [firstFailure]. unfold ruleName, paramsOf. cbn [split Ascii.eqb Bool.eqb andb].
    unfold checkRule. cbn [String.eqb Ascii.eqb Bool.eqb andb].
    pose proof (trim_spaces (value field)) as Ht. unfold length.
    destruct (trim (value field)) as [|c r]; cbn [String.length].
    + cbn [Z.of_nat Z.ltb Z.compare negb fst].
      split; [discriminate|]. intros H. rewrite (proj1 Ht eq_refl) in H. discriminate.
    + replace (0 <? Z.of_nat (S (String.length r))) with true
        by (symmetry; apply Z.ltb_lt; lia).
      cbn [negb fst]. split; [intros _|reflexivity].
      destruct (all isSpace (value field)); [|reflexivity].
      discriminate (proj2 Ht eq_refl).
Qed.

Lemma validateField_reports_first_failure_witness :
  snd (validateField SampleForm.validURL SampleForm.email SampleForm.clean)
  = clearFieldError SampleForm.email SampleForm.clean.
Proof.
  apply (proj1 (proj2 (validateField_reports_first_failure SampleForm.validURL
                         SampleForm.email SampleForm.clean))).
  vm_compute. reflexivity.
Defined.

End Fields.

(** ** Submitting a form *)

Module Submitting.
Import RegExp FormValidator DOM.
Local Open Scope string_scope.
Local Open Scope Z_scope.



Lemma validateField_valid_anywhere validURL field st st' :
  fst (validateField validURL field st) = fst (validateField validURL field st').
Proof.
  unfold validateField. cbv zeta.
  now destruct (firstFailure validURL (trim (value field)) (rulesOf field)).
Qed.

Lemma validateAll_from validURL fields : forall (ok : bool) st st0,
  fst (fold_left (fun acc field =>
                    let r := validateField validURL field (snd acc) in
                    (if negb (fst r) then false else fst acc, snd r))
                 fields (ok, st))
  = ok && forallb (fun field => fst (validateField validURL field st0)) fields.
Proof.
  induction fields as [|f fields IH]; intros ok st st0; cbn [fold_left forallb fst snd].
  - now rewrite andb_true_r.
  - cbv zeta. rewrite (IH _ _ st0).
    rewrite (validateField_valid_anywhere validURL f st st0).
    destruct (fst (validateField validURL f st0)), ok; reflexivity.
Qed.

(** X30: a form with an invalid field is not sent.  [handleSubmit]
    validates every field; when one of them fails a rule nothing goes to the
    network or into the storage and the button is left alone, and one
    notification asks to fix the errors.  When every field is valid the form
    is submitted. *)
Theorem invalid_form_is_not_sent (validURL : string -> bool) (PA : Api.Platform)
    (PS : Store.Platform) (fields : list Field) (s : Submission) (p : Page) :
  ((exists field, In field fields
                  /\ fst (validateField validURL field (validator p)) = false) ->
   traffic (handleSubmit validURL PA PS fields s p) = traffic p
   /\ storage (handleSubmit validURL PA PS fields s p) = storage p
   /\ submitBtn (handleSubmit validURL PA PS fields s p) = submitBtn p
   /\ toasts (handleSubmit validURL PA PS fields s p)
      = (toasts p ++ [("error", "Please fix the errors in the form")])%list)
  /\ ((forall field, In field fields ->
         fst (validateField validURL field (validator p)) = true) ->
      handleSubmit validURL PA PS fields s p
      = submitForm PA PS s
          (mkPage (snd (validateAll validURL fields
                          (mkState ∅ (document (validator p))
                                   (errorMessage (validator p)))))
                  (submitBtn p) (toasts p) (traffic p) (storage p) (resets p)
                  (failures p))).
Proof.
  assert (Hfst : fst (validateAll validURL fields
                        (mkState ∅ (document (validator p)) (errorMessage (validator p))))
                 = true && forallb (fun field =>
                                      fst (validateField validURL field (validator p)))
                                   fields).
  { unfold validateAll. apply validateAll_from. }
  cbn [andb] in Hfst. unfold handleSubmit. cbv zeta. rewrite Hfst. split.
  - intros (field & Hin & Hbad).
    assert (Hall : forallb (fun field => fst (validateField validURL field (validator p)))
                           fields = false).
    { apply not_true_is_false. intros Hall. rewrite forallb_forall in Hall.
      rewrite (Hall field Hin) in Hbad. discriminate. }
    rewrite Hall. repeat split.
  - intros Hgood.
    assert (Hall : forallb (fun field => fst (validateField validURL field (validator p)))
                           fields = true).
    { apply forallb_forall. exact Hgood. }
    rewrite Hall. reflexivity.
Qed.

Lemma invalid_form_is_not_sent_witness :
  traffic (handleSubmit SampleForm.validURL SampleNet.flaky RefJson.storePlatform
             [SampleForm.email; SampleForm.message] SampleForm.submission SampleForm.page)
  = traffic SampleForm.page
  /\ storage (handleSubmit SampleForm.validURL SampleNet.flaky RefJson.storePlatform
                [SampleForm.email; SampleForm.message] SampleForm.submission
                SampleForm.page)
     = storage SampleForm.page
  /\ submitBtn (handleSubmit SampleForm.validURL SampleNet.flaky RefJson.storePlatform
                  [SampleForm.email; SampleForm.message] SampleForm.submission
                  SampleForm.page)
     = submitBtn SampleForm.page
  /\ toasts (handleSubmit SampleForm.validURL SampleNet.flaky RefJson.storePlatform
               [SampleForm.email; SampleForm.message] SampleForm.submission
               SampleForm.page)
     = (toasts SampleForm.page ++ [("error", "Please fix the errors in the form")])%list.
Proof.
  apply (proj1 (invalid_form_is_not_sent SampleForm.validURL SampleNet.flaky
                  RefJson.storePlatform [SampleForm.email; SampleForm.message]
                  SampleForm.submission SampleForm.page)).
  exists SampleForm.message. split; [right; left; reflexivity|].
  vm_compute. reflexivity.
Defined.

End Submitting.
